(** * local-assistant: face recognition, vote aggregation and session gating

    A shallow embedding of the authentication core of the assistant:
    - [face_auth.py]: the bank loader [_load_face_bank], the nearest-neighbour
      classifier [_knn], the voting loop [recognize_quick], the identity
      chooser [choose_identity_from_faces_or_fallback], the camera selection
      [_open_camera] and the enrollment [capture_profile];
    - [profiles.py]: [ensure_identity_struct] and [has_calendar_permission];
    - [repl.py]: [attempt_auto_identity], [do_voice_listen] and the command
      loop of [run_repl];
    - [calendar_tools.py]: [_next_weekday] and [_wordnum_to_int].

    Python exceptions are values of [result]; dictionaries are [gmap]s; the
    camera, the detector and the other external services are inputs. *)

From Stdlib Require Import ZArith QArith List Sorted Bool Ascii String Lia.
From stdpp Require Import gmap strings.
Import ListNotations.

Local Open Scope Z_scope.

(** ** Python results *)

(** The two exceptions the modelled code can raise: [dists[0]] on an empty
    list and [np.argmax] on an empty array. *)
Inductive exn : Type :=
| IndexError
| ValueError.

Inductive result (A : Type) : Type :=
| Return (a : A)
| Raise (e : exn).

Arguments Return {A} a.
Arguments Raise {A} e.

#[global] Instance result_ret : MRet result := fun A a => Return a.

#[global] Instance result_bind : MBind result := fun A B f r =>
  match r with
  | Return a => f a
  | Raise e => Raise e
  end.

(** Truthiness of an optional string: [None] and the empty string are falsy. *)
Definition truthy (s : option string) : bool :=
  match s with
  | None => false
  | Some s => negb (String.eqb s "")
  end.

(** ** numpy and list helpers *)

Module Np.

(** [l[:k]] for a Python integer [k]: a negative [k] counts from the end. *)
Definition slice_to {A : Type} (k : Z) (l : list A) : list A :=
  if k <? 0 then firstn (Z.to_nat (Z.of_nat (length l) + k)) l
  else firstn (Z.to_nat k) l.

(** One step of counting: [l] is ascending in its values. *)
Fixpoint bump (x : Z) (l : list (Z * nat)) : list (Z * nat) :=
  match l with
  | [] => [(x, 1%nat)]
  | (y, c) :: t =>
      if x <? y then (x, 1%nat) :: (y, c) :: t
      else if x =? y then (y, S c) :: t
      else (y, c) :: bump x t
  end.

(** [np.unique(top, return_counts=True)]: the distinct values in ascending
    order, each with its number of occurrences. *)
Definition unique_counts (top : list Z) : list (Z * nat) :=
  fold_right bump [] top.

(** Scan for the first position holding the largest count. *)
Fixpoint argmax_from (best_i best i : nat) (l : list nat) : nat :=
  match l with
  | [] => best_i
  | c :: t =>
      if (best <? c)%nat then argmax_from i c (S i) t
      else argmax_from best_i best (S i) t
  end.

(** [np.argmax(counts)]: index of the first maximum; an empty array raises. *)
Definition argmax (counts : list nat) : result nat :=
  match counts with
  | [] => Raise ValueError
  | c :: t => Return (argmax_from 0 c 1 t)
  end.

End Np.

(** ** String helpers *)

Module Str.

(** [c.lower()] on one ASCII character. Characters outside ASCII never lower
    to an ASCII letter of the words compared here, so they are left as is. *)
Definition lower_ascii (c : ascii) : ascii :=
  let n := nat_of_ascii c in
  if ((65 <=? n) && (n <=? 90))%nat then ascii_of_nat (n + 32) else c.

(** [s.lower()] *)
Fixpoint lower (s : string) : string :=
  match s with
  | EmptyString => EmptyString
  | String c t => String (lower_ascii c) (lower t)
  end.

(** [s.endswith(suf)] *)
Definition endswith (suf s : string) : bool :=
  let n := String.length s in
  let m := String.length suf in
  (m <=? n)%nat && String.eqb (substring (n - m) m s) suf.

(** [s[:-m]] for a positive [m] *)
Definition drop_last (m : nat) (s : string) : string :=
  substring 0 (String.length s - m) s.

End Str.

(** ** config.py *)

Module Config.

(** The knobs read from the process environment at import time. *)
Record config : Type := {
  STRICT_AUTH : bool;
  AUTO_RECOG_ON_START : bool;
  VOICE_MODE_DEFAULT : bool;
  FACE_MIN_SIZE : Z;
  FACE_BLUR_THRESH : Q;
  FACE_MAX_BLUR : Q;
  FACE_DIST_THRESH : Q
}.

(** The values taken when no environment variable is set. *)
Definition defaults : config := {|
  STRICT_AUTH := true;
  AUTO_RECOG_ON_START := true;
  VOICE_MODE_DEFAULT := true;
  FACE_MIN_SIZE := 80;
  FACE_BLUR_THRESH := 100;
  FACE_MAX_BLUR := 600;
  FACE_DIST_THRESH := 2600
|}.

Definition TTS_ENABLED_DEFAULT : bool := true.
Definition TTS_RATE_DEFAULT : option Z := None.
Definition TTS_VOICE_INDEX_DEFAULT : option Z := None.

End Config.

(** ** personas.py *)

Module Personas.

(** The keys of the [PERSONAS] dictionary, in the order they are written.
    Only membership is used by the code modelled here. *)
Definition PERSONAS : list string := ["Aldridge"; "Professor"; "Guest"]%string.

(** [name in PERSONAS] *)
Definition is_persona (name : string) : bool :=
  existsb (String.eqb name) PERSONAS.

End Personas.

(** ** profiles.py *)

Module Profiles.

Record tts_prefs : Type := {
  enabled : bool;
  voice_index : option Z;
  rate : option Z
}.

(** One entry [profiles[identity]]: each of the three keys may be absent. *)
Record profile : Type := {
  places : option (gmap string string);
  tts : option tts_prefs;
  permissions : option (gmap string bool)
}.

(** The dictionary kept in [profiles.json]. The string stored under the key
    ["_last_identity"] is the field [last_identity]; [records] holds the
    entries of the identities. *)
Record profiles : Type := {
  last_identity : option string;
  records : gmap string profile
}.

Definition empty_profile : profile :=
  {| places := None; tts := None; permissions := None |}.

Definition default_tts : tts_prefs := {|
  enabled := Config.TTS_ENABLED_DEFAULT;
  voice_index := Config.TTS_VOICE_INDEX_DEFAULT;
  rate := Config.TTS_RATE_DEFAULT
|}.

(** [load_profiles()] when [profiles.json] does not exist *)
Definition no_profiles : profiles :=
  {| last_identity := None; records := ∅ |}.

(** [key in profiles] *)
Definition contains (p : profiles) (key : string) : bool :=
  if String.eqb key "_last_identity" then bool_decide (is_Some (last_identity p))
  else bool_decide (is_Some (records p !! key)).

(** The three [setdefault] calls on [profiles[identity]]. *)
Definition with_defaults (identity : string) (r : profile) : profile := {|
  places := Some (default ∅ (places r));
  tts := Some (default default_tts (tts r));
  permissions :=
    Some (default {[ "calendar"%string := String.eqb identity "Aldridge" ]}
            (permissions r))
|}.

Definition ensure_identity_struct (p : profiles) (identity : string) : profiles := {|
  last_identity := last_identity p;
  records :=
    <[ identity := with_defaults identity
                     (default empty_profile (records p !! identity)) ]>
      (records p)
|}.

(** [profiles.get(identity, {}).get("permissions", {}).get("calendar", False)] *)
Definition has_calendar_permission (identity : string) (p : profiles) : bool :=
  default false
    (r ← records p !! identity;
     perms ← permissions r;
     perms !! "calendar"%string).

(** [profiles["_last_identity"] = identity] *)
Definition set_last_identity (p : profiles) (identity : string) : profiles :=
  {| last_identity := Some identity; records := records p |}.

(** [profiles[identity]["permissions"]["calendar"] = value], run after
    [ensure_identity_struct], so the entry and its dictionary exist. *)
Definition set_calendar (p : profiles) (identity : string) (value : bool) : profiles := {|
  last_identity := last_identity p;
  records :=
    match records p !! identity with
    | Some r =>
        <[ identity := {| places := places r; tts := tts r;
                          permissions :=
                            Some (<[ "calendar"%string := value ]>
                                    (default ∅ (permissions r))) |} ]>
          (records p)
    | None => records p
    end
|}.

(** [profiles[identity]["tts"][...] = ...] after [ensure_identity_struct]. *)
Definition set_tts (p : profiles) (identity : string)
    (f : tts_prefs -> tts_prefs) : profiles := {|
  last_identity := last_identity p;
  records :=
    match records p !! identity with
    | Some r =>
        <[ identity := {| places := places r;
                          tts := Some (f (default default_tts (tts r)));
                          permissions := permissions r |} ]>
          (records p)
    | None => records p
    end
|}.

(** [profiles[identity]["places"][k] = v] after [ensure_identity_struct]. *)
Definition set_place (p : profiles) (identity k v : string) : profiles := {|
  last_identity := last_identity p;
  records :=
    match records p !! identity with
    | Some r =>
        <[ identity := {| places := Some (<[ k := v ]> (default ∅ (places r)));
                          tts := tts r;
                          permissions := permissions r |} ]>
          (records p)
    | None => records p
    end
|}.

(** [profiles.get(identity, {}).get("places", {})] *)
Definition places_of (p : profiles) (identity : string) : gmap string string :=
  default ∅ (r ← records p !! identity; places r).

End Profiles.

(** ** face_auth.py: the classifier *)

Module FaceAuth.

Section Recognition.

(** Feature vectors are opaque; the metric is the source's [_euclid_dist].
    Its float results are taken as rationals: the classifier only compares
    them. *)
Variable vec : Type.
Variable _euclid_dist : vec -> vec -> Q.

(** A row of [train]: the features [train[i, :-1]] and the label
    [train[i, -1]]. *)
Definition row : Type := (vec * Z)%type.

(** The first loop of [_knn]: one [(dist, lbl)] pair per row. *)
Definition distances (train : list row) (test_vec : vec) : list (Q * Z) :=
  map (fun r => (_euclid_dist test_vec (fst r), snd r)) train.

(** [dists.sort(key=lambda t: t[0])]: a stable sort on the distance. *)
Fixpoint insert_by_dist (x : Q * Z) (l : list (Q * Z)) : list (Q * Z) :=
  match l with
  | [] => [x]
  | y :: t =>
      if Qle_bool (fst x) (fst y) then x :: y :: t
      else y :: insert_by_dist x t
  end.

Fixpoint sort_by_dist (l : list (Q * Z)) : list (Q * Z) :=
  match l with
  | [] => []
  | x :: t => insert_by_dist x (sort_by_dist t)
  end.

(** The vote among the labels of [top]. *)
Definition majority (top : list Z) : result Z :=
  let uc := Np.unique_counts top in
  let vals := map fst uc in
  let counts := map snd uc in
  idx ← Np.argmax counts;
  Return (nth idx vals 0).

Definition _knn (train : list row) (test_vec : vec) (k : Z) (threshold : Q)
  : result Z :=
  let dists := sort_by_dist (distances train test_vec) in
  match dists with
  | [] => Raise IndexError
  | (d0, _) :: _ =>
      if negb (Qle_bool d0 threshold) then Return (-1)
      else majority (map snd (Np.slice_to k dists))
  end.

(** The classification of one crop in [recognize_quick]: the call of [_knn],
    the test [pred_id == -1], the lookup [names.get(pred_id)] and the test
    [not name]. [None] is a crop that gives no vote. *)
Definition classify (train : list row) (names : gmap Z string) (test_vec : vec)
    (k : Z) (threshold : Q) : result (option string) :=
  pred_id ← _knn train test_vec k threshold;
  if pred_id =? -1 then Return None
  else
    let name := names !! pred_id in
    if negb (truthy name) then Return None else Return name.

(** *** The face bank *)

(** What [np.load] returns for one file: the number of dimensions and, for a
    matrix, its rows. *)
Record npy : Type := {
  ndim : nat;
  npy_rows : list vec
}.

(** The loop variables of [_load_face_bank]. *)
Record bank_scan : Type := {
  feats : list (list vec);
  labels : list (list Z);
  names : gmap Z string;
  cid : Z
}.

Definition scan_file (st : bank_scan) (file : string * npy) : bank_scan :=
  let (fn, X) := file in
  if Str.endswith ".npy" fn then
    if negb (ndim X =? 2)%nat then st
    else {|
      feats := feats st ++ [npy_rows X];
      labels := labels st ++ [map (fun _ => cid st) (npy_rows X)];
      names := <[ cid st := Str.drop_last 4 fn ]> (names st);
      cid := cid st + 1
    |}
  else st.

(** [has_cv2] is [HAS_CV2]; [dataset] is the listing of the directory
    [face_dataset] with the content of each file, [None] when the directory
    does not exist. *)
Definition _load_face_bank (has_cv2 : bool) (dataset : option (list (string * npy)))
  : option (list row * gmap Z string) :=
  match dataset with
  | Some files =>
      if has_cv2 then
        let st := fold_left scan_file files
                    {| feats := []; labels := []; names := ∅; cid := 0 |} in
        match feats st with
        | [] => None
        | _ :: _ => Some (combine (concat (feats st)) (concat (labels st)), names st)
        end
      else None
  | None => None
  end.

(** *** The voting loop *)

(** One box returned by the detector, with what the loop computes from it:
    whether the clipped region is non-empty, the sharpness of the resized
    crop, and the flattened crop. *)
Record face : Type := {
  face_w : Z;
  face_h : Z;
  roi_nonempty : bool;
  sharpness : Q;
  roi100 : vec
}.

(** One [cap.read()] with the detection on it: [None] is a failed read. *)
Definition frame : Type := option (list face).

(** The machine [recognize_quick] runs on. [camera] is [None] when no device
    opens; otherwise it gives the outcome of the i-th read. *)
Record world : Type := {
  HAS_CV2 : bool;
  face_dataset : option (list (string * npy));
  camera : option (nat -> frame);
  cascade_found : bool;
  cascade_loads : bool
}.

Section Loop.

Variable cfg : Config.config.
Variable train : list row.
Variable bank_names : gmap Z string.
Variable need_votes : nat.
Variable k : Z.

(** The body of [for (x, y, w, h) in faces] up to the vote: the name this
    face votes for, if any. *)
Definition face_vote (f : face) : result (option string) :=
  if (face_w f <? Config.FACE_MIN_SIZE cfg) || (face_h f <? Config.FACE_MIN_SIZE cfg)
  then Return None
  else if negb (roi_nonempty f) then Return None
  else if negb (Qle_bool (Config.FACE_BLUR_THRESH cfg) (sharpness f)
                && Qle_bool (sharpness f) (Config.FACE_MAX_BLUR cfg))
  then Return None
  else
    classify train bank_names (roi100 f) k (Config.FACE_DIST_THRESH cfg).

(** [votes[name] = votes.get(name, 0) + 1] *)
Definition add_vote (votes : gmap string nat) (name : string) : gmap string nat :=
  <[ name := (default 0 (votes !! name) + 1)%nat ]> votes.

(** The inner loop over the faces of one frame; [Some name] in the result is
    the [return name] inside the loop. *)
Fixpoint faces_loop (votes : gmap string nat) (faces : list face)
  : result (gmap string nat * option string) :=
  match faces with
  | [] => Return (votes, None)
  | f :: rest =>
      v ← face_vote f;
      match v with
      | None => faces_loop votes rest
      | Some name =>
          let votes' := add_vote votes name in
          if (need_votes <=? default 0 (votes' !! name))%nat
          then Return (votes', Some name)
          else faces_loop votes' rest
      end
  end.

(** The loop variables when [recognize_quick] leaves its loop, and what it
    returns. *)
Record attempt : Type := {
  votes : gmap string nat;
  frames : nat;
  outcome : option string
}.

(** [while frames < timeout_frames]: [remaining] is
    [timeout_frames - frames]. *)
Fixpoint frames_loop (cam : nat -> frame) (remaining : nat)
    (votes : gmap string nat) (frames : nat) : result attempt :=
  match remaining with
  | O => Return {| votes := votes; frames := frames; outcome := None |}
  | S remaining' =>
      let frames' := S frames in
      match cam frames with
      | None => frames_loop cam remaining' votes frames'
      | Some faces =>
          r ← faces_loop votes faces;
          match r with
          | (votes', Some name) =>
              Return {| votes := votes'; frames := frames'; outcome := Some name |}
          | (votes', None) => frames_loop cam remaining' votes' frames'
          end
      end
  end.

End Loop.

(** [recognize_quick] up to its loop: the bank, the names and the opened
    camera, or [None] when the function returns early. *)
Definition recognize_setup (w : world)
  : option (list row * gmap Z string * (nat -> frame)) :=
  if negb (HAS_CV2 w) then None
  else
    match _load_face_bank (HAS_CV2 w) (face_dataset w) with
    | None => None
    | Some (train, names) =>
        match camera w with
        | None => None
        | Some cam =>
            if negb (cascade_found w) then None
            else if negb (cascade_loads w) then None
            else Some (train, names, cam)
        end
    end.

(** The loop of [recognize_quick] with its loop variables; [None] when the
    function returns before the loop. *)
Definition recognize_attempt (cfg : Config.config) (w : world)
    (timeout_frames need_votes : nat) (k : Z) : option (result attempt) :=
  match recognize_setup w with
  | None => None
  | Some (train, names, cam) =>
      Some (frames_loop cfg train names need_votes k cam timeout_frames ∅ 0)
  end.

Definition recognize_quick (cfg : Config.config) (w : world)
    (timeout_frames need_votes : nat) (k : Z) : result (option string) :=
  match recognize_attempt cfg w timeout_frames need_votes k with
  | None => Return None
  | Some r => a ← r; Return (outcome a)
  end.

(** *** The identity chooser *)

(** [who and who in profiles] for an optional name: the name when the test
    passes. *)
Definition known_in (profiles : Profiles.profiles) (who : option string)
  : option string :=
  match who with
  | Some name =>
      if truthy who && Profiles.contains profiles name then Some name else None
  | None => None
  end.

Definition choose_identity_from_faces_or_fallback (cfg : Config.config)
    (w : world) (profiles : Profiles.profiles) (try_camera : bool)
  : result (string * bool) :=
  who ← (if try_camera && Config.AUTO_RECOG_ON_START cfg
         then recognize_quick cfg w 250 5 5
         else Return None);
  if Config.STRICT_AUTH cfg then
    match known_in profiles who with
    | Some name =>
        if negb (String.eqb (Str.lower name) "guest")
        then Return (name, true)
        else Return ("LOCKED"%string, false)
    | None => Return ("LOCKED"%string, false)
    end
  else
    match known_in profiles who with
    | Some name => Return (name, true)
    | None =>
        match known_in profiles (Profiles.last_identity profiles) with
        | Some last_id => Return (last_id, true)
        | None => Return ("Guest"%string, false)
        end
    end.

End Recognition.

End FaceAuth.

Arguments FaceAuth.distances {vec} _euclid_dist train test_vec.
Arguments FaceAuth._knn {vec} _euclid_dist train test_vec k threshold.
Arguments FaceAuth.classify {vec} _euclid_dist train names test_vec k threshold.
Arguments FaceAuth._load_face_bank {vec} has_cv2 dataset.
Arguments FaceAuth.face_vote {vec} _euclid_dist cfg train bank_names k f.
Arguments FaceAuth.faces_loop {vec} _euclid_dist cfg train bank_names need_votes k votes faces.
Arguments FaceAuth.frames_loop {vec} _euclid_dist cfg train bank_names need_votes k cam remaining votes frames.
Arguments FaceAuth.recognize_setup {vec} w.
Arguments FaceAuth.recognize_attempt {vec} _euclid_dist cfg w timeout_frames need_votes k.
Arguments FaceAuth.recognize_quick {vec} _euclid_dist cfg w timeout_frames need_votes k.
Arguments FaceAuth.choose_identity_from_faces_or_fallback {vec} _euclid_dist cfg w profiles try_camera.

(** ** repl.py *)

Module Repl.

Import Personas.

Local Open Scope string_scope.

(** *** Startup identity *)

(** [who and who in PERSONAS] for an optional name: the name when the test
    passes. *)
Definition persona_of (who : option string) : option string :=
  match who with
  | Some name => if truthy who && is_persona name then Some name else None
  | None => None
  end.

(** [attempt_auto_identity] after the recognition call, [who] being what
    [recognize_quick] returned ([None] too when the call is skipped). *)
Definition startup_choice (cfg : Config.config) (who : option string)
    (profiles : Profiles.profiles) : string * bool :=
  if Config.STRICT_AUTH cfg then
    match persona_of who with
    | Some name => (name, true)
    | None => ("LOCKED", false)
    end
  else
    match persona_of who with
    | Some name => (name, true)
    | None =>
        match Profiles.last_identity profiles with
        | Some last => if is_persona last then (last, true) else ("Aldridge", true)
        | None => ("Aldridge", true)
        end
    end.

Definition attempt_auto_identity {vec : Type} (_euclid_dist : vec -> vec -> Q)
    (cfg : Config.config) (w : FaceAuth.world vec)
    (profiles : Profiles.profiles) : result (string * bool) :=
  who ← (if FaceAuth.HAS_CV2 vec w
         then FaceAuth.recognize_quick _euclid_dist cfg w 250 5 5
         else Return None);
  Return (startup_choice cfg who profiles).

(** *** The session *)

(** The variables of [run_repl] that the commands below read or write. The
    chat history and the speech preferences held in local variables are left
    out: no command reads them to decide on an identity or a permission. *)
Record session : Type := {
  identity : string;
  profiles : Profiles.profiles;
  voice_mode : bool
}.

(** What the loop sees of the machine: [HAS_CV2] and [stt.available]. *)
Record host : Type := {
  has_cv2 : bool;
  stt_available : bool
}.

(** [run_repl] from the startup choice to the first prompt. *)
Definition start (cfg : Config.config) (h : host)
    (profiles0 : Profiles.profiles) (choice : string * bool) : session :=
  let identity0 := fst choice in
  let identity :=
    if negb (is_persona identity0) && negb (String.eqb identity0 "LOCKED")
    then "LOCKED" else identity0 in
  let seed_key := if is_persona identity then identity else "Aldridge" in
  let profiles1 := Profiles.ensure_identity_struct profiles0 seed_key in
  let tts_bucket := if is_persona identity then identity else "Aldridge" in
  let profiles2 := Profiles.ensure_identity_struct profiles1 tts_bucket in
  {| identity := identity;
     profiles := profiles2;
     voice_mode := Config.VOICE_MODE_DEFAULT cfg && stt_available h
                   && negb (String.eqb identity "LOCKED") |}.

(** [locked_like = (identity == "LOCKED" or identity == "guest")] *)
Definition locked_like (identity : string) : bool :=
  String.eqb identity "LOCKED" || String.eqb identity "guest".

(** *** Inputs *)

(** What was heard by [/mic], with the answers of the services asked about
    it: whether [handle_calendar_text] handles it and the place the
    navigation pattern finds in it. *)
Record spoken : Type := {
  spoken_cal_handled : bool;
  spoken_nav_place : option string
}.

(** The forms an input can take once it is past [/agenda]. *)
Inductive form : Type :=
| FNav (key : string)
| FSetPlace (kv : option (string * string))
| FPlaces
| FMic (heard : option spoken)
| FText (nav_place : option string).

(** An input that is none of the commands up to [/agenda]: whether
    [handle_calendar_text] handles it, whether it contains one of the
    calendar words, and its form. *)
Record utterance : Type := {
  cal_handled : bool;
  has_cal_word : bool;
  shape : form
}.

(** One input line, by the branch of the loop that takes it. [who] is what
    [recognize_quick] returns for this [/recognize]. *)
Inductive command : Type :=
| CmdHelp
| CmdRecognize (who : option string)
| CmdSetupProfile (name : string)
| CmdLock
| CmdLogin (devname : string)
| CmdSwitch
| CmdClear
| CmdModel (new_model : string)
| CmdTts (arg : string)
| CmdVoices
| CmdVoiceidx (idx : option Z)
| CmdRate (rate_val : option Z)
| CmdVoice (arg : string)
| CmdGrantCalendar (target : string)
| CmdRevokeCalendar (target : string)
| CmdAgenda
| CmdOther (u : utterance).

(** *** What a command does *)

Inductive refusal : Type :=
| NoFaceRecognized
| NoProfileForFace
| LoginTargetNotAllowed
| GuestCannotSwitch
| CannotSwitch
| OnlyAldridge
| NotAPersona
| CalendarLocked
| NoCalendarAccess
| NavigationLocked
| PlacesLocked
| NoSuchPlace
| SetPlaceUsage.

Inductive event : Type :=
| PermissionRead (identity : string)
| CalendarListed (identity : string)
| CalendarQuery (identity : string)
| PlaceLookup (identity key : string)
| NavigationOpened (identity key dest : string)
| PlaceSaved (identity key value : string)
| PlacesListed (identity : string)
| ChatTurn (identity : string)
| Refused (why : refusal).

Section Commands.

Variable cfg : Config.config.
Variable h : host.

(** The assignments shared by a successful [/recognize] and [/login]. *)
Definition log_in (s : session) (name : string) : session := {|
  identity := name;
  profiles :=
    Profiles.ensure_identity_struct
      (Profiles.set_last_identity (profiles s) name) name;
  voice_mode :=
    if stt_available h && Config.VOICE_MODE_DEFAULT cfg then true
    else voice_mode s
|}.

Definition with_profiles (s : session) (p : Profiles.profiles) : session :=
  {| identity := identity s; profiles := p; voice_mode := voice_mode s |}.

(** [not locked_like and has_calendar_permission(identity, profiles)]: the
    answer, and the read of the stored flag when the second operand is
    evaluated. *)
Definition calendar_gate (s : session) : bool * list event :=
  if locked_like (identity s) then (false, [])
  else (Profiles.has_calendar_permission (identity s) (profiles s),
        [PermissionRead (identity s)]).

(** [/grant_calendar] and [/revoke_calendar] *)
Definition set_calendar_permission (s : session) (target : string)
    (value : bool) : session * list event :=
  if negb (String.eqb (identity s) "Aldridge") then (s, [Refused OnlyAldridge])
  else if negb (is_persona target) then (s, [Refused NotAPersona])
  else
    (with_profiles s
       (Profiles.set_calendar
          (Profiles.ensure_identity_struct (profiles s) target) target value),
     []).

(** Opening the navigation to a saved place. *)
Definition navigate (s : session) (key : string) : session * list event :=
  if locked_like (identity s) then (s, [Refused NavigationLocked])
  else
    let dest := Profiles.places_of (profiles s) (identity s) !! key in
    match dest with
    | Some d =>
        if truthy dest
        then (s, [PlaceLookup (identity s) key; NavigationOpened (identity s) key d])
        else (s, [PlaceLookup (identity s) key; Refused NoSuchPlace])
    | None => (s, [PlaceLookup (identity s) key; Refused NoSuchPlace])
    end.

(** The natural-language navigation and the chat fallback. *)
Definition nav_or_chat (s : session) (nav_place : option string)
  : session * list event :=
  match nav_place with
  | Some place_key => navigate s place_key
  | None => (s, [ChatTurn (identity s)])
  end.

(** The commands after the calendar block: [/nav], [/setplace], [/places],
    [/mic], then navigation in plain words and the chat. *)
Definition late (s : session) (f : form) : session * list event :=
  match f with
  | FNav key => navigate s key
  | FSetPlace kv =>
      if locked_like (identity s) then (s, [Refused PlacesLocked])
      else
        match kv with
        | None => (s, [Refused SetPlaceUsage])
        | Some (k, v) =>
            (with_profiles s
               (Profiles.set_place
                  (Profiles.ensure_identity_struct (profiles s) (identity s))
                  (identity s) k v),
             [PlaceSaved (identity s) k v])
        end
  | FPlaces =>
      if locked_like (identity s) then (s, [Refused PlacesLocked])
      else (s, [PlacesListed (identity s)])
  | FMic heard =>
      if negb (stt_available h) then (s, [])
      else
        match heard with
        | None => (s, [])
        | Some sp =>
            let (allowed, reads) := calendar_gate s in
            if allowed then
              if spoken_cal_handled sp
              then (s, (reads ++ [CalendarQuery (identity s)])%list)
              else
                let (s', evs) := nav_or_chat s (spoken_nav_place sp) in
                (s', (reads ++ CalendarQuery (identity s) :: evs)%list)
            else
              let (s', evs) := nav_or_chat s (spoken_nav_place sp) in
              (s', (reads ++ evs)%list)
        end
  | FText nav_place => nav_or_chat s nav_place
  end.

(** One turn of the main loop on a non-empty input other than [/exit]. *)
Definition step (s : session) (c : command) : session * list event :=
  match c with
  | CmdHelp => (s, [])
  | CmdRecognize who =>
      if negb (has_cv2 h) then (s, [])
      else
        match who with
        | Some name =>
            if negb (truthy who) then (s, [Refused NoFaceRecognized])
            else if negb (is_persona name) then (s, [Refused NoProfileForFace])
            else (log_in s name, [])
        | None => (s, [Refused NoFaceRecognized])
        end
  | CmdSetupProfile _ => (s, [])
  | CmdLock =>
      ({| identity := "LOCKED"; profiles := profiles s; voice_mode := false |}, [])
  | CmdLogin devname =>
      if is_persona devname && negb (String.eqb (Str.lower devname) "guest")
      then (log_in s devname, [])
      else (s, [Refused LoginTargetNotAllowed])
  | CmdSwitch =>
      if String.eqb (identity s) "Aldridge" || String.eqb (identity s) "Professor"
      then
        let target :=
          if String.eqb (identity s) "Aldridge" then "Professor" else "Aldridge" in
        ({| identity := target;
            profiles :=
              Profiles.set_last_identity
                (Profiles.ensure_identity_struct (profiles s) target) target;
            voice_mode := voice_mode s |}, [])
      else if String.eqb (identity s) "LOCKED" then
        ({| identity := "guest";
            profiles := profiles s;
            voice_mode :=
              if stt_available h && Config.VOICE_MODE_DEFAULT cfg then true
              else voice_mode s |}, [])
      else if String.eqb (identity s) "guest" then (s, [Refused GuestCannotSwitch])
      else (s, [Refused CannotSwitch])
  | CmdClear => (s, [])
  | CmdModel _ => (s, [])
  | CmdTts arg =>
      if String.eqb arg "on" || String.eqb arg "off" then
        if is_persona (identity s) then
          (with_profiles s
             (Profiles.set_tts
                (Profiles.ensure_identity_struct (profiles s) (identity s))
                (identity s)
                (fun t => {| Profiles.enabled := String.eqb arg "on";
                             Profiles.voice_index := Profiles.voice_index t;
                             Profiles.rate := Profiles.rate t |})), [])
        else (s, [])
      else (s, [])
  | CmdVoices => (s, [])
  | CmdVoiceidx None => (s, [])
  | CmdVoiceidx (Some idx) =>
      if is_persona (identity s) then
        (with_profiles s
           (Profiles.set_tts
              (Profiles.ensure_identity_struct (profiles s) (identity s))
              (identity s)
              (fun t => {| Profiles.enabled := Profiles.enabled t;
                           Profiles.voice_index := Some idx;
                           Profiles.rate := Profiles.rate t |})), [])
      else (s, [])
  | CmdRate None => (s, [])
  | CmdRate (Some rate_val) =>
      if is_persona (identity s) then
        (with_profiles s
           (Profiles.set_tts
              (Profiles.ensure_identity_struct (profiles s) (identity s))
              (identity s)
              (fun t => {| Profiles.enabled := Profiles.enabled t;
                           Profiles.voice_index := Profiles.voice_index t;
                           Profiles.rate := Some rate_val |})), [])
      else (s, [])
  | CmdVoice arg =>
      if String.eqb arg "on" then
        if negb (stt_available h) then (s, [])
        else ({| identity := identity s; profiles := profiles s;
                 voice_mode := true |}, [])
      else if String.eqb arg "off" then
        ({| identity := identity s; profiles := profiles s;
            voice_mode := false |}, [])
      else (s, [])
  | CmdGrantCalendar target => set_calendar_permission s target true
  | CmdRevokeCalendar target => set_calendar_permission s target false
  | CmdAgenda =>
      if locked_like (identity s) then (s, [Refused CalendarLocked])
      else if negb (Profiles.has_calendar_permission (identity s) (profiles s))
      then (s, [PermissionRead (identity s); Refused NoCalendarAccess])
      else (s, [PermissionRead (identity s); CalendarListed (identity s)])
  | CmdOther u =>
      let (allowed, reads) := calendar_gate s in
      if allowed then
        if cal_handled u then (s, (reads ++ [CalendarQuery (identity s)])%list)
        else
          let (s', evs) := late s (shape u) in
          (s', (reads ++ CalendarQuery (identity s) :: evs)%list)
      else if has_cal_word u then
        (s, (reads ++ [Refused (if locked_like (identity s)
                                then CalendarLocked else NoCalendarAccess)])%list)
      else
        let (s', evs) := late s (shape u) in
        (s', (reads ++ evs)%list)
  end.

(** The loop on a list of inputs, with everything it did. *)
Fixpoint run (s : session) (cmds : list command) : session * list event :=
  match cmds with
  | [] => (s, [])
  | c :: rest =>
      let (s1, evs1) := step s c in
      let (s2, evs2) := run s1 rest in
      (s2, (evs1 ++ evs2)%list)
  end.

(** The sessions the program can be in: the one it starts with, for some
    stored profiles and some outcome of the startup recognition, and those a
    command leads to. *)
Inductive reachable : session -> Prop :=
| reachable_start (profiles0 : Profiles.profiles) (who : option string) :
    reachable (start cfg h profiles0 (startup_choice cfg who profiles0))
| reachable_step (s : session) (c : command) :
    reachable s -> reachable (fst (step s c)).

(** [run_repl] on stored profiles, [who] being what the startup recognition
    returned, fed a list of inputs: the session it ends in and what it did. *)
Definition run_repl (profiles0 : Profiles.profiles) (who : option string)
    (cmds : list command) : session * list event :=
  run (start cfg h profiles0 (startup_choice cfg who profiles0)) cmds.

End Commands.

(** An event that touches the calendar, the saved places or the stored
    permission flag. *)
Definition sensitive (e : event) : bool :=
  match e with
  | PermissionRead _ | CalendarListed _ | CalendarQuery _
  | PlaceLookup _ _ | NavigationOpened _ _ _ | PlaceSaved _ _ _
  | PlacesListed _ => true
  | ChatTurn _ | Refused _ => false
  end.

(** The inputs that ask for the calendar or the saved places. *)
Definition asks_sensitive (c : command) : bool :=
  match c with
  | CmdAgenda | CmdOther _ => true
  | _ => false
  end.

End Repl.

(** ** face_auth.py: opening a camera *)

Module Camera.

(** The camera knobs of [config.py]. An index override read with
    [os.getenv] is [None] when the variable is unset; when it is set, the
    inner value is what [int(...)] makes of it, [None] when [int] raises. *)
Record knobs : Type := {
  CAMERA_INDEX : Z;
  PREFER_EXTERNAL : bool;
  ENROLL_CAMERA_INDEX : option (option Z);
  RECOG_CAMERA_INDEX : option (option Z)
}.

(** [int(X)] on a set override *)
Definition int_of (raw : option Z) : result Z :=
  match raw with
  | Some i => Return i
  | None => Raise ValueError
  end.

(** [range(lo, hi)] *)
Definition range (lo hi : Z) : list Z :=
  map (fun i => lo + Z.of_nat i) (seq 0 (Z.to_nat (hi - lo))).

(** [for_purpose == wanted and KNOB is not None]: the override when the test
    passes. *)
Definition override (wanted : string) (for_purpose : option string)
    (knob : option (option Z)) : option (option Z) :=
  match for_purpose with
  | Some p => if String.eqb p wanted then knob else None
  | None => None
  end.

(** One forced index: the capture when it opens, nothing otherwise. *)
Definition forced (opens : Z -> bool) (try_idx : Z) : option Z :=
  if opens try_idx then Some try_idx else None.

(** [for idx in preferred_order], with the set [tried]. *)
Fixpoint preferred_loop (opens : Z -> bool) (order : list Z) (tried : gset Z)
  : option Z * gset Z :=
  match order with
  | [] => (None, tried)
  | idx :: rest =>
      if bool_decide (idx ∈ tried) then preferred_loop opens rest tried
      else if opens idx then (Some idx, {[ idx ]} ∪ tried)
      else preferred_loop opens rest ({[ idx ]} ∪ tried)
  end.

(** The last sweep [for idx in range(max_indices + 1)]. *)
Fixpoint last_sweep (opens : Z -> bool) (order : list Z) (tried : gset Z)
  : option Z :=
  match order with
  | [] => None
  | idx :: rest =>
      if bool_decide (idx ∈ tried) then last_sweep opens rest tried
      else if opens idx then Some idx
      else last_sweep opens rest tried
  end.

Definition preferred_order (kn : knobs) (max_indices : Z) : list Z :=
  if PREFER_EXTERNAL kn then [1; 0] ++ range 2 (max_indices + 1)
  else [0] ++ range 1 (max_indices + 1).

(** [_open_camera(max_indices, for_purpose)]: the index of the camera it
    returns, [None] for [(None, None, None)]. [opens idx] tells whether the
    capture made for [idx] is opened. *)
Definition _open_camera (has_cv2 : bool) (kn : knobs) (opens : Z -> bool)
    (max_indices : Z) (for_purpose : option string) : result (option Z) :=
  if negb has_cv2 then Return None
  else
    match override "enroll" for_purpose (ENROLL_CAMERA_INDEX kn) with
    | Some raw => try_idx ← int_of raw; Return (forced opens try_idx)
    | None =>
        match override "recognize" for_purpose (RECOG_CAMERA_INDEX kn) with
        | Some raw => try_idx ← int_of raw; Return (forced opens try_idx)
        | None =>
            if 0 <=? CAMERA_INDEX kn then Return (forced opens (CAMERA_INDEX kn))
            else
              match preferred_loop opens (preferred_order kn max_indices) ∅ with
              | (Some idx, _) => Return (Some idx)
              | (None, tried) =>
                  Return (last_sweep opens (range 0 (max_indices + 1)) tried)
              end
        end
    end.

(** The knobs when no environment variable is set. *)
Definition default_knobs : knobs := {|
  CAMERA_INDEX := -1;
  PREFER_EXTERNAL := true;
  ENROLL_CAMERA_INDEX := None;
  RECOG_CAMERA_INDEX := None
|}.

End Camera.

(** ** face_auth.py: enrollment *)

Module Enroll.

Section Capture.

Variable vec : Type.

(** One turn of the loop of [capture_profile]: what [cap.read()] and the
    detector gave ([None] is a failed read) and the value of the one call of
    [cv2.waitKey(1)] made in this turn. *)
Record turn : Type := {
  shot : FaceAuth.frame vec;
  key : Z
}.

(** [cv2.waitKey(1) & 0xFF == ord('q')] *)
Definition quit_key (key : Z) : bool := Z.land key 255 =? 113.

(** The detector returns its boxes as 32-bit integers; [r[2]*r[3]] is their
    product in that type. *)
Definition wrap32 (z : Z) : Z := (z + 2147483648) mod 4294967296 - 2147483648.

Definition area (f : FaceAuth.face vec) : Z :=
  wrap32 (FaceAuth.face_w vec f * FaceAuth.face_h vec f).

(** [sorted(faces, key=lambda r: r[2]*r[3], reverse=True)]: descending in the
    area, faces of equal area staying in the order of detection. *)
Fixpoint insert_by_area (x : FaceAuth.face vec) (l : list (FaceAuth.face vec))
  : list (FaceAuth.face vec) :=
  match l with
  | [] => [x]
  | y :: t =>
      if area y <=? area x then x :: y :: t
      else y :: insert_by_area x t
  end.

Fixpoint sorted_reverse (faces : list (FaceAuth.face vec)) : list (FaceAuth.face vec) :=
  match faces with
  | [] => []
  | x :: t => insert_by_area x (sorted_reverse t)
  end.

(** [if len(faces): x, y, w, h = sorted(...)[0]] *)
Definition largest (faces : list (FaceAuth.face vec)) : option (FaceAuth.face vec) :=
  head (sorted_reverse faces).

(** The crop the loop counts for a frame, if any: the largest face, when it
    passes the size test, its region is not empty and its sharpness lies
    between the two thresholds. *)
Definition good_crop (cfg : Config.config) (faces : list (FaceAuth.face vec))
  : option vec :=
  match largest faces with
  | None => None
  | Some f =>
      if (Config.FACE_MIN_SIZE cfg <=? FaceAuth.face_w vec f)
         && (Config.FACE_MIN_SIZE cfg <=? FaceAuth.face_h vec f)
      then
        if FaceAuth.roi_nonempty vec f then
          if Qle_bool (Config.FACE_BLUR_THRESH cfg) (FaceAuth.sharpness vec f)
             && Qle_bool (FaceAuth.sharpness vec f) (Config.FACE_MAX_BLUR cfg)
          then Some (FaceAuth.roi100 vec f)
          else None
        else None
      else None
  end.

(** How the loop ends: by a [break], with [samples] and [frame_counter]; by
    the division [frame_counter % keep_every] with [keep_every = 0]; or not
    within the turns given to it. *)
Inductive loop_end : Type :=
| Broke (samples : list vec) (frame_counter : Z)
| ZeroDivisionError
| StillRunning.

(** [while True]: [i] counts the turns, [fuel] bounds the turns looked at. *)
Fixpoint capture_loop (cfg : Config.config) (keep_every max_frames : Z)
    (cam : nat -> turn) (fuel : nat) (i : nat) (samples : list vec)
    (frame_counter : Z) : loop_end :=
  match fuel with
  | O => StillRunning
  | S fuel' =>
      let t := cam i in
      match shot t with
      | None =>
          if quit_key (key t) then Broke samples frame_counter
          else capture_loop cfg keep_every max_frames cam fuel' (S i) samples
                 frame_counter
      | Some faces =>
          match good_crop cfg faces with
          | Some roi100 =>
              let frame_counter' := frame_counter + 1 in
              if keep_every =? 0 then ZeroDivisionError
              else
                let samples' :=
                  if frame_counter' mod keep_every =? 0 then samples ++ [roi100]
                  else samples in
                if quit_key (key t) || (max_frames <=? frame_counter')
                then Broke samples' frame_counter'
                else capture_loop cfg keep_every max_frames cam fuel' (S i) samples'
                       frame_counter'
          | None =>
              if quit_key (key t) || (max_frames <=? frame_counter)
              then Broke samples frame_counter
              else capture_loop cfg keep_every max_frames cam fuel' (S i) samples
                     frame_counter
          end
      end
  end.

(** The machine [capture_profile] runs on. [camera] is [None] when no device
    opens for the purpose "enroll"; [face_dataset] is the listing of the
    directory with the content of each file, [None] when nothing of that
    name exists. *)
Record studio : Type := {
  HAS_CV2 : bool;
  camera : option (nat -> turn);
  cascade_found : bool;
  cascade_loads : bool;
  face_dataset : option (list (string * FaceAuth.npy vec))
}.

(** [np.save] into the directory: a file of that name is replaced, a new one
    is added to the listing. The place of a new file in the listing is the
    file system's choice; it is taken last here. *)
Definition save (fn : string) (X : FaceAuth.npy vec)
    (files : list (string * FaceAuth.npy vec)) : list (string * FaceAuth.npy vec) :=
  if existsb (fun file => String.eqb (fst file) fn) files
  then map (fun file => if String.eqb (fst file) fn then (fn, X) else file) files
  else files ++ [(fn, X)].

(** What a call of [capture_profile] gives: its return value or the error,
    with the dataset it leaves. *)
Inductive outcome : Type :=
| Returned (ok : bool) (dataset : option (list (string * FaceAuth.npy vec)))
| Raised (dataset : option (list (string * FaceAuth.npy vec)))
| Unfinished.

(** [name] is a file name: it holds no path separator. *)
Definition capture_profile (cfg : Config.config) (w : studio) (name : string)
    (keep_every max_frames : Z) (fuel : nat) : outcome :=
  if negb (HAS_CV2 w) then Returned false (face_dataset w)
  else
    match camera w with
    | None => Returned false (face_dataset w)
    | Some cam =>
        if negb (cascade_found w) then Returned false (face_dataset w)
        else if negb (cascade_loads w) then Returned false (face_dataset w)
        else
          let files := default [] (face_dataset w) in
          match capture_loop cfg keep_every max_frames cam fuel 0 [] 0 with
          | StillRunning => Unfinished
          | ZeroDivisionError => Raised (Some files)
          | Broke [] _ => Returned false (Some files)
          | Broke (x :: samples) _ =>
              Returned true
                (Some (save (name ++ ".npy")
                         {| FaceAuth.ndim := 2; FaceAuth.npy_rows := x :: samples |}
                         files))
          end
    end.

End Capture.

End Enroll.

Arguments Enroll.shot {vec} t.
Arguments Enroll.key {vec} t.
Arguments Enroll.area {vec} f.
Arguments Enroll.insert_by_area {vec} x l.
Arguments Enroll.sorted_reverse {vec} faces.
Arguments Enroll.largest {vec} faces.
Arguments Enroll.good_crop {vec} cfg faces.
Arguments Enroll.Broke {vec} samples frame_counter.
Arguments Enroll.ZeroDivisionError {vec}.
Arguments Enroll.StillRunning {vec}.
Arguments Enroll.capture_loop {vec} cfg keep_every max_frames cam fuel i samples frame_counter.
Arguments Enroll.save {vec} fn X files.
Arguments Enroll.Returned {vec} ok dataset.
Arguments Enroll.Raised {vec} dataset.
Arguments Enroll.Unfinished {vec}.
Arguments Enroll.capture_profile {vec} cfg w name keep_every max_frames fuel.

(** ** More string helpers *)

Module Text.

(** [c.isspace()] on one ASCII character. *)
Definition is_space (c : ascii) : bool :=
  let n := nat_of_ascii c in
  ((9 <=? n) && (n <=? 13))%nat || ((28 <=? n) && (n <=? 32))%nat.

Fixpoint lstrip (s : string) : string :=
  match s with
  | EmptyString => EmptyString
  | String c t => if is_space c then lstrip t else s
  end.

Fixpoint rstrip (s : string) : string :=
  match s with
  | EmptyString => EmptyString
  | String c t =>
      match rstrip t with
      | EmptyString => if is_space c then EmptyString else String c EmptyString
      | String c' t' => String c (String c' t')
      end
  end.

(** [s.strip()] *)
Definition strip (s : string) : string := lstrip (rstrip s).

(** [p in s] *)
Fixpoint contains (p s : string) : bool :=
  match s with
  | EmptyString => String.prefix p EmptyString
  | String _ t => String.prefix p s || contains p t
  end.

(** [s.replace(a, b)] for one-character [a] and [b] *)
Fixpoint replace_char (a b : ascii) (s : string) : string :=
  match s with
  | EmptyString => EmptyString
  | String c t => String (if Ascii.eqb c a then b else c) (replace_char a b t)
  end.

(** [s.split()]: the maximal runs of characters that are not white space;
    [cur] is the run being read. *)
Fixpoint split_from (cur s : string) : list string :=
  match s with
  | EmptyString => if String.eqb cur "" then [] else [cur]
  | String c t =>
      if is_space c then
        if String.eqb cur "" then split_from "" t else cur :: split_from "" t
      else split_from (cur ++ String c "") t
  end.

Definition split (s : string) : list string := split_from "" s.

End Text.

(** ** repl.py: listening in voice mode *)

Module Voice.

Local Open Scope string_scope.

Definition exit_phrases : list string :=
  ["exit"; "quit"; "goodbye"; "bye"; "stop"; "pause"].

(** [heard] is what [stt.listen_once()] returns when it is called. The
    result is the text taken as input, if any, and the voice mode after. *)
Definition do_voice_listen (stt_available : bool) (heard : option string)
    (voice_mode_active : bool) : option string * bool :=
  if negb stt_available then (None, voice_mode_active)
  else
    match heard with
    | Some spoken =>
        if negb (truthy heard) then
          if voice_mode_active then (None, true) else (None, voice_mode_active)
        else
          let low_spoken := Text.strip (Str.lower spoken) in
          if voice_mode_active
             && existsb (fun p => Text.contains p low_spoken) exit_phrases
          then (None, false)
          else (Some spoken, voice_mode_active)
    | None =>
        if voice_mode_active then (None, true) else (None, voice_mode_active)
    end.

End Voice.

(** ** calendar_tools.py: day phrases *)

Module CalendarTools.

Local Open Scope string_scope.

(** [dt.weekday()] for a day given by its proleptic Gregorian ordinal, as
    [date.toordinal()] counts it: Monday is 0. *)
Definition weekday (ordinal : Z) : Z := (ordinal + 6) mod 7.

(** A datetime is taken by the ordinal of its day: adding whole days leaves
    the time of day. *)
Definition _next_weekday (dt_local target_wd : Z) : Z :=
  let days_ahead := (target_wd - weekday dt_local) mod 7 in
  dt_local + days_ahead.

(** The ordinal of [datetime.max]. *)
Definition max_ordinal : Z := 3652059.

Definition card_1_19 : gmap string Z :=
  list_to_map
    [("one", 1); ("two", 2); ("three", 3); ("four", 4); ("five", 5); ("six", 6);
     ("seven", 7); ("eight", 8); ("nine", 9); ("ten", 10); ("eleven", 11);
     ("twelve", 12); ("thirteen", 13); ("fourteen", 14); ("fifteen", 15);
     ("sixteen", 16); ("seventeen", 17); ("eighteen", 18); ("nineteen", 19)].

Definition ord_1_19 : gmap string Z :=
  list_to_map
    [("first", 1); ("second", 2); ("third", 3); ("fourth", 4); ("fifth", 5);
     ("sixth", 6); ("seventh", 7); ("eighth", 8); ("ninth", 9); ("tenth", 10);
     ("eleventh", 11); ("twelfth", 12); ("thirteenth", 13); ("fourteenth", 14);
     ("fifteenth", 15); ("sixteenth", 16); ("seventeenth", 17);
     ("eighteenth", 18); ("nineteenth", 19)].

Definition tens_card : gmap string Z := list_to_map [("twenty", 20); ("thirty", 30)].

Definition tens_ord : gmap string Z :=
  list_to_map [("twentieth", 20); ("thirtieth", 30)].

Definition unit_card : gmap string Z :=
  list_to_map
    [("one", 1); ("two", 2); ("three", 3); ("four", 4); ("five", 5); ("six", 6);
     ("seven", 7); ("eight", 8); ("nine", 9)].

Definition unit_ord : gmap string Z :=
  list_to_map
    [("first", 1); ("second", 2); ("third", 3); ("fourth", 4); ("fifth", 5);
     ("sixth", 6); ("seventh", 7); ("eighth", 8); ("ninth", 9)].

(** [s.lower().strip().replace("-", " ")] *)
Definition normalized (s : string) : string :=
  Text.replace_char "-" " " (Text.strip (Str.lower s)).

Definition _wordnum_to_int (s : string) : option Z :=
  let s := normalized s in
  match card_1_19 !! s with
  | Some v => Some v
  | None =>
      match ord_1_19 !! s with
      | Some v => Some v
      | None =>
          match tens_ord !! s with
          | Some v => Some v
          | None =>
              match Text.split s with
              | [p0; p1] =>
                  match tens_card !! p0 with
                  | Some tens =>
                      match unit_card !! p1 with
                      | Some u => Some (tens + u)
                      | None =>
                          match unit_ord !! p1 with
                          | Some u => Some (tens + u)
                          | None => None
                          end
                      end
                  | None => None
                  end
              | _ => None
              end
          end
      end
  end.

End CalendarTools.

(** * Notions used in the statements *)

(** The count [l] records for the value [v]. *)
Fixpoint recorded (v : Z) (l : list (Z * nat)) : nat :=
  match l with
  | [] => 0%nat
  | (y, c) :: t => ((if (v =? y)%Z then c else 0) + recorded v t)%nat
  end.

(** The values are strictly ascending and every recorded count is positive. *)
Inductive ascending : list (Z * nat) -> Prop :=
| ascending_nil : ascending []
| ascending_cons y c t :
    (0 < c)%nat -> Forall (fun e => y < fst e) t -> ascending t ->
    ascending ((y, c) :: t).

(** The order the sort of [_knn] establishes. *)
Definition by_dist (x y : Q * Z) : Prop := (fst x <= fst y)%Q.

(** The [k] nearest rows of the bank, as [_knn] takes them: [dists[:k]]
    after the sort. *)
Definition k_nearest {vec : Type} (_euclid_dist : vec -> vec -> Q)
    (train : list (FaceAuth.row vec)) (test_vec : vec) (k : Z) : list (Q * Z) :=
  Np.slice_to k (FaceAuth.sort_by_dist (FaceAuth.distances _euclid_dist train test_vec)).

(** How often a label occurs among some neighbours, the sum of its distances
    and its smallest distance there. *)
Definition label_count (lbl : Z) (top : list (Q * Z)) : nat :=
  count_occ Z.eq_dec (map snd top) lbl.

Definition label_dist_sum (lbl : Z) (top : list (Q * Z)) : Q :=
  fold_right (fun e acc => if (snd e =? lbl)%Z then (fst e + acc)%Q else acc) 0%Q top.

Definition label_nearest (lbl : Z) (top : list (Q * Z)) : option Q :=
  match filter (fun e => (snd e =? lbl)%Z) (FaceAuth.sort_by_dist top) with
  | [] => None
  | e :: _ => Some (fst e)
  end.

(** A file the loader takes: its name ends in [.npy] and it holds a matrix. *)
Definition usable {vec : Type} (file : string * FaceAuth.npy vec) : bool :=
  Str.endswith ".npy" (fst file) && (FaceAuth.ndim vec (snd file) =? 2)%nat.

(** *** Votes *)

(** The name a detected face votes for, when its classification returns. *)
Definition cast_vote {vec : Type} (_euclid_dist : vec -> vec -> Q)
    (cfg : Config.config) (train : list (FaceAuth.row vec))
    (names : gmap Z string) (k : Z) (f : FaceAuth.face vec) : option string :=
  match FaceAuth.face_vote _euclid_dist cfg train names k f with
  | Return v => v
  | Raise _ => None
  end.

(** The votes of one frame, in the order of its faces, and the votes of the
    [n] frames read from position [start] on. *)
Definition frame_votes {vec : Type} (_euclid_dist : vec -> vec -> Q)
    (cfg : Config.config) (train : list (FaceAuth.row vec))
    (names : gmap Z string) (k : Z) (fr : FaceAuth.frame vec) : list string :=
  match fr with
  | None => []
  | Some faces => omap (cast_vote _euclid_dist cfg train names k) faces
  end.

Definition votes_from {vec : Type} (_euclid_dist : vec -> vec -> Q)
    (cfg : Config.config) (train : list (FaceAuth.row vec))
    (names : gmap Z string) (k : Z) (cam : nat -> FaceAuth.frame vec)
    (start n : nat) : list string :=
  concat (map (fun i => frame_votes _euclid_dist cfg train names k (cam i))
            (seq start n)).

(** The number of votes for [b] in a list of votes. *)
Definition tally (vs : list string) (b : string) : nat :=
  count_occ string_dec vs b.

(** The sum of the counts held in the dictionary [votes]. *)
Definition total_votes (m : gmap string nat) : nat :=
  map_fold (fun _ n acc => (n + acc)%nat) 0%nat m.

(** The dictionary [m] holds the tallies of the votes [seen]. *)
Definition tallied (m : gmap string nat) (seen : list string) : Prop :=
  (forall b, default 0%nat (m !! b) = tally seen b)
  /\ total_votes m = length seen.

(** The number of faces detected in the first [n] frames. *)
Definition faces_seen {vec : Type} (cam : nat -> FaceAuth.frame vec) (n : nat) : nat :=
  list_sum (map (fun i => match cam i with
                          | None => 0%nat
                          | Some faces => length faces
                          end) (seq 0 n)).

(** A bank of one-dimensional vectors for the worked examples: the distance
    of [a] and [b] is the square root of [(a - b)²]. *)
Module Example1D.

Definition dist (a b : Z) : Q := inject_Z (Z.abs (a - b)).

Definition file (name : string) (rows : list Z) : string * FaceAuth.npy Z :=
  (name, {| FaceAuth.ndim := 2; FaceAuth.npy_rows := rows |}).

(** A detected face that passes the size and sharpness tests of the default
    configuration. *)
Definition clear_face (v : Z) : FaceAuth.face Z := {|
  FaceAuth.face_w := 100;
  FaceAuth.face_h := 100;
  FaceAuth.roi_nonempty := true;
  FaceAuth.sharpness := 200;
  FaceAuth.roi100 := v
|}.

Definition machine (files : list (string * FaceAuth.npy Z))
    (cam : nat -> FaceAuth.frame Z) : FaceAuth.world Z := {|
  FaceAuth.HAS_CV2 := true;
  FaceAuth.face_dataset := Some files;
  FaceAuth.camera := Some cam;
  FaceAuth.cascade_found := true;
  FaceAuth.cascade_loads := true
|}.

(** A machine with "Aldridge" enrolled at 0, and two cameras: one sees one
    face of "Aldridge" in every frame, the other two such faces. *)
Definition aldridge_bank : list (string * FaceAuth.npy Z) :=
  [file "Aldridge.npy" [0]].

Definition one_face : nat -> FaceAuth.frame Z :=
  fun _ => Some [clear_face 50].

Definition two_faces : nat -> FaceAuth.frame Z :=
  fun _ => Some [clear_face 50; clear_face 50].

(** A dataset where the only enrolled name is "Guest". *)
Definition guest_bank : list (string * FaceAuth.npy Z) :=
  [file "Guest.npy" [0]].

(** Two enrolled labels, and a camera that shows "A" in its first two frames
    and "B" afterwards. *)
Definition ab_bank : list (string * FaceAuth.npy Z) :=
  [file "A.npy" [0]; file "B.npy" [1000]].

Definition a_then_b : nat -> FaceAuth.frame Z :=
  fun i => if (i <? 2)%nat then Some [clear_face 10] else Some [clear_face 990].

(** Two rows of two labels, the farther one with the smaller class id. *)
Definition tied_bank : list (FaceAuth.row Z) := [(2, 0); (1, 1)].

End Example1D.

(** *** Stored permissions *)

(** The calendar flag written in the entry of [name], if there is one. *)
Definition stored_calendar (name : string) (p : Profiles.profiles) : option bool :=
  r ← Profiles.records p !! name;
  perms ← Profiles.permissions r;
  perms !! "calendar"%string.

(** The permission dictionary of the entry of [name], if there is one. *)
Definition stored_permissions (name : string) (p : Profiles.profiles)
  : option (gmap string bool) :=
  r ← Profiles.records p !! name; Profiles.permissions r.

(** A session for the worked examples: a machine with a camera and no
    microphone, and a store where the entry ["guest"] holds a granted
    calendar flag. *)
Module ExampleSession.

Definition host : Repl.host := {| Repl.has_cv2 := true; Repl.stt_available := false |}.

Definition granting_store : Profiles.profiles := {|
  Profiles.last_identity := None;
  Profiles.records :=
    {[ "guest"%string :=
         {| Profiles.places := Some {[ "home"%string := "1 Main St"%string ]};
            Profiles.tts := None;
            Profiles.permissions := Some {[ "calendar"%string := true ]} |} ]}
|}.

(** The session after a start with no face recognized. *)
Definition locked_start (p : Profiles.profiles) : Repl.session :=
  Repl.start Config.defaults host p (Repl.startup_choice Config.defaults None p).

(** The session after [/login Aldridge] from the locked start. *)
Definition aldridge_session : Repl.session :=
  fst (Repl.step Config.defaults host (locked_start Profiles.no_profiles)
         (Repl.CmdLogin "Aldridge")).

Definition save_home : Repl.command :=
  Repl.CmdOther {| Repl.cal_handled := false;
                   Repl.has_cal_word := false;
                   Repl.shape := Repl.FSetPlace (Some ("home", "1 Main St"))%string |}.

End ExampleSession.

(** *** The layout of the bank *)

(** The name [_load_face_bank] gives to a file: [fn[:-4]]. *)
Definition stem {vec : Type} (file : string * FaceAuth.npy vec) : string :=
  Str.drop_last 4 (fst file).

(** The rows of the files [us], each with the class id of its file, counted
    from [cid] on. *)
Fixpoint bank_rows {vec : Type} (cid : Z) (us : list (string * FaceAuth.npy vec))
  : list (FaceAuth.row vec) :=
  match us with
  | [] => []
  | f :: t =>
      map (fun v => (v, cid)) (FaceAuth.npy_rows vec (snd f)) ++ bank_rows (cid + 1) t
  end.

(** The label columns [np.full((X.shape[0],), cid)] of the files [us]. *)
Fixpoint label_blocks {vec : Type} (cid : Z) (us : list (string * FaceAuth.npy vec))
  : list (list Z) :=
  match us with
  | [] => []
  | f :: t => map (fun _ => cid) (FaceAuth.npy_rows vec (snd f)) :: label_blocks (cid + 1) t
  end.

(** The configuration with [STRICT_AUTH=0]. *)
Definition relaxed : Config.config := {|
  Config.STRICT_AUTH := false;
  Config.AUTO_RECOG_ON_START := true;
  Config.VOICE_MODE_DEFAULT := true;
  Config.FACE_MIN_SIZE := 80;
  Config.FACE_BLUR_THRESH := 100;
  Config.FACE_MAX_BLUR := 600;
  Config.FACE_DIST_THRESH := 2600
|}.

(** A camera setup for the worked examples: only the built-in camera 0
    opens. *)
Module ExampleCamera.

Definition only_builtin (idx : Z) : bool := idx =? 0.

Definition forced_recognition : Camera.knobs := {|
  Camera.CAMERA_INDEX := -1;
  Camera.PREFER_EXTERNAL := true;
  Camera.ENROLL_CAMERA_INDEX := None;
  Camera.RECOG_CAMERA_INDEX := Some (Some 2)
|}.

End ExampleCamera.


(** A detected face that gets through the size, region and sharpness tests
    of [recognize_quick] and is classified. *)
Definition passes_filters {vec : Type} (cfg : Config.config) (f : FaceAuth.face vec)
  : bool :=
  negb ((FaceAuth.face_w vec f <? Config.FACE_MIN_SIZE cfg)
        || (FaceAuth.face_h vec f <? Config.FACE_MIN_SIZE cfg))
  && FaceAuth.roi_nonempty vec f
  && (Qle_bool (Config.FACE_BLUR_THRESH cfg) (FaceAuth.sharpness vec f)
      && Qle_bool (FaceAuth.sharpness vec f) (Config.FACE_MAX_BLUR cfg)).

(** No face of the frame is classified. *)
Definition quiet {vec : Type} (cfg : Config.config) (fr : FaceAuth.frame vec) : Prop :=
  match fr with
  | None => True
  | Some faces => Forall (fun f => passes_filters cfg f = false) faces
  end.

(** How often a label occurs in the bank. *)
Definition bank_count {vec : Type} (train : list (FaceAuth.row vec)) (lbl : Z) : nat :=
  count_occ Z.eq_dec (map snd train) lbl.

(** A machine with a microphone, and the session it starts when the startup
    recognition returns "Aldridge". *)
Module ExampleVoice.

Definition host : Repl.host := {| Repl.has_cv2 := true; Repl.stt_available := true |}.

Definition aldridge_start : Repl.session :=
  Repl.start Config.defaults host Profiles.no_profiles
    (Repl.startup_choice Config.defaults (Some "Aldridge"%string) Profiles.no_profiles).

End ExampleVoice.

(** *** Enrollment *)

(** The crops counted in the first [n] turns of an enrollment, in order. *)
Definition good_crops {vec : Type} (cfg : Config.config)
    (cam : nat -> Enroll.turn vec) (n : nat) : list vec :=
  omap (fun i => match Enroll.shot (cam i) with
                 | None => None
                 | Some faces => Enroll.good_crop cfg faces
                 end) (seq 0 n).

(** Of the crops [l], counted from [start + 1] on, those whose number is a
    multiple of [keep_every]. *)
Fixpoint kept {A : Type} (keep_every start : Z) (l : list A) : list A :=
  match l with
  | [] => []
  | x :: t =>
      if (start + 1) mod keep_every =? 0 then x :: kept keep_every (start + 1) t
      else kept keep_every (start + 1) t
  end.

(** Turn [n] ends the loop: the key is [q], or the frame was read and
    [max_frames] crops have been counted. *)
Definition breaks {vec : Type} (cfg : Config.config) (max_frames : Z)
    (cam : nat -> Enroll.turn vec) (n : nat) : bool :=
  match Enroll.shot (cam n) with
  | None => Enroll.quit_key (Enroll.key (cam n))
  | Some _ =>
      Enroll.quit_key (Enroll.key (cam n))
      || (max_frames <=? Z.of_nat (length (good_crops cfg cam (S n))))
  end.

(** A machine for the enrollment examples: a camera that shows one clear
    face per turn, the crop of turn [i] being [i], and the key [q] in turn
    [quit_at]. *)
Module ExampleEnroll.

Definition counting (quit_at : nat) (i : nat) : Enroll.turn Z := {|
  Enroll.shot := Some [Example1D.clear_face (Z.of_nat i)];
  Enroll.key := if (i =? quit_at)%nat then 113 else -1
|}.

Definition studio (quit_at : nat) (files : option (list (string * FaceAuth.npy Z)))
  : Enroll.studio Z := {|
  Enroll.HAS_CV2 := true;
  Enroll.camera := Some (counting quit_at);
  Enroll.cascade_found := true;
  Enroll.cascade_loads := true;
  Enroll.face_dataset := files
|}.

(** Two faces in one frame: a large blurred one and a smaller clear one. *)
Definition blurred_large : FaceAuth.face Z := {|
  FaceAuth.face_w := 200;
  FaceAuth.face_h := 200;
  FaceAuth.roi_nonempty := true;
  FaceAuth.sharpness := 20;
  FaceAuth.roi100 := 1
|}.

End ExampleEnroll.

(** The frame shows faces, and each of them passes the tests of
    [recognize_quick] and is within [FACE_DIST_THRESH] of one of [samples]. *)
Definition shows {vec : Type} (_euclid_dist : vec -> vec -> Q) (cfg : Config.config)
    (samples : list vec) (fr : FaceAuth.frame vec) : Prop :=
  match fr with
  | None => False
  | Some faces =>
      faces <> []
      /\ Forall (fun f =>
                   passes_filters cfg f = true
                   /\ exists s, In s samples
                        /\ (_euclid_dist (FaceAuth.roi100 vec f) s
                            <= Config.FACE_DIST_THRESH cfg)%Q) faces
  end.

(** *** Words *)

(** No character of [p] is white space. *)
Fixpoint no_space (p : string) : bool :=
  match p with
  | EmptyString => true
  | String c t => negb (Text.is_space c) && no_space t
  end.

(** * Properties *)

(** ** Counting and the first maximum *)

Section NpFacts.

Import Np.

Lemma recorded_bump v x l :
  recorded v (bump x l) = ((if (v =? x)%Z then 1 else 0) + recorded v l)%nat.
Proof.
  induction l as [|[y c] t IH]; simpl.
  - lia.
  - destruct (x <? y) eqn:Hlt; simpl.
    + lia.
    + destruct (x =? y) eqn:Heq; simpl.
      * apply Z.eqb_eq in Heq. subst y. destruct (v =? x); lia.
      * rewrite IH. lia.
Qed.

Lemma recorded_unique_counts v top :
  recorded v (unique_counts top) = count_occ Z.eq_dec top v.
Proof.
  induction top as [|x t IH]; simpl; [reflexivity|].
  rewrite recorded_bump, IH.
  destruct (Z.eq_dec x v) as [->|Hne].
  - rewrite Z.eqb_refl. lia.
  - destruct (v =? x) eqn:E; [apply Z.eqb_eq in E; congruence | lia].
Qed.

Lemma bump_keys x l (P : Z -> Prop) :
  P x -> Forall (fun e => P (fst e)) l -> Forall (fun e => P (fst e)) (bump x l).
Proof.
  intros Hx Hl. induction Hl as [|[y c] t Hy Ht IH]; simpl.
  - repeat constructor. exact Hx.
  - destruct (x <? y); [|destruct (x =? y)]; repeat constructor; auto.
Qed.

Lemma bump_ascending x l : ascending l -> ascending (bump x l).
Proof.
  induction 1 as [|y c t Hc Hall Hasc IH]; simpl.
  - constructor; [lia | constructor | constructor].
  - destruct (x <? y) eqn:Hlt.
    + apply Z.ltb_lt in Hlt. constructor; [lia | | constructor; assumption].
      constructor; [exact Hlt|].
      eapply Forall_impl; [exact Hall|]. simpl. intros; lia.
    + destruct (x =? y) eqn:Heq.
      * constructor; [lia | assumption | assumption].
      * apply Z.ltb_ge in Hlt. apply Z.eqb_neq in Heq.
        constructor; [assumption | | assumption].
        apply (bump_keys x t (fun z => y < z)); [lia | assumption].
Qed.

Lemma unique_counts_ascending top : ascending (unique_counts top).
Proof.
  induction top; simpl; [constructor | apply bump_ascending; assumption].
Qed.

Lemma unique_counts_nonempty top : top <> [] -> unique_counts top <> [].
Proof.
  destruct top as [|x t]; [congruence|]. intros _. simpl.
  destruct (unique_counts t) as [|[y c] u]; simpl; [discriminate|].
  destruct (x <? y); [discriminate|]. destruct (x =? y); discriminate.
Qed.

Lemma recorded_absent v l :
  Forall (fun e => v < fst e) l -> recorded v l = 0%nat.
Proof.
  induction 1 as [|[y c] t Hy Ht IH]; simpl; [reflexivity|].
  simpl in Hy. destruct (v =? y) eqn:E; [apply Z.eqb_eq in E; lia|].
  rewrite IH. reflexivity.
Qed.

(** In an ascending list the entry at a position holds the whole count of
    its value, and later entries hold larger values. *)
Lemma ascending_lookup l i y c :
  ascending l -> l !! i = Some (y, c) ->
  recorded y l = c /\ (0 < c)%nat
  /\ forall j y' c', (i < j)%nat -> l !! j = Some (y', c') -> y < y'.
Proof.
  intros Hasc. revert i.
  induction Hasc as [|y0 c0 t Hc Hall Hasc IH]; intros i Hi; [discriminate|].
  destruct i as [|i]; simpl in Hi.
  - inversion Hi; subst y0 c0. simpl.
    rewrite Z.eqb_refl, (recorded_absent y t Hall).
    split; [lia|]. split; [exact Hc|].
    intros [|j] y' c' Hj Hl; [lia|]. simpl in Hl.
    rewrite Forall_forall in Hall.
    apply (Hall (y', c')). eapply list_elem_of_lookup_2. exact Hl.
  - destruct (IH i Hi) as (Hrec & Hpos & Hlater).
    assert (y0 < y) as Hlt.
    { rewrite Forall_forall in Hall.
      apply (Hall (y, c)). eapply list_elem_of_lookup_2. exact Hi. }
    simpl. destruct (y =? y0) eqn:E; [apply Z.eqb_eq in E; lia|].
    split; [simpl; exact Hrec|]. split; [exact Hpos|].
    intros [|j] y' c' Hj Hl; [lia|]. simpl in Hl.
    apply (Hlater j y' c'); [lia | exact Hl].
Qed.

Lemma recorded_lookup v l :
  (0 < recorded v l)%nat -> exists j c, l !! j = Some (v, c).
Proof.
  induction l as [|[y c] t IH]; simpl; [lia|].
  destruct (v =? y) eqn:E.
  - apply Z.eqb_eq in E. subst y. intros _. exists 0%nat, c. reflexivity.
  - intros H. destruct IH as (j & c' & Hj); [lia|].
    exists (S j), c'. exact Hj.
Qed.

(** [argmax_from] on the tail [l] of [pre ++ l], when [best] at [best_i] is
    the first maximum of [pre]: the result is the first maximum of the whole
    list. *)
Lemma argmax_from_first_max l : forall pre best_i best,
  pre !! best_i = Some best ->
  (forall j c, pre !! j = Some c -> (c <= best)%nat) ->
  (forall j c, (j < best_i)%nat -> pre !! j = Some c -> (c < best)%nat) ->
  exists m,
    (pre ++ l) !! argmax_from best_i best (length pre) l = Some m
    /\ (forall j c, (pre ++ l) !! j = Some c -> (c <= m)%nat)
    /\ (forall j c, (j < argmax_from best_i best (length pre) l)%nat ->
          (pre ++ l) !! j = Some c -> (c < m)%nat).
Proof.
  induction l as [|c t IH]; intros pre best_i best Hbest Hmax Hfirst; simpl.
  - rewrite app_nil_r. exists best. auto.
  - replace (pre ++ c :: t) with ((pre ++ [c]) ++ t)
      by (rewrite <- app_assoc; reflexivity).
    replace (S (length pre)) with (length (pre ++ [c]))
      by (rewrite length_app; simpl; lia).
    destruct (best <? c)%nat eqn:Hlt.
    + apply Nat.ltb_lt in Hlt.
      replace (length pre) with (length (pre ++ [c]) - 1)%nat at 1
        by (rewrite length_app; simpl; lia).
      replace (length (pre ++ [c]) - 1)%nat with (length pre)
        by (rewrite length_app; simpl; lia).
      apply IH.
      * rewrite lookup_app_r by lia. rewrite Nat.sub_diag. reflexivity.
      * intros j c' Hj. apply lookup_app_Some in Hj as [Hj|[_ Hj]].
        -- specialize (Hmax _ _ Hj). lia.
        -- destruct (j - length pre)%nat; simpl in Hj; [|discriminate].
           inversion Hj. lia.
      * intros j c' Hj Hl. rewrite lookup_app_l in Hl by lia.
        specialize (Hmax _ _ Hl). lia.
    + apply Nat.ltb_ge in Hlt.
      assert (best_i < length pre)%nat as Hbi
        by (eapply lookup_lt_Some; exact Hbest).
      apply IH.
      * rewrite lookup_app_l by lia. exact Hbest.
      * intros j c' Hj. apply lookup_app_Some in Hj as [Hj|[_ Hj]].
        -- exact (Hmax _ _ Hj).
        -- destruct (j - length pre)%nat; simpl in Hj; [|discriminate].
           inversion Hj. lia.
      * intros j c' Hj Hl. rewrite lookup_app_l in Hl by lia.
        exact (Hfirst _ _ Hj Hl).
Qed.

Lemma argmax_first_max counts :
  counts <> [] ->
  exists idx m,
    argmax counts = Return idx /\ counts !! idx = Some m
    /\ (forall j c, counts !! j = Some c -> (c <= m)%nat)
    /\ (forall j c, (j < idx)%nat -> counts !! j = Some c -> (c < m)%nat).
Proof.
  destruct counts as [|c t]; [congruence|]. intros _.
  destruct (argmax_from_first_max t [c] 0%nat c) as (m & H1 & H2 & H3).
  - reflexivity.
  - intros [|j] c' Hj; simpl in Hj; [inversion Hj; lia | discriminate].
  - intros; lia.
  - exists (argmax_from 0 c 1 t), m. simpl in *. auto.
Qed.

End NpFacts.

(** ** The classifier *)

Section ClassifierFacts.

Import FaceAuth.

Variable vec : Type.
Variable _euclid_dist : vec -> vec -> Q.

Lemma insert_by_dist_In x y l :
  In y (insert_by_dist x l) <-> y = x \/ In y l.
Proof.
  induction l as [|z t IH]; simpl.
  - intuition congruence.
  - destruct (Qle_bool (fst x) (fst z)); simpl; [intuition congruence|].
    rewrite IH. intuition congruence.
Qed.

Lemma sort_by_dist_In y l : In y (sort_by_dist l) <-> In y l.
Proof.
  induction l as [|x t IH]; simpl; [tauto|].
  rewrite insert_by_dist_In, IH. intuition congruence.
Qed.

Lemma insert_by_dist_sorted x l :
  StronglySorted by_dist l -> StronglySorted by_dist (insert_by_dist x l).
Proof.
  induction 1 as [|z t Hs IH Hz]; simpl.
  - repeat constructor.
  - destruct (Qle_bool (fst x) (fst z)) eqn:Hle.
    + apply Qle_bool_iff in Hle.
      constructor; [constructor; assumption|].
      constructor; [exact Hle|].
      eapply Forall_impl; [exact Hz|].
      unfold by_dist. intros p Hp. eapply Qle_trans; eassumption.
    + constructor; [exact IH|].
      apply Forall_forall. intros p Hp.
      apply list_elem_of_In, insert_by_dist_In in Hp as [->|Hp].
      * unfold by_dist. apply Qlt_le_weak, Qnot_le_lt.
        intros Hc. apply Qle_bool_iff in Hc. congruence.
      * rewrite Forall_forall in Hz. apply Hz, list_elem_of_In, Hp.
Qed.

Lemma sort_by_dist_sorted l : StronglySorted by_dist (sort_by_dist l).
Proof.
  induction l; simpl; [constructor | apply insert_by_dist_sorted; assumption].
Qed.

Lemma insert_by_dist_length x l :
  length (insert_by_dist x l) = S (length l).
Proof.
  induction l as [|z t IH]; simpl; [reflexivity|].
  destruct (Qle_bool (fst x) (fst z)); simpl; [reflexivity | rewrite IH; reflexivity].
Qed.

Lemma sort_by_dist_length l : length (sort_by_dist l) = length l.
Proof.
  induction l; simpl; [reflexivity|].
  rewrite insert_by_dist_length. congruence.
Qed.

(** The sort is stable: rows at the same distance keep their order. *)
Lemma insert_by_dist_stable q x l :
  List.filter (fun e => Qeq_bool (fst e) q) (insert_by_dist x l)
  = List.filter (fun e => Qeq_bool (fst e) q) (x :: l).
Proof.
  induction l as [|z t IH]; [reflexivity|]. simpl insert_by_dist.
  destruct (Qle_bool (fst x) (fst z)) eqn:Hle; [reflexivity|].
  simpl in *. rewrite IH.
  destruct (Qeq_bool (fst x) q) eqn:Hx; destruct (Qeq_bool (fst z) q) eqn:Hz;
    try reflexivity.
  exfalso. apply Qeq_bool_iff in Hx, Hz.
  assert (Qle_bool (fst x) (fst z) = true) as Hc.
  { apply Qle_bool_iff. rewrite Hx, Hz. apply Qle_refl. }
  congruence.
Qed.

Lemma sort_by_dist_stable q l :
  List.filter (fun e => Qeq_bool (fst e) q) (sort_by_dist l)
  = List.filter (fun e => Qeq_bool (fst e) q) l.
Proof.
  induction l as [|x t IH]; [reflexivity|]. simpl sort_by_dist.
  rewrite insert_by_dist_stable. simpl. rewrite IH. reflexivity.
Qed.

(** The head of the sorted list is a nearest row. *)
Lemma sorted_head_nearest train test_vec d0 l0 t :
  sort_by_dist (distances _euclid_dist train test_vec) = (d0, l0) :: t ->
  (exists r, In r train /\ d0 = _euclid_dist test_vec (fst r) /\ l0 = snd r)
  /\ forall r, In r train -> (d0 <= _euclid_dist test_vec (fst r))%Q.
Proof.
  intros Hs. split.
  - assert (In (d0, l0) (distances _euclid_dist train test_vec)) as Hin.
    { apply sort_by_dist_In. rewrite Hs. left. reflexivity. }
    apply in_map_iff in Hin as (r & Hr & Hin). exists r.
    inversion Hr. auto.
  - intros r Hr.
    pose proof (sort_by_dist_sorted (distances _euclid_dist train test_vec)) as Hsorted.
    rewrite Hs in Hsorted. inversion Hsorted as [|? ? _ Hall]; subst.
    assert (In (_euclid_dist test_vec (fst r), snd r)
              (sort_by_dist (distances _euclid_dist train test_vec))) as Hin.
    { apply sort_by_dist_In, in_map_iff. exists r. auto. }
    rewrite Hs in Hin. destruct Hin as [Hin|Hin].
    + inversion Hin. apply Qle_refl.
    + rewrite Forall_forall in Hall.
      apply (Hall _ (proj2 (list_elem_of_In _ _) Hin)).
Qed.

Lemma sorted_nonempty train test_vec :
  train <> [] -> sort_by_dist (distances _euclid_dist train test_vec) <> [].
Proof.
  intros Hne Hs. apply (f_equal (@length _)) in Hs.
  rewrite sort_by_dist_length in Hs. unfold FaceAuth.distances in Hs.
  rewrite length_map in Hs. destruct train; [congruence | discriminate].
Qed.

Lemma slice_to_incl {A : Type} (k : Z) (l : list A) x :
  In x (Np.slice_to k l) -> In x l.
Proof.
  assert (forall n (l' : list A), In x (firstn n l') -> In x l') as Hfirst.
  { induction n as [|n IH]; intros [|y t]; simpl; try tauto.
    intros [->|H]; [left; reflexivity | right; apply IH, H]. }
  unfold Np.slice_to. destruct (k <? 0); apply Hfirst.
Qed.

Lemma slice_to_nonempty {A : Type} (k : Z) (l : list A) :
  1 <= k -> l <> [] -> Np.slice_to k l <> [].
Proof.
  intros Hk Hl. unfold Np.slice_to.
  destruct (k <? 0) eqn:E; [apply Z.ltb_lt in E; lia|].
  destruct l as [|x t]; [congruence|].
  destruct (Z.to_nat k) eqn:Hn; [lia|]. simpl. discriminate.
Qed.

(** The vote returns a label with the largest number of occurrences, and
    among those the smallest one. *)
Lemma majority_spec top :
  top <> [] ->
  exists v,
    majority top = Return v
    /\ (0 < count_occ Z.eq_dec top v)%nat
    /\ (forall v', (count_occ Z.eq_dec top v' <= count_occ Z.eq_dec top v)%nat)
    /\ (forall v', count_occ Z.eq_dec top v' = count_occ Z.eq_dec top v -> v <= v').
Proof.
  intros Hne. unfold majority.
  pose proof (unique_counts_nonempty top Hne) as Huc.
  pose proof (unique_counts_ascending top) as Hasc.
  set (uc := Np.unique_counts top) in *.
  destruct (argmax_first_max (map snd uc)) as (idx & m & Harg & Hidx & Hmax & Hfirst).
  { destruct uc; [congruence | discriminate]. }
  rewrite Harg. simpl.
  change (map snd uc) with (snd <$> uc) in *.
  change (map fst uc) with (fst <$> uc).
  rewrite list_lookup_fmap in Hidx.
  destruct (uc !! idx) as [[y c]|] eqn:Hy; [|discriminate].
  simpl in Hidx. inversion Hidx; subst c.
  assert (nth idx (fst <$> uc) 0 = y) as Hnth.
  { rewrite nth_lookup, list_lookup_fmap, Hy. reflexivity. }
  rewrite Hnth. exists y. split; [reflexivity|].
  destruct (ascending_lookup uc idx y m Hasc Hy) as (Hrec & Hpos & Hlater).
  unfold uc in Hrec. rewrite recorded_unique_counts in Hrec.
  assert (forall v', (0 < count_occ Z.eq_dec top v')%nat ->
            exists j, uc !! j = Some (v', count_occ Z.eq_dec top v')) as Hfind.
  { intros v' Hv'. rewrite <- recorded_unique_counts in Hv'.
    destruct (recorded_lookup v' _ Hv') as (j & c' & Hj).
    destruct (ascending_lookup _ j v' c' Hasc Hj) as (Hrec' & _ & _).
    unfold uc in Hrec'. rewrite recorded_unique_counts in Hrec'. exists j. rewrite Hrec'. exact Hj. }
  split; [lia|]. split.
  - intros v'. destruct (Nat.eq_dec (count_occ Z.eq_dec top v') 0%nat) as [E|E]; [lia|].
    destruct (Hfind v') as (j & Hj); [lia|].
    rewrite Hrec. apply (Hmax j). rewrite list_lookup_fmap, Hj. reflexivity.
  - intros v' Heq. destruct (Hfind v') as (j & Hj); [lia|].
    destruct (Nat.lt_trichotomy j idx) as [Hlt|[->|Hgt]].
    + specialize (Hfirst j (count_occ Z.eq_dec top v') Hlt).
      rewrite list_lookup_fmap, Hj in Hfirst. specialize (Hfirst eq_refl). lia.
    + rewrite Hy in Hj. inversion Hj. lia.
    + specialize (Hlater j v' _ Hgt Hj). lia.
Qed.

Lemma knn_head train test_vec :
  train <> [] ->
  exists d0 l0 t,
    sort_by_dist (distances _euclid_dist train test_vec) = (d0, l0) :: t.
Proof.
  intros Hne. pose proof (sorted_nonempty train test_vec Hne) as H.
  destruct (sort_by_dist (distances _euclid_dist train test_vec)) as [|[d0 l0] t];
    [congruence | eauto].
Qed.

(** The head distance is the distance to any nearest row. *)
(** A bank with rows has a nearest row for every sample. *)
Lemma nearest_exists (train : list (FaceAuth.row vec)) test_vec :
  train <> [] ->
  exists r : FaceAuth.row vec, In r train
    /\ forall r' : FaceAuth.row vec, In r' train ->
         (_euclid_dist test_vec (fst r) <= _euclid_dist test_vec (fst r'))%Q.
Proof.
  intros Hne. destruct (knn_head train test_vec Hne) as (d0 & l0 & t & Hs).
  destruct (sorted_head_nearest train test_vec d0 l0 t Hs) as ((r & Hr & Hd & _) & Hle).
  exists r. split; [exact Hr|]. intros r' Hr'. rewrite <- Hd. apply Hle, Hr'.
Qed.

Lemma knn_head_is_nearest train test_vec d0 l0 t r :
  sort_by_dist (distances _euclid_dist train test_vec) = (d0, l0) :: t ->
  In r train ->
  (forall r', In r' train ->
     (_euclid_dist test_vec (fst r) <= _euclid_dist test_vec (fst r'))%Q) ->
  (d0 == _euclid_dist test_vec (fst r))%Q.
Proof.
  intros Hs Hr Hmin.
  destruct (sorted_head_nearest train test_vec d0 l0 t Hs) as ((r0 & Hr0 & Hd & _) & Hle).
  apply Qle_antisym; [apply Hle, Hr | rewrite Hd; apply Hmin, Hr0].
Qed.

Lemma knn_far train test_vec k threshold r :
  In r train ->
  (forall r', In r' train ->
     (_euclid_dist test_vec (fst r) <= _euclid_dist test_vec (fst r'))%Q) ->
  (threshold < _euclid_dist test_vec (fst r))%Q ->
  _knn _euclid_dist train test_vec k threshold = Return (-1).
Proof.
  intros Hr Hmin Hfar.
  destruct (knn_head train test_vec) as (d0 & l0 & t & Hs).
  { intros ->. destruct Hr. }
  unfold FaceAuth._knn. rewrite Hs.
  pose proof (knn_head_is_nearest _ _ _ _ _ r Hs Hr Hmin) as Hd.
  destruct (Qle_bool d0 threshold) eqn:Hle; [|reflexivity].
  apply Qle_bool_iff in Hle. rewrite Hd in Hle.
  exfalso. exact (Qlt_not_le _ _ Hfar Hle).
Qed.

Lemma knn_near train test_vec k threshold r :
  In r train ->
  (forall r', In r' train ->
     (_euclid_dist test_vec (fst r) <= _euclid_dist test_vec (fst r'))%Q) ->
  (_euclid_dist test_vec (fst r) <= threshold)%Q ->
  _knn _euclid_dist train test_vec k threshold
  = majority (map snd (k_nearest _euclid_dist train test_vec k)).
Proof.
  intros Hr Hmin Hnear.
  destruct (knn_head train test_vec) as (d0 & l0 & t & Hs).
  { intros ->. destruct Hr. }
  unfold FaceAuth._knn, k_nearest. rewrite Hs.
  pose proof (knn_head_is_nearest _ _ _ _ _ r Hs Hr Hmin) as Hd.
  destruct (Qle_bool d0 threshold) eqn:Hle; [reflexivity|].
  assert (Qle_bool d0 threshold = true) as Hc
    by (apply Qle_bool_iff; rewrite Hd; exact Hnear).
  congruence.
Qed.

Lemma k_nearest_nonempty train test_vec k :
  train <> [] -> 1 <= k -> map snd (k_nearest _euclid_dist train test_vec k) <> [].
Proof.
  intros Hne Hk Hnil. apply map_eq_nil in Hnil. revert Hnil.
  apply slice_to_nonempty; [exact Hk | apply sorted_nonempty, Hne].
Qed.

Lemma k_nearest_from_bank train test_vec k lbl :
  (0 < label_count lbl (k_nearest _euclid_dist train test_vec k))%nat ->
  exists r, In r train /\ snd r = lbl.
Proof.
  unfold label_count. intros H.
  apply (count_occ_In Z.eq_dec) in H.
  apply in_map_iff in H as ([d l] & Hl & Hin). simpl in Hl. subst l.
  apply slice_to_incl, sort_by_dist_In, in_map_iff in Hin as (r & Hr & Hin).
  exists r. inversion Hr. auto.
Qed.

(** The rejection test does not depend on the threshold otherwise: lowering
    the threshold can only turn an answer into a rejection. *)
Lemma knn_lower_threshold train test_vec k T T' :
  (T' < T)%Q ->
  _knn _euclid_dist train test_vec k T' = Return (-1)
  \/ _knn _euclid_dist train test_vec k T' = _knn _euclid_dist train test_vec k T.
Proof.
  intros Hlt. unfold FaceAuth._knn.
  destruct (sort_by_dist (distances _euclid_dist train test_vec)) as [|[d0 l0] t];
    [right; reflexivity|].
  destruct (Qle_bool d0 T') eqn:H'; simpl; [|left; reflexivity].
  assert (Qle_bool d0 T = true) as ->.
  { apply Qle_bool_iff. apply Qle_bool_iff in H'.
    apply Qlt_le_weak. eapply Qle_lt_trans; eassumption. }
  right. reflexivity.
Qed.

End ClassifierFacts.

(** ** Rejection and vote of the classifier *)

(** C5. For a non-empty bank, when the distance from the sample to a nearest
    row of the bank exceeds the threshold, [_knn] returns the rejection value
    [-1] (and the crop gives no name), whatever the other neighbours are;
    when that distance is within the threshold, and [k] is at least 1, [_knn]
    returns a label of the bank. In particular a bank holding one vector of
    "Aldridge" gives "Aldridge" at distance 50 and no name at distance 5000,
    with threshold 2600 and [k = 1]. *)
Theorem knn_rejects_on_nearest_distance :
  forall (vec : Type) (_euclid_dist : vec -> vec -> Q),
    (forall (train : list (FaceAuth.row vec)) (names : gmap Z string)
            (test_vec : vec) (k : Z) (threshold : Q) (r : FaceAuth.row vec),
        In r train ->
        (forall r', In r' train ->
           (_euclid_dist test_vec (fst r) <= _euclid_dist test_vec (fst r'))%Q) ->
        ((threshold < _euclid_dist test_vec (fst r))%Q ->
           FaceAuth._knn _euclid_dist train test_vec k threshold = Return (-1)
           /\ FaceAuth.classify _euclid_dist train names test_vec k threshold
              = Return None)
        /\ ((_euclid_dist test_vec (fst r) <= threshold)%Q -> 1 <= k ->
              exists lbl,
                FaceAuth._knn _euclid_dist train test_vec k threshold = Return lbl
                /\ exists r', In r' train /\ snd r' = lbl))
    /\ (forall (v0 x : vec),
          match FaceAuth._load_face_bank true
                  (Some [("Aldridge.npy"%string,
                          {| FaceAuth.ndim := 2; FaceAuth.npy_rows := [v0] |})]) with
          | Some (train, names) =>
              ((_euclid_dist x v0 == 50)%Q ->
                 FaceAuth.classify _euclid_dist train names x 1 2600
                 = Return (Some "Aldridge"%string))
              /\ ((_euclid_dist x v0 == 5000)%Q ->
                    FaceAuth.classify _euclid_dist train names x 1 2600
                    = Return None)
          | None => False
          end).
Proof.
  intros vec _euclid_dist. split.
  - intros train names test_vec k threshold r Hr Hmin. split.
    + intros Hfar.
      pose proof (knn_far vec _euclid_dist train test_vec k threshold r Hr Hmin Hfar) as Hk.
      split; [exact Hk|]. unfold FaceAuth.classify. rewrite Hk. reflexivity.
    + intros Hnear Hk.
      rewrite (knn_near vec _euclid_dist train test_vec k threshold r Hr Hmin Hnear).
      destruct (majority_spec (map snd (k_nearest _euclid_dist train test_vec k)))
        as (v & Hv & Hpos & _).
      { apply k_nearest_nonempty; [intros ->; destruct Hr | exact Hk]. }
      exists v. split; [exact Hv|].
      apply (k_nearest_from_bank vec _euclid_dist train test_vec k v Hpos).
  - intros v0 x. cbn.
    split; intros Hd.
    + assert (Qle_bool (_euclid_dist x v0) 2600 = true) as ->
        by (apply Qle_bool_iff; rewrite Hd; discriminate).
      reflexivity.
    + assert (Qle_bool (_euclid_dist x v0) 2600 = false) as ->.
      { destruct (Qle_bool (_euclid_dist x v0) 2600) eqn:E; [|reflexivity].
        apply Qle_bool_iff in E. rewrite Hd in E. exfalso. apply E. reflexivity. }
      reflexivity.
Qed.

(** C9. Rejection is monotone in the threshold: a sample rejected at [T] is
    rejected at every smaller [T'], by [_knn] (value [-1]) and by the
    classification of a crop (no name). *)
Theorem knn_rejection_monotone :
  forall (vec : Type) (_euclid_dist : vec -> vec -> Q)
         (train : list (FaceAuth.row vec)) (names : gmap Z string)
         (X : vec) (k : Z) (T T' : Q),
    (T' < T)%Q ->
    (FaceAuth._knn _euclid_dist train X k T = Return (-1) ->
     FaceAuth._knn _euclid_dist train X k T' = Return (-1))
    /\ (FaceAuth.classify _euclid_dist train names X k T = Return None ->
        FaceAuth.classify _euclid_dist train names X k T' = Return None).
Proof.
  intros vec _euclid_dist train names X k T T' Hlt.
  destruct (knn_lower_threshold vec _euclid_dist train X k T T' Hlt) as [H|H].
  - split; intros _; [exact H|]. unfold FaceAuth.classify. rewrite H. reflexivity.
  - split; intros HT.
    + rewrite H. exact HT.
    + unfold FaceAuth.classify in *. rewrite H. exact HT.
Qed.

(** C7, as the code has it. For a sample that is not rejected, [_knn]
    returns a label that is most frequent among the [k] nearest rows, and
    among the most frequent labels the one with the smallest class id; the
    distances play no part in the tie. *)
Theorem knn_majority_smallest_label :
  forall (vec : Type) (_euclid_dist : vec -> vec -> Q)
         (train : list (FaceAuth.row vec)) (test_vec : vec) (k : Z)
         (threshold : Q) (r : FaceAuth.row vec),
    In r train ->
    (forall r', In r' train ->
       (_euclid_dist test_vec (fst r) <= _euclid_dist test_vec (fst r'))%Q) ->
    (_euclid_dist test_vec (fst r) <= threshold)%Q ->
    1 <= k ->
    exists lbl,
      FaceAuth._knn _euclid_dist train test_vec k threshold = Return lbl
      /\ (0 < label_count lbl (k_nearest _euclid_dist train test_vec k))%nat
      /\ (forall l',
            (label_count l' (k_nearest _euclid_dist train test_vec k)
             <= label_count lbl (k_nearest _euclid_dist train test_vec k))%nat)
      /\ (forall l',
            label_count l' (k_nearest _euclid_dist train test_vec k)
            = label_count lbl (k_nearest _euclid_dist train test_vec k) ->
            lbl <= l').
Proof.
  intros vec _euclid_dist train test_vec k threshold r Hr Hmin Hnear Hk.
  rewrite (knn_near vec _euclid_dist train test_vec k threshold r Hr Hmin Hnear).
  destruct (majority_spec (map snd (k_nearest _euclid_dist train test_vec k)))
    as (v & Hv & Hpos & Hmax & Htie).
  { apply k_nearest_nonempty; [intros ->; destruct Hr | exact Hk]. }
  exists v. unfold label_count. auto.
Qed.

(** C7, as stated, fails: with [k = 2] and the rows at distance 1 (label 1)
    and distance 2 (label 0), both labels occur once; label 1 has the smaller
    summed distance and the smaller nearest distance, and [_knn] returns
    label 0. *)
Lemma knn_tie_ignores_distance :
  let train := Example1D.tied_bank in
  let top := k_nearest Example1D.dist train 0 2 in
  label_count 0 top = label_count 1 top
  /\ (label_dist_sum 1 top < label_dist_sum 0 top)%Q
  /\ label_nearest 1 top = Some 1%Q
  /\ label_nearest 0 top = Some 2%Q
  /\ FaceAuth._knn Example1D.dist train 0 2 2600 = Return 0.
Proof.
  vm_compute. repeat split; reflexivity.
Qed.

Lemma knn_rejects_on_nearest_distance_witness :
  In (0, 0) [(0, 0)]
  /\ (2600 < Example1D.dist 5000 0)%Q
  /\ FaceAuth._knn Example1D.dist [(0, 0)] 5000 1 2600 = Return (-1)
  /\ (Example1D.dist 50 0 <= 2600)%Q
  /\ (exists lbl,
        FaceAuth._knn Example1D.dist [(0, 0)] 50 1 2600 = Return lbl
        /\ exists r', In r' [(0, 0)] /\ snd r' = lbl)
  /\ (Example1D.dist 50 0 == 50)%Q
  /\ FaceAuth.classify Example1D.dist [(0, 0)] (<[0 := "Aldridge"%string]> ∅)
       50 1 2600 = Return (Some "Aldridge"%string)
  /\ (Example1D.dist 5000 0 == 5000)%Q
  /\ FaceAuth.classify Example1D.dist [(0, 0)] (<[0 := "Aldridge"%string]> ∅)
       5000 1 2600 = Return None.
Proof.
  destruct (knn_rejects_on_nearest_distance Z Example1D.dist) as [Hgen Hscen].
  assert (forall x r', In r' [(0, 0)] ->
            (Example1D.dist x 0 <= Example1D.dist x (fst r'))%Q) as Hmin.
  { intros x r' H. simpl in H. destruct H as [<-|[]]. apply Qle_refl. }
  split; [left; reflexivity|].
  split; [reflexivity|].
  split.
  { apply (Hgen [(0, 0)] ∅ 5000 1 2600%Q (0, 0));
      [left; reflexivity | apply Hmin | reflexivity]. }
  split; [discriminate|].
  split.
  { apply (Hgen [(0, 0)] ∅ 50 1 2600%Q (0, 0));
      [left; reflexivity | apply Hmin | discriminate | lia]. }
  split; [reflexivity|].
  split.
  { apply (proj1 (Hscen 0 50)). reflexivity. }
  split; [reflexivity|].
  apply (proj2 (Hscen 0 5000)). reflexivity.
Defined.

Lemma knn_rejection_monotone_witness :
  (100 < 2600)%Q
  /\ FaceAuth._knn Example1D.dist [(0, 0)] 5000 1 2600 = Return (-1)
  /\ FaceAuth._knn Example1D.dist [(0, 0)] 5000 1 100 = Return (-1)
  /\ FaceAuth.classify Example1D.dist [(0, 0)] (<[0 := "Aldridge"%string]> ∅)
       5000 1 100 = Return None.
Proof.
  destruct (knn_rejection_monotone Z Example1D.dist [(0, 0)]
              (<[0 := "Aldridge"%string]> ∅) 5000 1 2600 100) as [Hknn Hcls];
    [reflexivity|].
  split; [reflexivity|].
  split; [reflexivity|].
  split; [apply Hknn | apply Hcls]; reflexivity.
Defined.

Lemma knn_majority_smallest_label_witness :
  In (1, 1) Example1D.tied_bank
  /\ (Example1D.dist 0 1 <= 2600)%Q
  /\ 1 <= 2
  /\ exists lbl,
       FaceAuth._knn Example1D.dist Example1D.tied_bank 0 2 2600 = Return lbl
       /\ (0 < label_count lbl (k_nearest Example1D.dist Example1D.tied_bank 0%Z 2%Z))%nat
       /\ (forall l',
             (label_count l' (k_nearest Example1D.dist Example1D.tied_bank 0%Z 2%Z)
              <= label_count lbl (k_nearest Example1D.dist Example1D.tied_bank 0%Z 2%Z))%nat)
       /\ (forall l',
             label_count l' (k_nearest Example1D.dist Example1D.tied_bank 0%Z 2%Z)
             = label_count lbl (k_nearest Example1D.dist Example1D.tied_bank 0%Z 2%Z) ->
             lbl <= l').
Proof.
  split; [right; left; reflexivity|].
  split; [discriminate|].
  split; [lia|].
  apply (knn_majority_smallest_label Z Example1D.dist Example1D.tied_bank 0 2 2600 (1, 1)).
  - right; left; reflexivity.
  - intros r' H. simpl in H. destruct H as [<-|[<-|[]]]; discriminate.
  - discriminate.
  - lia.
Defined.

(** ** An empty bank *)

Section BankFacts.

Variable vec : Type.
Variable _euclid_dist : vec -> vec -> Q.

Lemma scan_file_unusable st file :
  usable file = false -> FaceAuth.scan_file vec st file = st.
Proof.
  destruct file as [fn X]. unfold usable, FaceAuth.scan_file. simpl.
  destruct (Str.endswith ".npy" fn); [|reflexivity].
  simpl. intros ->. reflexivity.
Qed.

Lemma scan_unusable files : forall st,
  Forall (fun file => usable file = false) files ->
  fold_left (FaceAuth.scan_file vec) files st = st.
Proof.
  induction files as [|file t IH]; intros st Hall; [reflexivity|].
  inversion Hall; subst. simpl.
  rewrite scan_file_unusable by assumption. apply IH. assumption.
Qed.

(** On a bank without rows [_knn] computes no distance and indexes the empty
    list [dists]. *)
Lemma knn_empty_bank test_vec k threshold :
  FaceAuth.distances _euclid_dist [] test_vec = []
  /\ FaceAuth._knn _euclid_dist [] test_vec k threshold = Raise IndexError.
Proof. split; reflexivity. Qed.

End BankFacts.

(** C6, as the code has it. When the dataset holds no usable file (or there
    is no dataset), the loader returns no bank and [recognize_quick] returns
    [None] before its loop: no camera frame is read and nothing is
    classified. The caller gets the value of a failed match, not an error. *)
Theorem no_enrollment_returns_none :
  forall (vec : Type) (_euclid_dist : vec -> vec -> Q) (cfg : Config.config)
         (w : FaceAuth.world vec) (timeout_frames need_votes : nat) (k : Z),
    (forall files, FaceAuth.face_dataset vec w = Some files ->
       Forall (fun file => usable file = false) files) ->
    FaceAuth._load_face_bank (FaceAuth.HAS_CV2 vec w) (FaceAuth.face_dataset vec w) = None
    /\ FaceAuth.recognize_attempt _euclid_dist cfg w timeout_frames need_votes k = None
    /\ FaceAuth.recognize_quick _euclid_dist cfg w timeout_frames need_votes k
       = Return None.
Proof.
  intros vec _euclid_dist cfg w timeout_frames need_votes k Hfiles.
  assert (FaceAuth._load_face_bank (FaceAuth.HAS_CV2 vec w)
            (FaceAuth.face_dataset vec w) = None) as Hload.
  { unfold FaceAuth._load_face_bank.
    destruct (FaceAuth.face_dataset vec w) as [files|]; [|reflexivity].
    destruct (FaceAuth.HAS_CV2 vec w); [|reflexivity].
    rewrite scan_unusable by (apply Hfiles; reflexivity). reflexivity. }
  assert (FaceAuth.recognize_attempt _euclid_dist cfg w timeout_frames need_votes k
          = None) as Hattempt.
  { unfold FaceAuth.recognize_attempt, FaceAuth.recognize_setup.
    rewrite Hload. destruct (FaceAuth.HAS_CV2 vec w); reflexivity. }
  split; [exact Hload|]. split; [exact Hattempt|].
  unfold FaceAuth.recognize_quick. rewrite Hattempt. reflexivity.
Qed.

Lemma no_enrollment_returns_none_witness :
  (forall files,
     FaceAuth.face_dataset Z
       (Example1D.machine [] (fun _ => Some [Example1D.clear_face 0])) = Some files ->
     Forall (fun file => usable file = false) files)
  /\ FaceAuth.recognize_quick Example1D.dist Config.defaults
       (Example1D.machine [] (fun _ => Some [Example1D.clear_face 0])) 250 5 5
     = Return None.
Proof.
  assert (forall files,
            FaceAuth.face_dataset Z
              (Example1D.machine [] (fun _ => Some [Example1D.clear_face 0]))
            = Some files ->
            Forall (fun file => usable file = false) files) as Hfiles.
  { intros files Hf. inversion Hf. constructor. }
  split; [exact Hfiles|].
  apply (no_enrollment_returns_none Z Example1D.dist Config.defaults _ 250 5 5 Hfiles).
Defined.

(** C6, as stated, fails: with an empty dataset the recognition attempt
    returns [None] and raises no error, the same answer as an attempt that
    runs out of frames with a face enrolled. *)
Lemma empty_bank_raises_no_error :
  FaceAuth._load_face_bank (vec := Z) true (Some []) = None
  /\ FaceAuth.recognize_quick Example1D.dist Config.defaults
       (Example1D.machine [] (fun _ => Some [Example1D.clear_face 0])) 250 5 5
     = Return None
  /\ ~ (exists e,
          FaceAuth.recognize_quick Example1D.dist Config.defaults
            (Example1D.machine [] (fun _ => Some [Example1D.clear_face 0])) 250 5 5
          = Raise e)
  /\ FaceAuth.recognize_quick Example1D.dist Config.defaults
       (Example1D.machine [Example1D.file "Aldridge.npy" [0]] (fun _ => None))
       250 5 5
     = Return None.
Proof.
  split; [reflexivity|]. split; [reflexivity|]. split.
  - intros [e He]. vm_compute in He. discriminate.
  - vm_compute. reflexivity.
Qed.

(** ** The voting loop *)

Section TallyFacts.

Lemma tally_app vs ws b : tally (vs ++ ws) b = (tally vs b + tally ws b)%nat.
Proof. apply count_occ_app. Qed.

Lemma tally_one a b : tally [a] b = if String.eqb a b then 1%nat else 0%nat.
Proof.
  unfold tally. simpl. destruct (string_dec a b) as [->|Hne].
  - rewrite String.eqb_refl. reflexivity.
  - apply String.eqb_neq in Hne. rewrite Hne. reflexivity.
Qed.

Lemma tally_cons a vs b :
  tally (a :: vs) b = ((if String.eqb a b then 1 else 0) + tally vs b)%nat.
Proof. change (a :: vs) with ([a] ++ vs). rewrite tally_app, tally_one. reflexivity. Qed.

Lemma total_votes_add_vote (m : gmap string nat) a :
  total_votes (FaceAuth.add_vote m a) = S (total_votes m).
Proof.
  unfold total_votes, FaceAuth.add_vote.
  destruct (m !! a) as [n|] eqn:Hm; simpl.
  - rewrite <- (insert_delete_eq m a).
    rewrite map_fold_insert_L.
    + rewrite (map_fold_delete_L _ _ a n m); [lia | intros; lia | exact Hm].
    + intros; lia.
    + apply lookup_delete_eq.
  - rewrite map_fold_insert_L; [lia | intros; lia | exact Hm].
Qed.

Lemma tallied_empty : tallied ∅ [].
Proof.
  split; [intros b; rewrite lookup_empty; reflexivity|].
  unfold total_votes. rewrite map_fold_empty. reflexivity.
Qed.

Lemma tallied_add_vote m seen a :
  tallied m seen -> tallied (FaceAuth.add_vote m a) (seen ++ [a]).
Proof.
  intros [Hm Ht]. split.
  - intros b. rewrite tally_app, tally_one. unfold FaceAuth.add_vote.
    destruct (String.eqb a b) eqn:E.
    + apply String.eqb_eq in E. subst b.
      rewrite lookup_insert_eq. simpl. rewrite <- Hm. lia.
    + apply String.eqb_neq in E.
      rewrite lookup_insert_ne by exact E. rewrite Hm. lia.
  - rewrite total_votes_add_vote, Ht, length_app. simpl. lia.
Qed.

(** Two places where a tally first reaches [need] in one list of votes are
    the same place. *)
Lemma first_reach_unique need (pre pre' post post' : list string) x x' :
  pre ++ x :: post = pre' ++ x' :: post' ->
  (forall b, (tally pre b < need)%nat) -> (need <= S (tally pre x))%nat ->
  (forall b, (tally pre' b < need)%nat) -> (need <= S (tally pre' x'))%nat ->
  pre = pre' /\ x = x'.
Proof.
  intros Heq Hpre Hx Hpre' Hx'.
  apply app_eq_app in Heq as (l & [[Hp Hl]|[Hp Hl]]).
  - destruct l as [|y l].
    + rewrite app_nil_r in Hp. simpl in Hl. inversion Hl. auto.
    + simpl in Hl. inversion Hl; subst y.
      specialize (Hpre x'). rewrite Hp, tally_app, tally_cons, String.eqb_refl in Hpre.
      lia.
  - destruct l as [|y l].
    + rewrite app_nil_r in Hp. simpl in Hl. inversion Hl. auto.
    + simpl in Hl. inversion Hl; subst y.
      specialize (Hpre' x). rewrite Hp, tally_app, tally_cons, String.eqb_refl in Hpre'.
      lia.
Qed.

End TallyFacts.

Section LoopFacts.

Variable vec : Type.
Variable _euclid_dist : vec -> vec -> Q.
Variable cfg : Config.config.
Variable train : list (FaceAuth.row vec).
Variable names : gmap Z string.
Variable need : nat.
Variable k : Z.

Hypothesis Htrain : train <> [].
Hypothesis Hk : 1 <= k.

(** With a bank that has rows and [k >= 1] the classifier always returns. *)
Lemma knn_total test_vec threshold :
  exists lbl, FaceAuth._knn _euclid_dist train test_vec k threshold = Return lbl.
Proof.
  destruct (knn_head vec _euclid_dist train test_vec Htrain) as (d0 & l0 & t & Hs).
  unfold FaceAuth._knn. rewrite Hs.
  destruct (negb (Qle_bool d0 threshold)); [eauto|].
  destruct (majority_spec (map snd (Np.slice_to k ((d0, l0) :: t)))) as (v & Hv & _).
  - intros Hnil. apply map_eq_nil in Hnil. revert Hnil.
    apply slice_to_nonempty; [exact Hk | discriminate].
  - eauto.
Qed.

Lemma face_vote_cast f :
  FaceAuth.face_vote _euclid_dist cfg train names k f
  = Return (cast_vote _euclid_dist cfg train names k f).
Proof.
  unfold cast_vote.
  destruct (FaceAuth.face_vote _euclid_dist cfg train names k f) as [v|e] eqn:Hv;
    [reflexivity|].
  exfalso. unfold FaceAuth.face_vote, FaceAuth.classify in Hv.
  destruct (knn_total (FaceAuth.roi100 vec f) (Config.FACE_DIST_THRESH cfg))
    as (lbl & Hl).
  rewrite Hl in Hv. cbn in Hv.
  repeat match type of Hv with
         | (if ?c then _ else _) = _ => destruct c
         end; discriminate.
Qed.

Lemma frame_votes_cons f rest :
  frame_votes _euclid_dist cfg train names k (Some (f :: rest))
  = match cast_vote _euclid_dist cfg train names k f with
    | Some a => a :: frame_votes _euclid_dist cfg train names k (Some rest)
    | None => frame_votes _euclid_dist cfg train names k (Some rest)
    end.
Proof. reflexivity. Qed.

Lemma faces_loop_spec faces : forall m seen,
  tallied m seen ->
  (forall b, (tally seen b < need)%nat) ->
  exists m' r,
    FaceAuth.faces_loop _euclid_dist cfg train names need k m faces = Return (m', r)
    /\ match r with
       | Some x =>
           exists pre post,
             frame_votes _euclid_dist cfg train names k (Some faces) = pre ++ x :: post
             /\ (forall b, (tally (seen ++ pre) b < need)%nat)
             /\ (need <= S (tally (seen ++ pre) x))%nat
             /\ tallied m' (seen ++ pre ++ [x])
       | None =>
           tallied m' (seen ++ frame_votes _euclid_dist cfg train names k (Some faces))
           /\ forall b,
                (tally (seen ++ frame_votes _euclid_dist cfg train names k (Some faces)) b
                 < need)%nat
       end.
Proof.
  induction faces as [|f rest IH]; intros m seen Hm Hseen.
  - exists m, None. simpl. rewrite app_nil_r. auto.
  - simpl FaceAuth.faces_loop. rewrite face_vote_cast. cbn [mbind result_bind].
    rewrite frame_votes_cons.
    destruct (cast_vote _euclid_dist cfg train names k f) as [a|] eqn:Hcast.
    + pose proof (tallied_add_vote m seen a Hm) as Hm'.
      destruct (need <=? default 0%nat (FaceAuth.add_vote m a !! a))%nat eqn:Hreach.
      * exists (FaceAuth.add_vote m a), (Some a). split; [reflexivity|].
        exists [], (frame_votes _euclid_dist cfg train names k (Some rest)).
        split; [reflexivity|]. rewrite app_nil_r. split; [exact Hseen|].
        split; [|exact Hm'].
        apply Nat.leb_le in Hreach. rewrite (proj1 Hm') in Hreach.
        rewrite tally_app, tally_one, String.eqb_refl in Hreach. lia.
      * apply Nat.leb_gt in Hreach. rewrite (proj1 Hm') in Hreach.
        rewrite tally_app, tally_one, String.eqb_refl in Hreach.
        destruct (IH (FaceAuth.add_vote m a) (seen ++ [a]) Hm') as (m' & r & Hloop & Hr).
        { intros b. rewrite tally_app, tally_one.
          destruct (String.eqb a b) eqn:E.
          - apply String.eqb_eq in E. subst b. lia.
          - specialize (Hseen b). lia. }
        exists m', r. split; [exact Hloop|].
        destruct r as [x|].
        -- destruct Hr as (pre & post & Hfv & Hlt & Hge & Ht).
           exists (a :: pre), post. rewrite Hfv.
           split; [reflexivity|].
           replace (seen ++ a :: pre) with ((seen ++ [a]) ++ pre)
             by (rewrite <- app_assoc; reflexivity).
           replace (seen ++ (a :: pre) ++ [x]) with ((seen ++ [a]) ++ pre ++ [x])
             by (rewrite <- app_assoc; reflexivity).
           auto.
        -- replace (seen ++ a :: frame_votes _euclid_dist cfg train names k (Some rest))
             with ((seen ++ [a]) ++ frame_votes _euclid_dist cfg train names k (Some rest))
             by (rewrite <- app_assoc; reflexivity).
           exact Hr.
    + destruct (IH m seen Hm Hseen) as (m' & r & Hloop & Hr).
      exists m', r. split; [exact Hloop | exact Hr].
Qed.

Lemma votes_from_S cam start n :
  votes_from _euclid_dist cfg train names k cam start (S n)
  = frame_votes _euclid_dist cfg train names k (cam start)
    ++ votes_from _euclid_dist cfg train names k cam (S start) n.
Proof. reflexivity. Qed.

Lemma votes_from_add cam start n n' :
  votes_from _euclid_dist cfg train names k cam start (n + n')
  = votes_from _euclid_dist cfg train names k cam start n
    ++ votes_from _euclid_dist cfg train names k cam (start + n) n'.
Proof.
  unfold votes_from. rewrite seq_app, map_app, concat_app. reflexivity.
Qed.

(** The loop from a state whose dictionary holds the tallies of [seen], none
    of which has reached [need]. It returns. When it returns a name, the
    name's tally reaches [need] at a vote of the last frame read and no
    tally had reached it before; when it returns [None], all the frames
    were read and no tally has reached [need]. *)
Lemma frames_loop_spec cam : forall remaining m seen frames,
  tallied m seen ->
  (forall b, (tally seen b < need)%nat) ->
  exists a,
    FaceAuth.frames_loop _euclid_dist cfg train names need k cam remaining m frames
    = Return a
    /\ match FaceAuth.outcome a with
       | Some x =>
           exists n pre1 post1,
             (n < remaining)%nat
             /\ FaceAuth.frames a = (frames + S n)%nat
             /\ frame_votes _euclid_dist cfg train names k (cam (frames + n)%nat)
                = pre1 ++ x :: post1
             /\ (forall b,
                   (tally (seen ++ votes_from _euclid_dist cfg train names k cam frames n
                           ++ pre1) b < need)%nat)
             /\ (need <= S (tally (seen ++ votes_from _euclid_dist cfg train names k
                                             cam frames n ++ pre1) x))%nat
             /\ tallied (FaceAuth.votes a)
                  (seen ++ votes_from _euclid_dist cfg train names k cam frames n
                   ++ pre1 ++ [x])
       | None =>
           FaceAuth.frames a = (frames + remaining)%nat
           /\ tallied (FaceAuth.votes a)
                (seen ++ votes_from _euclid_dist cfg train names k cam frames remaining)
           /\ forall b,
                (tally (seen ++ votes_from _euclid_dist cfg train names k cam frames
                                  remaining) b < need)%nat
       end.
Proof.
  induction remaining as [|remaining IH]; intros m seen frames Hm Hseen.
  - eexists. split; [reflexivity|]. simpl.
    unfold votes_from. simpl. rewrite app_nil_r. split; [lia | auto].
  - simpl FaceAuth.frames_loop.
    assert (forall m1 seen1,
              tallied m1 seen1 -> (forall b, (tally seen1 b < need)%nat) ->
              seen1 = seen ++ frame_votes _euclid_dist cfg train names k (cam frames) ->
              exists a,
                FaceAuth.frames_loop _euclid_dist cfg train names need k cam
                  remaining m1 (S frames) = Return a
                /\ match FaceAuth.outcome a with
                   | Some x =>
                       exists n pre1 post1,
                         (n < S remaining)%nat
                         /\ FaceAuth.frames a = (frames + S n)%nat
                         /\ frame_votes _euclid_dist cfg train names k (cam (frames + n)%nat)
                            = pre1 ++ x :: post1
                         /\ (forall b,
                               (tally (seen ++ votes_from _euclid_dist cfg train names k
                                                 cam frames n ++ pre1) b < need)%nat)
                         /\ (need <= S (tally (seen ++ votes_from _euclid_dist cfg train
                                                         names k cam frames n ++ pre1) x))%nat
                         /\ tallied (FaceAuth.votes a)
                              (seen ++ votes_from _euclid_dist cfg train names k cam
                                         frames n ++ pre1 ++ [x])
                   | None =>
                       FaceAuth.frames a = (frames + S remaining)%nat
                       /\ tallied (FaceAuth.votes a)
                            (seen ++ votes_from _euclid_dist cfg train names k cam
                                       frames (S remaining))
                       /\ forall b,
                            (tally (seen ++ votes_from _euclid_dist cfg train names k
                                              cam frames (S remaining)) b < need)%nat
                   end) as Hrest.
    { intros m1 seen1 Hm1 Hseen1 ->.
      destruct (IH m1 _ (S frames) Hm1 Hseen1) as (a & Ha & Hspec).
      exists a. split; [exact Ha|].
      destruct (FaceAuth.outcome a) as [x|].
      - destruct Hspec as (n & pre1 & post1 & Hn & Hfr & Hfv & Hlt & Hge & Ht).
        exists (S n), pre1, post1.
        replace (frames + S n)%nat with (S frames + n)%nat by lia.
        rewrite votes_from_S. rewrite <- !app_assoc in *.
        repeat split; try assumption; try lia; apply Ht.
      - destruct Hspec as (Hfr & Ht & Hlt).
        rewrite votes_from_S. rewrite <- !app_assoc in *.
        repeat split; try assumption; try lia; apply Ht. }
    destruct (cam frames) as [faces|] eqn:Hcam.
    + destruct (faces_loop_spec faces m seen Hm Hseen) as (m' & r & Hloop & Hr).
      rewrite Hloop. cbn [mbind result_bind].
      destruct r as [x|].
      * eexists. split; [reflexivity|]. simpl.
        destruct Hr as (pre & post & Hfv & Hlt & Hge & Ht).
        exists 0%nat, pre, post. rewrite Nat.add_0_r, Hcam.
        unfold votes_from. simpl.
        repeat split; try assumption; try lia; apply Ht.
      * destruct Hr as [Ht Hlt]. apply (Hrest m' _ Ht Hlt). reflexivity.
    + apply (Hrest m seen).
      * exact Hm.
      * exact Hseen.
      * simpl. rewrite app_nil_r. reflexivity.
Qed.

Lemma frame_votes_length fr :
  (length (frame_votes _euclid_dist cfg train names k fr)
   <= match fr with None => 0 | Some faces => length faces end)%nat.
Proof.
  assert (forall faces,
            (length (frame_votes _euclid_dist cfg train names k (Some faces))
             <= length faces)%nat) as Hfaces.
  { induction faces as [|f rest IH]; [simpl; lia|].
    rewrite frame_votes_cons.
    destruct (cast_vote _euclid_dist cfg train names k f); simpl in *; lia. }
  destruct fr as [faces|]; [apply Hfaces | simpl; lia].
Qed.

Lemma votes_from_length cam n :
  (length (votes_from _euclid_dist cfg train names k cam 0 n) <= faces_seen cam n)%nat.
Proof.
  unfold votes_from, faces_seen. generalize (seq 0 n) as idx.
  induction idx as [|i idx IH]; simpl; [lia|].
  rewrite length_app. pose proof (frame_votes_length (cam i)). lia.
Qed.

Lemma votes_from_silent cam n :
  (forall i, (i < n)%nat -> frame_votes _euclid_dist cfg train names k (cam i) = []) ->
  votes_from _euclid_dist cfg train names k cam 0 n = [].
Proof.
  induction n as [|n IH]; intros Hsilent; [reflexivity|].
  replace (S n) with (n + 1)%nat by lia.
  rewrite votes_from_add, IH by (intros; apply Hsilent; lia).
  unfold votes_from. simpl. rewrite Hsilent by lia. reflexivity.
Qed.

(** The loop of one recognition attempt, started on the empty dictionary. *)
Lemma attempt_spec cam timeout_frames :
  (1 <= need)%nat ->
  exists a,
    FaceAuth.frames_loop _euclid_dist cfg train names need k cam timeout_frames ∅ 0
    = Return a
    /\ match FaceAuth.outcome a with
       | Some x =>
           exists n pre1 post1,
             (n < timeout_frames)%nat
             /\ FaceAuth.frames a = S n
             /\ frame_votes _euclid_dist cfg train names k (cam n) = pre1 ++ x :: post1
             /\ (forall b,
                   (tally (votes_from _euclid_dist cfg train names k cam 0 n ++ pre1) b
                    < need)%nat)
             /\ (need <= S (tally (votes_from _euclid_dist cfg train names k cam 0 n
                                     ++ pre1) x))%nat
             /\ tallied (FaceAuth.votes a)
                  (votes_from _euclid_dist cfg train names k cam 0 n ++ pre1 ++ [x])
       | None =>
           FaceAuth.frames a = timeout_frames
           /\ tallied (FaceAuth.votes a)
                (votes_from _euclid_dist cfg train names k cam 0 timeout_frames)
           /\ forall b,
                (tally (votes_from _euclid_dist cfg train names k cam 0 timeout_frames) b
                 < need)%nat
       end.
Proof.
  intros Hneed.
  destruct (frames_loop_spec cam timeout_frames ∅ [] 0%nat tallied_empty)
    as (a & Ha & Hspec).
  { intros b. unfold tally. simpl. lia. }
  exists a. split; [exact Ha|]. simpl in Hspec. exact Hspec.
Qed.

(** The votes of the whole attempt, split at a vote of frame [n]. *)
Lemma votes_from_through cam timeout_frames n pre1 x post1 :
  (n < timeout_frames)%nat ->
  frame_votes _euclid_dist cfg train names k (cam n) = pre1 ++ x :: post1 ->
  votes_from _euclid_dist cfg train names k cam 0 timeout_frames
  = (votes_from _euclid_dist cfg train names k cam 0 n ++ pre1)
    ++ x :: (post1
             ++ votes_from _euclid_dist cfg train names k cam (S n)
                  (timeout_frames - S n))
  /\ votes_from _euclid_dist cfg train names k cam 0 (S n)
     = (votes_from _euclid_dist cfg train names k cam 0 n ++ pre1) ++ x :: post1.
Proof.
  intros Hn Hfv. split.
  - replace timeout_frames with (n + S (timeout_frames - S n))%nat at 1 by lia.
    rewrite votes_from_add, votes_from_S. simpl. rewrite Hfv.
    rewrite <- !app_assoc. reflexivity.
  - replace (S n) with (n + 1)%nat at 1 by lia.
    rewrite votes_from_add, votes_from_S. simpl. rewrite Hfv.
    unfold votes_from at 3. simpl. rewrite app_nil_r, <- !app_assoc. reflexivity.
Qed.

End LoopFacts.

Lemma recognize_attempt_loop {vec : Type} (_euclid_dist : vec -> vec -> Q)
    cfg (w : FaceAuth.world vec) timeout_frames need_votes k train names cam :
  FaceAuth.recognize_setup w = Some (train, names, cam) ->
  FaceAuth.recognize_attempt _euclid_dist cfg w timeout_frames need_votes k
  = Some (FaceAuth.frames_loop _euclid_dist cfg train names need_votes k cam
            timeout_frames ∅ 0).
Proof. intros H. unfold FaceAuth.recognize_attempt. rewrite H. reflexivity. Qed.

(** C4. When [recognize_quick] reaches its loop, on a bank with rows and with
    [k >= 1] and [need_votes >= 1]: if in the votes of the first
    [timeout_frames] frames the tally of [x] reaches [need_votes] at some
    vote, no tally having reached it before, the function returns [x], in
    the frame of that vote (before that frame no tally had reached
    [need_votes]), whatever votes come later; if no tally reaches
    [need_votes] in those frames, it reads them all and returns [None]. *)
Theorem recognize_quick_first_to_threshold :
  forall (vec : Type) (_euclid_dist : vec -> vec -> Q) (cfg : Config.config)
         (w : FaceAuth.world vec) (timeout_frames need_votes : nat) (k : Z)
         (train : list (FaceAuth.row vec)) (names : gmap Z string)
         (cam : nat -> FaceAuth.frame vec),
    FaceAuth.recognize_setup w = Some (train, names, cam) ->
    train <> [] -> 1 <= k -> (1 <= need_votes)%nat ->
    exists a,
      FaceAuth.recognize_attempt _euclid_dist cfg w timeout_frames need_votes k
      = Some (Return a)
      /\ FaceAuth.recognize_quick _euclid_dist cfg w timeout_frames need_votes k
         = Return (FaceAuth.outcome a)
      /\ (forall pre x post,
            votes_from _euclid_dist cfg train names k cam 0 timeout_frames
            = pre ++ x :: post ->
            (forall b, (tally pre b < need_votes)%nat) ->
            S (tally pre x) = need_votes ->
            FaceAuth.outcome a = Some x
            /\ (FaceAuth.frames a <= timeout_frames)%nat
            /\ (forall b,
                  (tally (votes_from _euclid_dist cfg train names k cam 0
                            (pred (FaceAuth.frames a))) b < need_votes)%nat)
            /\ (need_votes
                <= tally (votes_from _euclid_dist cfg train names k cam 0
                            (FaceAuth.frames a)) x)%nat)
      /\ ((forall b,
             (tally (votes_from _euclid_dist cfg train names k cam 0 timeout_frames) b
              < need_votes)%nat) ->
          FaceAuth.outcome a = None /\ FaceAuth.frames a = timeout_frames).
Proof.
  intros vec _euclid_dist cfg w timeout_frames need_votes k train names cam
         Hsetup Htrain Hk Hneed.
  destruct (attempt_spec vec _euclid_dist cfg train names need_votes k Htrain Hk
              cam timeout_frames Hneed) as (a & Ha & Hspec).
  pose proof (recognize_attempt_loop _euclid_dist cfg w timeout_frames need_votes k
                train names cam Hsetup) as Hattempt.
  rewrite Ha in Hattempt.
  exists a. split; [exact Hattempt|]. split.
  { unfold FaceAuth.recognize_quick. rewrite Hattempt. reflexivity. }
  destruct (FaceAuth.outcome a) as [y|].
  - destruct Hspec as (n & pre1 & post1 & Hn & Hfr & Hfv & Hlt & Hge & Ht).
    destruct (votes_from_through vec _euclid_dist cfg train names k cam
                timeout_frames n pre1 y post1 Hn Hfv) as [Hall Hupto].
    split.
    + intros pre x post Hvs Hpre Hx. rewrite Hall in Hvs.
      destruct (first_reach_unique need_votes _ _ _ _ _ _ Hvs Hlt Hge Hpre) as [Hp ->];
        [lia|].
      split; [reflexivity|]. split; [lia|]. rewrite Hfr. simpl pred. split.
      * intros b. specialize (Hlt b). rewrite tally_app in Hlt. lia.
      * rewrite Hupto, tally_app, tally_cons, String.eqb_refl. lia.
    + intros Hnone. specialize (Hnone y).
      rewrite Hall, tally_app, tally_cons, String.eqb_refl in Hnone. lia.
  - destruct Hspec as (Hfr & _ & Hlt). split.
    + intros pre x post Hvs Hpre Hx. specialize (Hlt x).
      rewrite Hvs, tally_app, tally_cons, String.eqb_refl in Hlt. lia.
    + intros _. auto.
Qed.

Lemma recognize_quick_first_to_threshold_witness :
  FaceAuth.recognize_setup (Example1D.machine Example1D.aldridge_bank Example1D.one_face)
  = Some ([(0, 0)], <[0 := "Aldridge"%string]> ∅, Example1D.one_face)
  /\ [(0, 0)] <> ([] : list (FaceAuth.row Z))
  /\ 1 <= 5
  /\ (1 <= 5)%nat
  /\ exists a,
       FaceAuth.recognize_quick Example1D.dist Config.defaults
         (Example1D.machine Example1D.aldridge_bank Example1D.one_face) 10 5 5
       = Return (FaceAuth.outcome a)
       /\ (forall pre x post,
             votes_from Example1D.dist Config.defaults [(0, 0)]
               (<[0 := "Aldridge"%string]> ∅) 5 Example1D.one_face 0 10
             = pre ++ x :: post ->
             (forall b, (tally pre b < 5)%nat) ->
             S (tally pre x) = 5%nat ->
             FaceAuth.outcome a = Some x).
Proof.
  split; [reflexivity|]. split; [discriminate|]. split; [lia|]. split; [lia|].
  destruct (recognize_quick_first_to_threshold Z Example1D.dist Config.defaults
              (Example1D.machine Example1D.aldridge_bank Example1D.one_face)
              10 5 5 [(0, 0)] (<[0 := "Aldridge"%string]> ∅) Example1D.one_face)
    as (a & _ & Hq & Hsome & _);
    [reflexivity | discriminate | lia | lia |].
  exists a. split; [exact Hq|].
  intros pre x post Hvs Hpre Hx. apply (Hsome pre x post Hvs Hpre Hx).
Defined.

(** Ten frames that each show "Aldridge", five votes needed: the attempt
    returns "Aldridge" after the fifth frame. *)
Example ten_frames_five_votes :
  exists a,
    FaceAuth.recognize_attempt Example1D.dist Config.defaults
      (Example1D.machine Example1D.aldridge_bank Example1D.one_face) 10 5 5
    = Some (Return a)
    /\ FaceAuth.outcome a = Some "Aldridge"%string
    /\ FaceAuth.frames a = 5%nat
    /\ FaceAuth.votes a !! "Aldridge"%string = Some 5%nat.
Proof.
  eexists. split; [vm_compute; reflexivity|]. repeat split; vm_compute; reflexivity.
Qed.

(** "A" reaches two votes in the first two frames and is returned, although
    "B" has eight votes in the ten frames of the budget. *)
Example first_to_threshold_not_plurality :
  FaceAuth.recognize_quick Example1D.dist Config.defaults
    (Example1D.machine Example1D.ab_bank Example1D.a_then_b) 10 2 1
  = Return (Some "A"%string)
  /\ match FaceAuth._load_face_bank true (Some Example1D.ab_bank) with
     | Some (train, names) =>
         tally (votes_from Example1D.dist Config.defaults train names 1
                  Example1D.a_then_b 0 10) "A" = 2%nat
         /\ tally (votes_from Example1D.dist Config.defaults train names 1
                     Example1D.a_then_b 0 10) "B" = 8%nat
     | None => False
     end.
Proof.
  split; [vm_compute; reflexivity|]. vm_compute. split; reflexivity.
Qed.

(** C8, as the code has it. In one attempt every detected face gives at most
    one vote, so the votes counted are at most the faces detected in the
    frames read (a frame with several faces can give several votes); every
    turn of the loop counts once against [timeout_frames], whether the read
    fails, nothing is detected or no face passes the tests: the loop never
    reads more than [timeout_frames] frames, reads them all when it returns
    [None], and frames without a vote leave the dictionary empty. *)
Theorem votes_bounded_by_faces :
  forall (vec : Type) (_euclid_dist : vec -> vec -> Q) (cfg : Config.config)
         (w : FaceAuth.world vec) (timeout_frames need_votes : nat) (k : Z)
         (train : list (FaceAuth.row vec)) (names : gmap Z string)
         (cam : nat -> FaceAuth.frame vec),
    FaceAuth.recognize_setup w = Some (train, names, cam) ->
    train <> [] -> 1 <= k -> (1 <= need_votes)%nat ->
    exists a,
      FaceAuth.recognize_attempt _euclid_dist cfg w timeout_frames need_votes k
      = Some (Return a)
      /\ (FaceAuth.frames a <= timeout_frames)%nat
      /\ (FaceAuth.outcome a = None -> FaceAuth.frames a = timeout_frames)
      /\ (total_votes (FaceAuth.votes a) <= faces_seen cam (FaceAuth.frames a))%nat
      /\ ((forall i, (i < timeout_frames)%nat ->
             frame_votes _euclid_dist cfg train names k (cam i) = []) ->
          FaceAuth.outcome a = None
          /\ FaceAuth.frames a = timeout_frames
          /\ total_votes (FaceAuth.votes a) = 0%nat).
Proof.
  intros vec _euclid_dist cfg w timeout_frames need_votes k train names cam
         Hsetup Htrain Hk Hneed.
  destruct (attempt_spec vec _euclid_dist cfg train names need_votes k Htrain Hk
              cam timeout_frames Hneed) as (a & Ha & Hspec).
  pose proof (recognize_attempt_loop _euclid_dist cfg w timeout_frames need_votes k
                train names cam Hsetup) as Hattempt.
  rewrite Ha in Hattempt.
  exists a. split; [exact Hattempt|].
  destruct (FaceAuth.outcome a) as [y|].
  - destruct Hspec as (n & pre1 & post1 & Hn & Hfr & Hfv & Hlt & Hge & Ht).
    destruct (votes_from_through vec _euclid_dist cfg train names k cam
                timeout_frames n pre1 y post1 Hn Hfv) as [_ Hupto].
    split; [lia|]. split; [discriminate|]. split.
    + rewrite (proj2 Ht), Hfr.
      pose proof (votes_from_length vec _euclid_dist cfg train names k cam (S n)) as Hlen.
      rewrite Hupto in Hlen. rewrite !length_app in *. simpl in *. lia.
    + intros Hsilent. specialize (Hsilent n Hn). rewrite Hfv in Hsilent.
      destruct pre1; discriminate.
  - destruct Hspec as (Hfr & Ht & Hlt).
    split; [lia|]. split; [auto|]. split.
    + rewrite (proj2 Ht), Hfr. apply votes_from_length.
    + intros Hsilent. split; [reflexivity|]. split; [exact Hfr|].
      rewrite (proj2 Ht), (votes_from_silent vec _euclid_dist cfg train names k cam
                             timeout_frames Hsilent).
      reflexivity.
Qed.

Lemma votes_bounded_by_faces_witness :
  FaceAuth.recognize_setup (Example1D.machine Example1D.aldridge_bank Example1D.two_faces)
  = Some ([(0, 0)], <[0 := "Aldridge"%string]> ∅, Example1D.two_faces)
  /\ [(0, 0)] <> ([] : list (FaceAuth.row Z))
  /\ 1 <= 5
  /\ (1 <= 5)%nat
  /\ exists a,
       FaceAuth.recognize_attempt Example1D.dist Config.defaults
         (Example1D.machine Example1D.aldridge_bank Example1D.two_faces) 250 5 5
       = Some (Return a)
       /\ (FaceAuth.frames a <= 250)%nat
       /\ (total_votes (FaceAuth.votes a)
           <= faces_seen Example1D.two_faces (FaceAuth.frames a))%nat.
Proof.
  split; [reflexivity|]. split; [discriminate|]. split; [lia|]. split; [lia|].
  destruct (votes_bounded_by_faces Z Example1D.dist Config.defaults
              (Example1D.machine Example1D.aldridge_bank Example1D.two_faces)
              250 5 5 [(0, 0)] (<[0 := "Aldridge"%string]> ∅) Example1D.two_faces)
    as (a & Ha & Hfr & _ & Hvotes & _);
    [reflexivity | discriminate | lia | lia |].
  exists a. auto.
Defined.

(** C8, as stated, fails: with two faces of "Aldridge" in every frame and
    the parameters of the program (five votes, [k = 5]), the attempt returns
    after reading three frames with five votes counted, two from each of the
    first two frames. *)
Lemma two_votes_from_one_frame :
  exists a,
    FaceAuth.recognize_attempt Example1D.dist Config.defaults
      (Example1D.machine Example1D.aldridge_bank Example1D.two_faces) 250 5 5
    = Some (Return a)
    /\ FaceAuth.frames a = 3%nat
    /\ FaceAuth.votes a !! "Aldridge"%string = Some 5%nat
    /\ total_votes (FaceAuth.votes a) = 5%nat
    /\ ~ (total_votes (FaceAuth.votes a) <= FaceAuth.frames a)%nat
    /\ length (frame_votes Example1D.dist Config.defaults [(0, 0)]
                 (<[0 := "Aldridge"%string]> ∅) 5 (Example1D.two_faces 0)) = 2%nat.
Proof.
  eexists. split; [vm_compute; reflexivity|].
  split; [reflexivity|]. split; [reflexivity|].
  split; [vm_compute; reflexivity|].
  split; [vm_compute; lia | vm_compute; reflexivity].
Qed.

(** ** The session *)

Section SessionFacts.

Import Repl.

Variable cfg : Config.config.
Variable h : host.

Lemma locked_like_cases identity :
  locked_like identity = true ->
  identity = "LOCKED"%string \/ identity = "guest"%string.
Proof.
  unfold locked_like. intros H. apply orb_true_iff in H as [H|H];
    apply String.eqb_eq in H; auto.
Qed.

Lemma locked_like_not_persona identity :
  locked_like identity = true -> Personas.is_persona identity = false.
Proof. intros H. destruct (locked_like_cases identity H) as [->| ->]; reflexivity. Qed.

Lemma calendar_gate_locked s :
  locked_like (identity s) = true -> calendar_gate s = (false, []).
Proof. unfold calendar_gate. intros ->. reflexivity. Qed.

Lemma navigate_locked s key :
  locked_like (identity s) = true -> navigate s key = (s, [Refused NavigationLocked]).
Proof. unfold navigate. intros ->. reflexivity. Qed.

Lemma late_locked s f :
  locked_like (identity s) = true ->
  fst (late h s f) = s
  /\ forallb (fun e => negb (sensitive e)) (snd (late h s f)) = true.
Proof.
  intros Hl. destruct f as [key|kv| |heard|nav]; simpl.
  - rewrite navigate_locked by exact Hl. auto.
  - rewrite Hl. auto.
  - rewrite Hl. auto.
  - destruct (stt_available h); simpl; [|auto].
    destruct heard as [sp|]; [|auto].
    rewrite calendar_gate_locked by exact Hl.
    unfold nav_or_chat. destruct (spoken_nav_place sp).
    + rewrite navigate_locked by exact Hl. auto.
    + auto.
  - unfold nav_or_chat. destruct nav.
    + rewrite navigate_locked by exact Hl. auto.
    + auto.
Qed.

(** While the session is locked or a guest session, no command touches the
    calendar, the saved places or the stored permission flag. *)
Lemma step_locked s c :
  locked_like (identity s) = true ->
  forallb (fun e => negb (sensitive e)) (snd (step cfg h s c)) = true
  /\ (asks_sensitive c = true -> fst (step cfg h s c) = s).
Proof.
  intros Hl. pose proof (locked_like_not_persona _ Hl) as Hp.
  destruct c; simpl; try (split; [reflexivity | discriminate]).
  - destruct (has_cv2 h); simpl; [|split; [reflexivity|discriminate]].
    destruct who as [name|]; [|split; [reflexivity|discriminate]].
    destruct (truthy (Some name)); simpl; [|split; [reflexivity|discriminate]].
    destruct (Personas.is_persona name); split; try reflexivity; discriminate.
  - destruct (_ && _); split; try reflexivity; discriminate.
  - destruct (locked_like_cases _ Hl) as [E|E]; rewrite E; simpl;
      split; try reflexivity; discriminate.
  - destruct (_ || _); [|split; [reflexivity|discriminate]].
    rewrite Hp. split; [reflexivity|discriminate].
  - destruct idx; [rewrite Hp|]; split; try reflexivity; discriminate.
  - destruct rate_val; [rewrite Hp|]; split; try reflexivity; discriminate.
  - destruct (String.eqb arg "on"); [destruct (negb _)|destruct (String.eqb arg "off")];
      split; try reflexivity; discriminate.
  - unfold set_calendar_permission.
    destruct (locked_like_cases _ Hl) as [E|E]; rewrite E; simpl;
      split; try reflexivity; discriminate.
  - unfold set_calendar_permission.
    destruct (locked_like_cases _ Hl) as [E|E]; rewrite E; simpl;
      split; try reflexivity; discriminate.
  - rewrite Hl. split; reflexivity.
  - rewrite calendar_gate_locked by exact Hl. simpl.
    destruct (has_cal_word u); [split; reflexivity|].
    destruct (late_locked s (shape u) Hl) as [Hs He].
    destruct (late h s (shape u)) as [s' evs]. simpl in *. split; [exact He | auto].
Qed.

End SessionFacts.

(** C1. After any sequence of commands, from any stored profiles and any
    outcome of the startup recognition: while the identity is "LOCKED" or
    "guest", the test before a calendar access answers false without reading
    the stored flag, no command reads the flag, the calendar or the saved
    places, and a command asking for them leaves the session as it is. *)
Theorem locked_or_guest_never_passes_gate :
  forall (cfg : Config.config) (h : Repl.host) (profiles0 : Profiles.profiles)
         (who : option string) (cmds : list Repl.command) (c : Repl.command),
    Repl.locked_like
      (Repl.identity (fst (Repl.run_repl cfg h profiles0 who cmds))) = true ->
    Repl.calendar_gate (fst (Repl.run_repl cfg h profiles0 who cmds)) = (false, [])
    /\ forallb (fun e => negb (Repl.sensitive e))
         (snd (Repl.step cfg h (fst (Repl.run_repl cfg h profiles0 who cmds)) c))
       = true
    /\ (Repl.asks_sensitive c = true ->
        fst (Repl.step cfg h (fst (Repl.run_repl cfg h profiles0 who cmds)) c)
        = fst (Repl.run_repl cfg h profiles0 who cmds)).
Proof.
  intros cfg h profiles0 who cmds c Hl.
  split; [apply calendar_gate_locked, Hl|].
  apply step_locked, Hl.
Qed.

Lemma locked_or_guest_never_passes_gate_witness :
  Repl.identity
    (fst (Repl.run_repl Config.defaults ExampleSession.host
            ExampleSession.granting_store None [Repl.CmdSwitch])) = "guest"%string
  /\ Profiles.has_calendar_permission "guest"
       (Repl.profiles
          (fst (Repl.run_repl Config.defaults ExampleSession.host
                  ExampleSession.granting_store None [Repl.CmdSwitch]))) = true
  /\ Repl.calendar_gate
       (fst (Repl.run_repl Config.defaults ExampleSession.host
               ExampleSession.granting_store None [Repl.CmdSwitch])) = (false, [])
  /\ forallb (fun e => negb (Repl.sensitive e))
       (snd (Repl.step Config.defaults ExampleSession.host
               (fst (Repl.run_repl Config.defaults ExampleSession.host
                       ExampleSession.granting_store None [Repl.CmdSwitch]))
               Repl.CmdAgenda)) = true.
Proof.
  split; [reflexivity|]. split; [vm_compute; reflexivity|].
  destruct (locked_or_guest_never_passes_gate Config.defaults ExampleSession.host
              ExampleSession.granting_store None [Repl.CmdSwitch] Repl.CmdAgenda)
    as (Hgate & Hevents & _); [reflexivity|].
  split; [exact Hgate | exact Hevents].
Defined.

Section IdentityFacts.

Import Repl.

Variable cfg : Config.config.
Variable h : host.

Lemma navigate_identity s key : identity (fst (navigate s key)) = identity s.
Proof.
  unfold navigate. destruct (locked_like (identity s)); [reflexivity|].
  destruct (Profiles.places_of (profiles s) (identity s) !! key) as [d|]; [|reflexivity].
  destruct (truthy (Some d)); reflexivity.
Qed.

Lemma nav_or_chat_identity s nav : identity (fst (nav_or_chat s nav)) = identity s.
Proof. destruct nav; simpl; [apply navigate_identity | reflexivity]. Qed.

Lemma late_identity s f : identity (fst (late h s f)) = identity s.
Proof.
  destruct f as [key|kv| |heard|nav]; simpl.
  - apply navigate_identity.
  - destruct (locked_like (identity s)); [reflexivity|].
    destruct kv as [[k v]|]; reflexivity.
  - destruct (locked_like (identity s)); reflexivity.
  - destruct (negb (stt_available h)); [reflexivity|].
    destruct heard as [sp|]; [|reflexivity].
    pose proof (nav_or_chat_identity s (spoken_nav_place sp)) as Hn.
    destruct (calendar_gate s) as [allowed reads].
    destruct (nav_or_chat s (spoken_nav_place sp)) as [s' evs]. simpl in Hn.
    destruct allowed; [destruct (spoken_cal_handled sp)|]; simpl; auto.
  - apply nav_or_chat_identity.
Qed.

(** The identity after a command: it stays, or it is the name a recognition
    returned, the target of an accepted [/login], or the result of [/lock]
    or [/switch]. *)
Lemma step_identity s c :
  identity (fst (step cfg h s c)) = identity s
  \/ (exists name,
        c = CmdRecognize (Some name)
        /\ Personas.is_persona name = true
        /\ identity (fst (step cfg h s c)) = name)
  \/ (exists devname,
        c = CmdLogin devname
        /\ Personas.is_persona devname = true
        /\ String.eqb (Str.lower devname) "guest" = false
        /\ identity (fst (step cfg h s c)) = devname)
  \/ (c = CmdLock /\ identity (fst (step cfg h s c)) = "LOCKED"%string)
  \/ (c = CmdSwitch
      /\ (identity (fst (step cfg h s c)) = "Professor"%string
          \/ identity (fst (step cfg h s c)) = "Aldridge"%string
          \/ identity (fst (step cfg h s c)) = "guest"%string)).
Proof.
  destruct c; simpl; try (left; reflexivity).
  - destruct (negb (has_cv2 h)); [left; reflexivity|].
    destruct who as [name|]; [|left; reflexivity].
    destruct (negb (truthy (Some name))); [left; reflexivity|].
    destruct (Personas.is_persona name) eqn:Hp; simpl; [|left; reflexivity].
    right; left. exists name. auto.
  - right; right; right; left. auto.
  - destruct (Personas.is_persona devname) eqn:Hp; simpl; [|left; reflexivity].
    destruct (String.eqb (Str.lower devname) "guest") eqn:Hg; simpl; [left; reflexivity|].
    right; right; left. exists devname. auto.
  - destruct (String.eqb (identity s) "Aldridge") eqn:Ha; simpl.
    { right; right; right; right. auto. }
    destruct (String.eqb (identity s) "Professor") eqn:Hpr; simpl.
    { right; right; right; right. auto. }
    destruct (String.eqb (identity s) "LOCKED"); simpl.
    { right; right; right; right. auto. }
    destruct (String.eqb (identity s) "guest"); left; reflexivity.
  - destruct (_ || _); [|left; reflexivity].
    destruct (Personas.is_persona (identity s)); left; reflexivity.
  - destruct idx; [|left; reflexivity].
    destruct (Personas.is_persona (identity s)); left; reflexivity.
  - destruct rate_val; [|left; reflexivity].
    destruct (Personas.is_persona (identity s)); left; reflexivity.
  - destruct (String.eqb arg "on"); [destruct (negb _)|destruct (String.eqb arg "off")];
      left; reflexivity.
  - unfold set_calendar_permission.
    destruct (negb _); [left; reflexivity|].
    destruct (negb _); left; reflexivity.
  - unfold set_calendar_permission.
    destruct (negb _); [left; reflexivity|].
    destruct (negb _); left; reflexivity.
  - destruct (locked_like (identity s)); [left; reflexivity|].
    destruct (negb _); left; reflexivity.
  - left. pose proof (late_identity s (shape u)) as Hlate.
    destruct (calendar_gate s) as [allowed reads].
    destruct (late h s (shape u)) as [s' evs]. simpl in Hlate.
    destruct allowed; [destruct (cal_handled u)|destruct (has_cal_word u)]; simpl; auto.
Qed.

(** The identity "Guest" is entered by no command but a recognition that
    returns the label "Guest". *)
Lemma guest_only_by_recognition s c :
  identity (fst (step cfg h s c)) = "Guest"%string ->
  identity s = "Guest"%string \/ c = CmdRecognize (Some "Guest"%string).
Proof.
  intros Hg.
  destruct (step_identity s c)
    as [H|[(name & -> & _ & H)|[(dev & -> & Hp & Hl & H)|[[-> H]|[-> H]]]]].
  - left. congruence.
  - right. congruence.
  - rewrite Hg in H. subst dev. discriminate.
  - rewrite Hg in H. discriminate.
  - rewrite Hg in H. destruct H as [H|[H|H]]; discriminate.
Qed.

Lemma start_identity profiles0 choice :
  locked_like (identity (start cfg h profiles0 choice)) = true
  \/ Personas.is_persona (identity (start cfg h profiles0 choice)) = true.
Proof.
  unfold start. simpl.
  destruct (Personas.is_persona (fst choice)) eqn:Hp; simpl; [right; exact Hp|].
  destruct (String.eqb (fst choice) "LOCKED") eqn:Hl; simpl; [|left; reflexivity].
  left. unfold locked_like. rewrite Hl. reflexivity.
Qed.

(** Every session the program reaches is locked, a guest session, or has a
    key of [PERSONAS] as its identity. *)
Lemma reachable_identity s :
  reachable cfg h s ->
  locked_like (identity s) = true \/ Personas.is_persona (identity s) = true.
Proof.
  induction 1 as [profiles0 who|s c Hs IH]; [apply start_identity|].
  destruct (step_identity s c)
    as [H|[(name & _ & Hp & H)|[(dev & _ & Hp & _ & H)|[[_ H]|[_ H]]]]].
  - rewrite H. exact IH.
  - rewrite H. right. exact Hp.
  - rewrite H. right. exact Hp.
  - rewrite H. left. reflexivity.
  - destruct H as [H|[H|H]]; rewrite H; [right|right|left]; reflexivity.
Qed.

Lemma run_reachable cmds : forall s,
  reachable cfg h s -> reachable cfg h (fst (run cfg h s cmds)).
Proof.
  induction cmds as [|c rest IH]; intros s Hs; [exact Hs|]. simpl.
  pose proof (reachable_step cfg h s c Hs) as Hstep.
  destruct (step cfg h s c) as [s1 evs1]. simpl in Hstep.
  specialize (IH s1 Hstep). destruct (run cfg h s1 rest) as [s2 evs2]. exact IH.
Qed.

End IdentityFacts.

(** C2 fails on the code. From the locked start, a [/recognize] that returns
    the label "Guest" (a face enrolled under that name) sets the identity to
    "Guest": a key of [PERSONAS], not locked-like, so the next command saves
    a place for it. [/login Guest] from the same session is refused. *)
Theorem recognize_accepts_guest_label :
  FaceAuth.recognize_quick Example1D.dist Config.defaults
    (Example1D.machine Example1D.guest_bank Example1D.one_face) 250 5 5
  = Return (Some "Guest"%string)
  /\ Repl.identity (ExampleSession.locked_start Profiles.no_profiles) = "LOCKED"%string
  /\ Repl.identity
       (fst (Repl.step Config.defaults ExampleSession.host
               (ExampleSession.locked_start Profiles.no_profiles)
               (Repl.CmdRecognize (Some "Guest"%string)))) = "Guest"%string
  /\ Personas.is_persona "Guest" = true
  /\ Repl.locked_like "Guest" = false
  /\ Repl.reachable Config.defaults ExampleSession.host
       (fst (Repl.step Config.defaults ExampleSession.host
               (ExampleSession.locked_start Profiles.no_profiles)
               (Repl.CmdRecognize (Some "Guest"%string))))
  /\ snd (Repl.run Config.defaults ExampleSession.host
            (ExampleSession.locked_start Profiles.no_profiles)
            [Repl.CmdRecognize (Some "Guest"%string); ExampleSession.save_home])
     = [Repl.PermissionRead "Guest"; Repl.PlaceSaved "Guest" "home" "1 Main St"]
  /\ Repl.step Config.defaults ExampleSession.host
       (ExampleSession.locked_start Profiles.no_profiles) (Repl.CmdLogin "Guest")
     = (ExampleSession.locked_start Profiles.no_profiles,
        [Repl.Refused Repl.LoginTargetNotAllowed]).
Proof.
  split; [vm_compute; reflexivity|].
  split; [reflexivity|]. split; [reflexivity|]. split; [reflexivity|].
  split; [reflexivity|]. split.
  - apply Repl.reachable_step. apply Repl.reachable_start.
  - split; reflexivity.
Qed.

(** ** Startup *)

(** In strict mode the startup choice is the recognized name with
    [authed = True] when the name is a non-empty key of [PERSONAS], and
    ["LOCKED"] with [authed = False] otherwise; it is never the guest session
    ["guest"]. *)
Lemma startup_choice_strict cfg who profiles :
  Config.STRICT_AUTH cfg = true ->
  (forall name,
     who = Some name -> name <> ""%string -> Personas.is_persona name = true ->
     Repl.startup_choice cfg who profiles = (name, true))
  /\ (Repl.persona_of who = None ->
      Repl.startup_choice cfg who profiles = ("LOCKED"%string, false))
  /\ fst (Repl.startup_choice cfg who profiles) <> "guest"%string.
Proof.
  intros Hs. unfold Repl.startup_choice. rewrite Hs. split; [|split].
  - intros name -> Hne Hp. unfold Repl.persona_of, truthy.
    apply String.eqb_neq in Hne. rewrite Hne, Hp. reflexivity.
  - intros ->. reflexivity.
  - unfold Repl.persona_of. destruct who as [name|]; [|discriminate].
    destruct (truthy (Some name)); simpl; [|discriminate].
    destruct (Personas.is_persona name) eqn:Hp; [|discriminate].
    simpl. intros ->. discriminate.
Qed.

(** C3 fails on the code. In strict mode, with a face enrolled under the name
    "Guest" in front of the camera, the recognition returns "Guest" and
    [attempt_auto_identity] returns it with [authed = True]: the session
    starts with the identity "Guest", which is not locked-like. On the same
    input [choose_identity_from_faces_or_fallback], which tests for the guest
    name, returns ["LOCKED"]. *)
Theorem startup_accepts_guest_label :
  Config.STRICT_AUTH Config.defaults = true
  /\ FaceAuth.recognize_quick Example1D.dist Config.defaults
       (Example1D.machine Example1D.guest_bank Example1D.one_face) 250 5 5
     = Return (Some "Guest"%string)
  /\ Repl.attempt_auto_identity Example1D.dist Config.defaults
       (Example1D.machine Example1D.guest_bank Example1D.one_face)
       Profiles.no_profiles
     = Return ("Guest"%string, true)
  /\ Repl.identity
       (Repl.start Config.defaults ExampleSession.host Profiles.no_profiles
          ("Guest"%string, true)) = "Guest"%string
  /\ Repl.locked_like "Guest" = false
  /\ FaceAuth.choose_identity_from_faces_or_fallback Example1D.dist Config.defaults
       (Example1D.machine Example1D.guest_bank Example1D.one_face)
       (Profiles.ensure_identity_struct Profiles.no_profiles "Guest") true
     = Return ("LOCKED"%string, false).
Proof.
  split; [reflexivity|].
  split; [vm_compute; reflexivity|].
  split; [vm_compute; reflexivity|].
  split; [reflexivity|]. split; [reflexivity|].
  vm_compute. reflexivity.
Qed.

(** ** Calendar permissions *)

Section PermissionFacts.

Import Repl.

Variable cfg : Config.config.
Variable h : host.

Lemma has_calendar_permission_stored name p :
  Profiles.has_calendar_permission name p = default false (stored_calendar name p).
Proof. reflexivity. Qed.

Lemma stored_permissions_ensure name i p perms :
  stored_permissions name p = Some perms ->
  stored_permissions name (Profiles.ensure_identity_struct p i) = Some perms.
Proof.
  unfold stored_permissions, Profiles.ensure_identity_struct. simpl.
  destruct (decide (i = name)) as [->|Hne].
  - rewrite lookup_insert_eq. simpl.
    destruct (Profiles.records p !! name) as [r|]; simpl; [|discriminate].
    intros ->. reflexivity.
  - rewrite lookup_insert_ne by exact Hne. auto.
Qed.

Lemma stored_permissions_set_tts name i f p :
  stored_permissions name (Profiles.set_tts p i f) = stored_permissions name p.
Proof.
  unfold stored_permissions, Profiles.set_tts. simpl.
  destruct (Profiles.records p !! i) as [r|] eqn:Hr; [|reflexivity].
  destruct (decide (i = name)) as [->|Hne].
  - rewrite lookup_insert_eq, Hr. reflexivity.
  - rewrite lookup_insert_ne by exact Hne. reflexivity.
Qed.

Lemma stored_permissions_set_place name i k v p :
  stored_permissions name (Profiles.set_place p i k v) = stored_permissions name p.
Proof.
  unfold stored_permissions, Profiles.set_place. simpl.
  destruct (Profiles.records p !! i) as [r|] eqn:Hr; [|reflexivity].
  destruct (decide (i = name)) as [->|Hne].
  - rewrite lookup_insert_eq, Hr. reflexivity.
  - rewrite lookup_insert_ne by exact Hne. reflexivity.
Qed.

Lemma stored_permissions_set_calendar_other name target value p :
  target <> name ->
  stored_permissions name (Profiles.set_calendar p target value)
  = stored_permissions name p.
Proof.
  intros Hne. unfold stored_permissions, Profiles.set_calendar. simpl.
  destruct (Profiles.records p !! target) as [r|]; [|reflexivity].
  rewrite lookup_insert_ne by exact Hne. reflexivity.
Qed.

(** A first [ensure_identity_struct] on an entry without permissions writes
    the default flag: true for "Aldridge" only. *)
Lemma ensure_default_permission identity p :
  stored_permissions identity p = None ->
  Profiles.has_calendar_permission identity
    (Profiles.ensure_identity_struct p identity)
  = String.eqb identity "Aldridge".
Proof.
  unfold stored_permissions, Profiles.has_calendar_permission,
    Profiles.ensure_identity_struct. simpl.
  rewrite lookup_insert_eq. simpl.
  destruct (Profiles.records p !! identity) as [r|]; simpl.
  - intros ->. simpl. rewrite lookup_singleton_eq. reflexivity.
  - intros _. rewrite lookup_singleton_eq. reflexivity.
Qed.

(** What [/grant_calendar] and [/revoke_calendar] write. *)
Lemma set_calendar_after_ensure target value p :
  Profiles.has_calendar_permission target
    (Profiles.set_calendar (Profiles.ensure_identity_struct p target) target value)
  = value.
Proof.
  unfold Profiles.has_calendar_permission, Profiles.set_calendar,
    Profiles.ensure_identity_struct. simpl.
  rewrite lookup_insert_eq. simpl. rewrite lookup_insert_eq. simpl.
  rewrite lookup_insert_eq. reflexivity.
Qed.

Lemma late_permissions name s f perms :
  stored_permissions name (profiles s) = Some perms ->
  stored_permissions name (profiles (fst (late h s f))) = Some perms.
Proof.
  intros Hp.
  assert (forall key, profiles (fst (navigate s key)) = profiles s) as Hnav.
  { intros key. unfold navigate. destruct (locked_like (identity s)); [reflexivity|].
    destruct (Profiles.places_of (profiles s) (identity s) !! key) as [d|]; [|reflexivity].
    destruct (truthy (Some d)); reflexivity. }
  assert (forall nav, profiles (fst (nav_or_chat s nav)) = profiles s) as Hchat.
  { intros [key|]; simpl; [apply Hnav | reflexivity]. }
  destruct f as [key|kv| |heard|nav]; simpl.
  - rewrite Hnav. exact Hp.
  - destruct (locked_like (identity s)); [exact Hp|].
    destruct kv as [[k v]|]; [|exact Hp]. simpl.
    rewrite stored_permissions_set_place. apply stored_permissions_ensure, Hp.
  - destruct (locked_like (identity s)); exact Hp.
  - destruct (negb (stt_available h)); [exact Hp|].
    destruct heard as [sp|]; [|exact Hp].
    specialize (Hchat (spoken_nav_place sp)).
    destruct (calendar_gate s) as [allowed reads].
    destruct (nav_or_chat s (spoken_nav_place sp)) as [s' evs]. simpl in Hchat.
    destruct allowed; [destruct (spoken_cal_handled sp)|]; simpl;
      try rewrite Hchat; exact Hp.
  - rewrite Hchat. exact Hp.
Qed.

(** A stored permission dictionary is changed by no command except a
    [/grant_calendar] or [/revoke_calendar] for that entry, typed while the
    identity is "Aldridge". *)
Lemma step_permissions name s c perms :
  stored_permissions name (profiles s) = Some perms ->
  stored_permissions name (profiles (fst (step cfg h s c))) = Some perms
  \/ (identity s = "Aldridge"%string
      /\ (c = CmdGrantCalendar name \/ c = CmdRevokeCalendar name)).
Proof.
  intros Hp.
  assert (forall target value,
            stored_permissions name
              (profiles (fst (set_calendar_permission s target value))) = Some perms
            \/ (identity s = "Aldridge"%string /\ target = name)) as Hset.
  { intros target value. unfold set_calendar_permission.
    destruct (String.eqb (identity s) "Aldridge") eqn:Ha; simpl; [|left; exact Hp].
    apply String.eqb_eq in Ha.
    destruct (negb (Personas.is_persona target)); [left; exact Hp|]. simpl.
    destruct (decide (target = name)) as [->|Hne]; [right; auto|].
    left. rewrite stored_permissions_set_calendar_other by exact Hne.
    apply stored_permissions_ensure, Hp. }
  destruct c; simpl; try (left; exact Hp).
  - left. destruct (negb (has_cv2 h)); [exact Hp|].
    destruct who as [who|]; [|exact Hp].
    destruct (negb (truthy (Some who))); [exact Hp|].
    destruct (negb (Personas.is_persona who)); [exact Hp|]. simpl.
    apply stored_permissions_ensure. exact Hp.
  - left. destruct (_ && _); [|exact Hp]. simpl.
    apply stored_permissions_ensure. exact Hp.
  - left. destruct (_ || _); simpl.
    + apply (stored_permissions_ensure name _ (profiles s)), Hp.
    + destruct (String.eqb (identity s) "LOCKED"); [exact Hp|].
      destruct (String.eqb (identity s) "guest"); exact Hp.
  - left. destruct (_ || _); [|exact Hp].
    destruct (Personas.is_persona (identity s)); [|exact Hp]. simpl.
    rewrite stored_permissions_set_tts. apply stored_permissions_ensure, Hp.
  - left. destruct idx; [|exact Hp].
    destruct (Personas.is_persona (identity s)); [|exact Hp]. simpl.
    rewrite stored_permissions_set_tts. apply stored_permissions_ensure, Hp.
  - left. destruct rate_val; [|exact Hp].
    destruct (Personas.is_persona (identity s)); [|exact Hp]. simpl.
    rewrite stored_permissions_set_tts. apply stored_permissions_ensure, Hp.
  - left. destruct (String.eqb arg "on"); [destruct (negb _)|destruct (String.eqb arg "off")];
      exact Hp.
  - destruct (Hset target true) as [H|[Ha ->]]; [left; exact H | right; auto].
  - destruct (Hset target false) as [H|[Ha ->]]; [left; exact H | right; auto].
  - left. destruct (locked_like (identity s)); [exact Hp|].
    destruct (negb _); exact Hp.
  - left. pose proof (late_permissions name s (shape u) perms Hp) as Hlate.
    destruct (calendar_gate s) as [allowed reads].
    destruct (late h s (shape u)) as [s' evs]. simpl in Hlate.
    destruct allowed; [destruct (cal_handled u)|destruct (has_cal_word u)]; simpl;
      auto.
Qed.

End PermissionFacts.

(** C10. An entry created by [ensure_identity_struct] gets the calendar
    permission true when the identity is "Aldridge" and false for any other
    identity. Afterwards [/grant_calendar] and [/revoke_calendar] are refused
    unless the session identity is "Aldridge"; typed by "Aldridge" for a
    persona they set its permission to true and to false; and no other
    command changes a stored permission dictionary. *)
Theorem calendar_permission_default_and_change :
  forall (cfg : Config.config) (h : Repl.host),
    (forall identity p,
       stored_permissions identity p = None ->
       Profiles.has_calendar_permission identity
         (Profiles.ensure_identity_struct p identity)
       = String.eqb identity "Aldridge")
    /\ (forall s target,
          Repl.identity s <> "Aldridge"%string ->
          Repl.step cfg h s (Repl.CmdGrantCalendar target)
          = (s, [Repl.Refused Repl.OnlyAldridge])
          /\ Repl.step cfg h s (Repl.CmdRevokeCalendar target)
             = (s, [Repl.Refused Repl.OnlyAldridge]))
    /\ (forall s target,
          Repl.identity s = "Aldridge"%string ->
          Personas.is_persona target = true ->
          Profiles.has_calendar_permission target
            (Repl.profiles (fst (Repl.step cfg h s (Repl.CmdGrantCalendar target))))
          = true
          /\ Profiles.has_calendar_permission target
               (Repl.profiles (fst (Repl.step cfg h s (Repl.CmdRevokeCalendar target))))
             = false)
    /\ (forall s c name perms,
          stored_permissions name (Repl.profiles s) = Some perms ->
          stored_permissions name (Repl.profiles (fst (Repl.step cfg h s c)))
          <> Some perms ->
          Repl.identity s = "Aldridge"%string
          /\ (c = Repl.CmdGrantCalendar name \/ c = Repl.CmdRevokeCalendar name)).
Proof.
  intros cfg h. split; [|split; [|split]].
  - intros identity p. apply ensure_default_permission.
  - intros s target Hne. apply String.eqb_neq in Hne.
    simpl. unfold Repl.set_calendar_permission. rewrite Hne. auto.
  - intros s target Ha Hp. simpl. unfold Repl.set_calendar_permission.
    rewrite Ha, Hp. simpl. rewrite !set_calendar_after_ensure. auto.
  - intros s c name perms Hp Hchanged.
    destruct (step_permissions cfg h name s c perms Hp) as [H|H]; [contradiction | exact H].
Qed.

Lemma calendar_permission_default_and_change_witness :
  stored_permissions "Aldridge" Profiles.no_profiles = None
  /\ Profiles.has_calendar_permission "Aldridge"
       (Profiles.ensure_identity_struct Profiles.no_profiles "Aldridge") = true
  /\ Profiles.has_calendar_permission "Professor"
       (Profiles.ensure_identity_struct Profiles.no_profiles "Professor") = false
  /\ Repl.identity (ExampleSession.locked_start Profiles.no_profiles) <> "Aldridge"%string
  /\ Repl.step Config.defaults ExampleSession.host
       (ExampleSession.locked_start Profiles.no_profiles)
       (Repl.CmdGrantCalendar "Professor")
     = (ExampleSession.locked_start Profiles.no_profiles,
        [Repl.Refused Repl.OnlyAldridge])
  /\ Repl.identity ExampleSession.aldridge_session = "Aldridge"%string
  /\ Profiles.has_calendar_permission "Professor"
       (Repl.profiles
          (fst (Repl.step Config.defaults ExampleSession.host
                  ExampleSession.aldridge_session
                  (Repl.CmdGrantCalendar "Professor")))) = true
  /\ (stored_permissions "Aldridge"
        (Repl.profiles
           (fst (Repl.step Config.defaults ExampleSession.host
                   ExampleSession.aldridge_session
                   (Repl.CmdRevokeCalendar "Aldridge"))))
      <> Some {[ "calendar"%string := true ]})
  /\ Repl.identity ExampleSession.aldridge_session = "Aldridge"%string.
Proof.
  destruct (calendar_permission_default_and_change Config.defaults ExampleSession.host)
    as (Hdefault & Hrefused & Hset & Honly).
  assert (stored_permissions "Aldridge"
            (Repl.profiles
               (fst (Repl.step Config.defaults ExampleSession.host
                       ExampleSession.aldridge_session
                       (Repl.CmdRevokeCalendar "Aldridge"))))
          <> Some {[ "calendar"%string := true ]}) as Hchanged.
  { intros H.
    apply (f_equal (fun o => o ≫= (fun m : gmap string bool => m !! "calendar"%string))) in H.
    vm_compute in H. discriminate. }
  split; [reflexivity|].
  split; [exact (Hdefault "Aldridge"%string Profiles.no_profiles eq_refl)|].
  split; [exact (Hdefault "Professor"%string Profiles.no_profiles eq_refl)|].
  split; [discriminate|].
  split.
  { apply (Hrefused (ExampleSession.locked_start Profiles.no_profiles)). discriminate. }
  split; [reflexivity|].
  split.
  { apply (Hset ExampleSession.aldridge_session "Professor"%string); reflexivity. }
  split; [exact Hchanged|].
  apply (Honly ExampleSession.aldridge_session (Repl.CmdRevokeCalendar "Aldridge")
           "Aldridge"%string {[ "calendar"%string := true ]});
    [vm_compute; reflexivity | exact Hchanged].
Defined.

(** * Further properties of the code *)

(** ** Opening a camera *)

Section CameraFacts.

Import Camera.

Lemma range_In z lo hi : In z (range lo hi) <-> lo <= z < hi.
Proof.
  unfold range. rewrite in_map_iff. split.
  - intros (i & <- & Hi). apply in_seq in Hi. lia.
  - intros Hz. exists (Z.to_nat (z - lo)). split; [lia|]. apply in_seq. lia.
Qed.

Lemma range_NoDup lo hi : List.NoDup (range lo hi).
Proof.
  unfold range. generalize (Z.to_nat (hi - lo)) as n. generalize 0%nat as start.
  intros start n. revert start.
  induction n as [|n IH]; intros start; simpl; constructor.
  - rewrite in_map_iff. intros (i & Hi & Hin). apply in_seq in Hin. lia.
  - apply IH.
Qed.

Lemma preferred_order_NoDup kn max_indices :
  List.NoDup (preferred_order kn max_indices).
Proof.
  unfold preferred_order. destruct (PREFER_EXTERNAL kn); simpl.
  - constructor.
    { simpl. rewrite range_In. intros [H|H]; [discriminate | lia]. }
    constructor; [rewrite range_In; lia | apply range_NoDup].
  - constructor; [rewrite range_In; lia | apply range_NoDup].
Qed.

Lemma preferred_order_covers kn max_indices z :
  0 <= z <= max_indices -> In z (preferred_order kn max_indices).
Proof.
  intros Hz. unfold preferred_order. destruct (PREFER_EXTERNAL kn); simpl.
  - destruct (Z.eq_dec z 1) as [->|H1]; [auto|].
    destruct (Z.eq_dec z 0) as [->|H0]; [auto|].
    right; right. apply range_In. lia.
  - destruct (Z.eq_dec z 0) as [->|H0]; [auto|].
    right. apply range_In. lia.
Qed.

Lemma preferred_loop_mono opens order : forall tried,
  tried ⊆ snd (preferred_loop opens order tried).
Proof.
  induction order as [|idx rest IH]; intros tried; simpl; [set_solver|].
  destruct (bool_decide (idx ∈ tried)); [apply IH|].
  destruct (opens idx); simpl; [set_solver|].
  specialize (IH ({[idx]} ∪ tried)). set_solver.
Qed.

(** On an order without repetition, none of it tried yet, the first loop
    returns the first index that opens; when none opens, all of the order
    has been tried. *)
Lemma preferred_loop_find opens order : forall tried,
  List.NoDup order ->
  (forall x, In x order -> x ∉ tried) ->
  fst (preferred_loop opens order tried) = List.find opens order
  /\ (List.find opens order = None ->
      forall x, In x order -> x ∈ snd (preferred_loop opens order tried)).
Proof.
  induction order as [|idx rest IH]; intros tried Hnd Hfresh; simpl.
  - split; [reflexivity | intros _ x []].
  - inversion Hnd as [|? ? Hnotin Hnd']; subst.
    rewrite bool_decide_eq_false_2 by (apply Hfresh; left; reflexivity).
    destruct (opens idx) eqn:Ho; simpl; [split; [reflexivity | discriminate]|].
    destruct (IH ({[idx]} ∪ tried) Hnd') as [Hfst Hsnd].
    { intros x Hx. pose proof (Hfresh x (or_intror Hx)).
      assert (x <> idx) by (intros ->; contradiction). set_solver. }
    split; [exact Hfst|].
    intros Hnone x [<-|Hx]; [|apply Hsnd; assumption].
    pose proof (preferred_loop_mono opens rest ({[idx]} ∪ tried)). set_solver.
Qed.

Lemma last_sweep_tried opens order tried :
  (forall x, In x order -> x ∈ tried) -> last_sweep opens order tried = None.
Proof.
  induction order as [|idx rest IH]; intros Hall; simpl; [reflexivity|].
  rewrite bool_decide_eq_true_2 by (apply Hall; left; reflexivity).
  apply IH. intros x Hx. apply Hall. right. exact Hx.
Qed.

(** Without a forced index the function returns the first index of the
    preferred order that opens; the last sweep finds nothing new. *)
Lemma open_camera_auto_find kn opens max_indices for_purpose :
  override "enroll" for_purpose (ENROLL_CAMERA_INDEX kn) = None ->
  override "recognize" for_purpose (RECOG_CAMERA_INDEX kn) = None ->
  CAMERA_INDEX kn < 0 ->
  _open_camera true kn opens max_indices for_purpose
  = Return (List.find opens (preferred_order kn max_indices)).
Proof.
  intros He Hr Hc. unfold _open_camera. simpl. rewrite He, Hr.
  destruct (0 <=? CAMERA_INDEX kn) eqn:E; [apply Z.leb_le in E; lia|].
  destruct (preferred_loop_find opens (preferred_order kn max_indices) ∅
              (preferred_order_NoDup kn max_indices)) as [Hfst Hsnd].
  { intros x _. set_solver. }
  destruct (preferred_loop opens (preferred_order kn max_indices) ∅) as [[idx|] tried];
    simpl in *.
  - rewrite <- Hfst. reflexivity.
  - rewrite <- Hfst. rewrite last_sweep_tried; [reflexivity|].
    intros x Hx. apply Hsnd; [auto|]. apply preferred_order_covers.
    apply range_In in Hx. lia.
Qed.

End CameraFacts.

(** X1. [_open_camera]: without OpenCV it returns no camera. An index forced
    for the purpose ([ENROLL_CAMERA_INDEX] for "enroll", [RECOG_CAMERA_INDEX]
    for "recognize") or, failing that, a non-negative [CAMERA_INDEX], is the
    only index tried: the result is that camera or none, never another one.
    Otherwise the result is the first index of the preferred order that
    opens (1, 0, 2, ... when external cameras are preferred, else 0, 1, 2,
    ...), and a camera is found whenever one of 0..max_indices opens. *)
Theorem open_camera_selection :
  forall (kn : Camera.knobs) (opens : Z -> bool) (max_indices : Z)
         (for_purpose : option string),
    Camera._open_camera false kn opens max_indices for_purpose = Return None
    /\ (forall i,
          Camera.override "enroll" for_purpose (Camera.ENROLL_CAMERA_INDEX kn)
          = Some (Some i) ->
          Camera._open_camera true kn opens max_indices for_purpose
          = Return (if opens i then Some i else None))
    /\ (forall i,
          Camera.override "enroll" for_purpose (Camera.ENROLL_CAMERA_INDEX kn) = None ->
          Camera.override "recognize" for_purpose (Camera.RECOG_CAMERA_INDEX kn)
          = Some (Some i) ->
          Camera._open_camera true kn opens max_indices for_purpose
          = Return (if opens i then Some i else None))
    /\ (Camera.override "enroll" for_purpose (Camera.ENROLL_CAMERA_INDEX kn) = None ->
        Camera.override "recognize" for_purpose (Camera.RECOG_CAMERA_INDEX kn) = None ->
        (0 <= Camera.CAMERA_INDEX kn ->
         Camera._open_camera true kn opens max_indices for_purpose
         = Return (if opens (Camera.CAMERA_INDEX kn)
                   then Some (Camera.CAMERA_INDEX kn) else None))
        /\ (Camera.CAMERA_INDEX kn < 0 ->
            Camera._open_camera true kn opens max_indices for_purpose
            = Return (List.find opens (Camera.preferred_order kn max_indices))
            /\ ((exists i, 0 <= i <= max_indices /\ opens i = true) ->
                exists j,
                  Camera._open_camera true kn opens max_indices for_purpose
                  = Return (Some j) /\ opens j = true))).
Proof.
  intros kn opens max_indices for_purpose.
  split; [reflexivity|]. split; [|split].
  - intros i He. unfold Camera._open_camera. simpl. rewrite He. reflexivity.
  - intros i He Hr. unfold Camera._open_camera. simpl. rewrite He, Hr. reflexivity.
  - intros He Hr. split.
    + intros Hc. unfold Camera._open_camera. simpl. rewrite He, Hr.
      apply Z.leb_le in Hc. rewrite Hc. reflexivity.
    + intros Hc.
      pose proof (open_camera_auto_find kn opens max_indices for_purpose He Hr Hc) as Hfind.
      split; [exact Hfind|].
      intros (i & Hi & Ho). rewrite Hfind.
      destruct (List.find opens (Camera.preferred_order kn max_indices)) as [j|] eqn:Hj.
      * exists j. split; [reflexivity|]. apply find_some in Hj. apply Hj.
      * exfalso. pose proof (find_none _ _ Hj i
                               (preferred_order_covers kn max_indices i Hi)).
        congruence.
Qed.

Lemma open_camera_selection_witness :
  Camera.override "recognize" (Some "recognize"%string)
    (Camera.RECOG_CAMERA_INDEX ExampleCamera.forced_recognition) = Some (Some 2)
  /\ Camera._open_camera true ExampleCamera.forced_recognition
       ExampleCamera.only_builtin 3 (Some "recognize"%string) = Return None
  /\ Camera.CAMERA_INDEX Camera.default_knobs < 0
  /\ (exists j,
        Camera._open_camera true Camera.default_knobs ExampleCamera.only_builtin 3
          (Some "recognize"%string) = Return (Some j)
        /\ ExampleCamera.only_builtin j = true).
Proof.
  split; [reflexivity|]. split.
  - destruct (open_camera_selection ExampleCamera.forced_recognition
                ExampleCamera.only_builtin 3 (Some "recognize"%string))
      as (_ & _ & Hrecog & _).
    apply (Hrecog 2); reflexivity.
  - split; [reflexivity|].
    destruct (open_camera_selection Camera.default_knobs ExampleCamera.only_builtin 3
                (Some "recognize"%string)) as (_ & _ & _ & Hauto).
    destruct (Hauto eq_refl eq_refl) as [_ Hneg].
    destruct (Hneg eq_refl) as [_ Hfound].
    apply Hfound. exists 0. split; [lia | reflexivity].
Defined.

(** ** Profile entries *)

Section ProfileStoreFacts.


Lemma records_ensure_other p i j :
  i <> j ->
  Profiles.records (Profiles.ensure_identity_struct p i) !! j = Profiles.records p !! j.
Proof. intros Hne. simpl. apply lookup_insert_ne. exact Hne. Qed.

Lemma records_set_tts_other p i f j :
  i <> j -> Profiles.records (Profiles.set_tts p i f) !! j = Profiles.records p !! j.
Proof.
  intros Hne. unfold Profiles.set_tts. simpl.
  destruct (Profiles.records p !! i); [apply lookup_insert_ne, Hne | reflexivity].
Qed.

Lemma records_set_place_other p i k v j :
  i <> j -> Profiles.records (Profiles.set_place p i k v) !! j = Profiles.records p !! j.
Proof.
  intros Hne. unfold Profiles.set_place. simpl.
  destruct (Profiles.records p !! i); [apply lookup_insert_ne, Hne | reflexivity].
Qed.

Lemma records_set_calendar_other p i value j :
  i <> j ->
  Profiles.records (Profiles.set_calendar p i value) !! j = Profiles.records p !! j.
Proof.
  intros Hne. unfold Profiles.set_calendar. simpl.
  destruct (Profiles.records p !! i); [apply lookup_insert_ne, Hne | reflexivity].
Qed.

Lemma places_after_set_place p i k v :
  Profiles.places_of (Profiles.set_place (Profiles.ensure_identity_struct p i) i k v) i
  = <[ k := v ]> (Profiles.places_of p i).
Proof.
  unfold Profiles.places_of, Profiles.set_place, Profiles.ensure_identity_struct.
  simpl. rewrite lookup_insert_eq. simpl. rewrite lookup_insert_eq. simpl.
  destruct (Profiles.records p !! i) as [r|]; simpl; [|reflexivity].
  destruct (Profiles.places r); reflexivity.
Qed.

End ProfileStoreFacts.



(** ** More on the session *)

Section SessionMoreFacts.

Import Repl.

Variable cfg : Config.config.
Variable h : host.

Lemma persona_cases name :
  Personas.is_persona name = true ->
  name = "Aldridge"%string \/ name = "Professor"%string \/ name = "Guest"%string.
Proof.
  unfold Personas.is_persona. simpl. intros H.
  repeat (apply orb_true_iff in H as [H|H];
          [apply String.eqb_eq in H; auto|]).
  discriminate.
Qed.

Lemma login_target_cases devname :
  Personas.is_persona devname && negb (String.eqb (Str.lower devname) "guest") = true
  <-> devname = "Aldridge"%string \/ devname = "Professor"%string.
Proof.
  split.
  - intros H. apply andb_true_iff in H as [Hp Hg].
    destruct (persona_cases devname Hp) as [->|[->| ->]]; auto. discriminate.
  - intros [->| ->]; reflexivity.
Qed.

Lemma navigate_session s key : fst (navigate s key) = s.
Proof.
  unfold navigate. destruct (locked_like (identity s)); [reflexivity|].
  destruct (Profiles.places_of (profiles s) (identity s) !! key) as [d|]; [|reflexivity].
  destruct (truthy (Some d)); reflexivity.
Qed.

Lemma nav_or_chat_session s nav : fst (nav_or_chat s nav) = s.
Proof. destruct nav; simpl; [apply navigate_session | reflexivity]. Qed.

(** The profiles after an input past [/agenda]: unchanged, or one place
    saved in the entry of the current identity. *)
Lemma late_profiles s f :
  profiles (fst (late h s f)) = profiles s
  \/ (locked_like (identity s) = false
      /\ exists k v,
           f = FSetPlace (Some (k, v))
           /\ profiles (fst (late h s f))
              = Profiles.set_place
                  (Profiles.ensure_identity_struct (profiles s) (identity s))
                  (identity s) k v).
Proof.
  destruct f as [key|kv| |heard|nav]; simpl.
  - left. rewrite navigate_session. reflexivity.
  - destruct (locked_like (identity s)) eqn:Hl; [left; reflexivity|].
    destruct kv as [[k v]|]; [|left; reflexivity].
    right. split; [reflexivity|]. exists k, v. auto.
  - left. destruct (locked_like (identity s)); reflexivity.
  - left. destruct (negb (stt_available h)); [reflexivity|].
    destruct heard as [sp|]; [|reflexivity].
    pose proof (nav_or_chat_session s (spoken_nav_place sp)) as Hn.
    destruct (calendar_gate s) as [allowed reads].
    destruct (nav_or_chat s (spoken_nav_place sp)) as [s' evs]. simpl in Hn. subst s'.
    destruct allowed; [destruct (spoken_cal_handled sp)|]; reflexivity.
  - left. rewrite nav_or_chat_session. reflexivity.
Qed.

Lemma other_profiles s u :
  profiles (fst (step cfg h s (CmdOther u))) = profiles (fst (late h s (shape u)))
  \/ profiles (fst (step cfg h s (CmdOther u))) = profiles s.
Proof.
  simpl. destruct (calendar_gate s) as [allowed reads].
  destruct (late h s (shape u)) as [s' evs]. simpl.
  destruct allowed; [destruct (cal_handled u)|destruct (has_cal_word u)]; simpl; auto.
Qed.

End SessionMoreFacts.

(** X3. [/login <name>] logs in exactly for the names "Aldridge" and
    "Professor": the identity becomes the name and it is written as last
    identity. For every other name, "Guest" in any spelling included, the
    command is refused and the session stays as it is. *)
Theorem login_accepts_two_targets :
  forall (cfg : Config.config) (h : Repl.host) (s : Repl.session) (devname : string),
    (devname = "Aldridge"%string \/ devname = "Professor"%string ->
     Repl.step cfg h s (Repl.CmdLogin devname) = (Repl.log_in cfg h s devname, [])
     /\ Repl.identity (fst (Repl.step cfg h s (Repl.CmdLogin devname))) = devname
     /\ Profiles.last_identity
          (Repl.profiles (fst (Repl.step cfg h s (Repl.CmdLogin devname))))
        = Some devname)
    /\ (devname <> "Aldridge"%string -> devname <> "Professor"%string ->
        Repl.step cfg h s (Repl.CmdLogin devname)
        = (s, [Repl.Refused Repl.LoginTargetNotAllowed])).
Proof.
  intros cfg h s devname. split.
  - intros Hd. apply login_target_cases in Hd. simpl. rewrite Hd. auto.
  - intros Ha Hp. simpl.
    destruct (Personas.is_persona devname
              && negb (String.eqb (Str.lower devname) "guest")) eqn:E; [|reflexivity].
    apply login_target_cases in E. tauto.
Qed.

Lemma login_accepts_two_targets_witness :
  Repl.identity
    (fst (Repl.step Config.defaults ExampleSession.host
            (ExampleSession.locked_start Profiles.no_profiles)
            (Repl.CmdLogin "Professor"))) = "Professor"%string
  /\ "GUEST"%string <> "Aldridge"%string
  /\ "GUEST"%string <> "Professor"%string
  /\ Repl.step Config.defaults ExampleSession.host
       (ExampleSession.locked_start Profiles.no_profiles) (Repl.CmdLogin "GUEST")
     = (ExampleSession.locked_start Profiles.no_profiles,
        [Repl.Refused Repl.LoginTargetNotAllowed]).
Proof.
  destruct (login_accepts_two_targets Config.defaults ExampleSession.host
              (ExampleSession.locked_start Profiles.no_profiles) "Professor")
    as [Hyes _].
  destruct (login_accepts_two_targets Config.defaults ExampleSession.host
              (ExampleSession.locked_start Profiles.no_profiles) "GUEST")
    as [_ Hno].
  split; [apply Hyes; right; reflexivity|].
  split; [discriminate|]. split; [discriminate|].
  apply Hno; discriminate.
Defined.

(** X4. A locked or guest session becomes an authenticated one by two
    commands only: a [/recognize] whose recognition returns a key of
    [PERSONAS], with OpenCV present, or a [/login] as "Aldridge" or
    "Professor". [/switch] leads from "LOCKED" to "guest" and nowhere from
    "guest". *)
Theorem leaving_locked_needs_recognition_or_login :
  forall (cfg : Config.config) (h : Repl.host) (s : Repl.session) (c : Repl.command),
    Repl.locked_like (Repl.identity s) = true ->
    Repl.locked_like (Repl.identity (fst (Repl.step cfg h s c))) = false ->
    (exists name,
       c = Repl.CmdRecognize (Some name)
       /\ Repl.has_cv2 h = true
       /\ Personas.is_persona name = true
       /\ Repl.identity (fst (Repl.step cfg h s c)) = name)
    \/ (exists devname,
          c = Repl.CmdLogin devname
          /\ (devname = "Aldridge"%string \/ devname = "Professor"%string)
          /\ Repl.identity (fst (Repl.step cfg h s c)) = devname).
Proof.
  intros cfg h s c Hl Hout.
  destruct (step_identity cfg h s c)
    as [H|[(name & -> & Hp & H)|[(dev & -> & Hp & Hg & H)|[[-> H]|[-> H]]]]].
  - rewrite H in Hout. congruence.
  - left. exists name. repeat split; auto.
    destruct (Repl.has_cv2 h) eqn:Hcv; [reflexivity|].
    simpl in Hout. rewrite Hcv in Hout. simpl in Hout. congruence.
  - right. exists dev. split; [reflexivity|]. split; [|exact H].
    apply login_target_cases. rewrite Hp, Hg. reflexivity.
  - rewrite H in Hout. discriminate.
  - exfalso. clear H. simpl in Hout.
    destruct (locked_like_cases _ Hl) as [E|E]; rewrite E in Hout; simpl in Hout;
      rewrite ?E in Hout; vm_compute in Hout; discriminate.
Qed.

Lemma leaving_locked_needs_recognition_or_login_witness :
  Repl.locked_like
    (Repl.identity (ExampleSession.locked_start Profiles.no_profiles)) = true
  /\ Repl.locked_like
       (Repl.identity
          (fst (Repl.step Config.defaults ExampleSession.host
                  (ExampleSession.locked_start Profiles.no_profiles)
                  (Repl.CmdRecognize (Some "Aldridge"%string))))) = false
  /\ ((exists name,
         Repl.CmdRecognize (Some "Aldridge"%string) = Repl.CmdRecognize (Some name)
         /\ Repl.has_cv2 ExampleSession.host = true
         /\ Personas.is_persona name = true
         /\ Repl.identity
              (fst (Repl.step Config.defaults ExampleSession.host
                      (ExampleSession.locked_start Profiles.no_profiles)
                      (Repl.CmdRecognize (Some "Aldridge"%string)))) = name)
      \/ (exists devname,
            Repl.CmdRecognize (Some "Aldridge"%string) = Repl.CmdLogin devname
            /\ (devname = "Aldridge"%string \/ devname = "Professor"%string)
            /\ Repl.identity
                 (fst (Repl.step Config.defaults ExampleSession.host
                         (ExampleSession.locked_start Profiles.no_profiles)
                         (Repl.CmdRecognize (Some "Aldridge"%string)))) = devname)).
Proof.
  split; [reflexivity|]. split; [reflexivity|].
  apply (leaving_locked_needs_recognition_or_login Config.defaults ExampleSession.host
           (ExampleSession.locked_start Profiles.no_profiles)
           (Repl.CmdRecognize (Some "Aldridge"%string)));
    reflexivity.
Defined.

(** X5. While the session is locked or a guest session, no command but
    [/recognize] and [/login] changes the profiles: speech settings, places
    and permissions stay as stored. *)
Theorem locked_session_keeps_store :
  forall (cfg : Config.config) (h : Repl.host) (s : Repl.session) (c : Repl.command),
    Repl.locked_like (Repl.identity s) = true ->
    (forall who, c <> Repl.CmdRecognize who) ->
    (forall devname, c <> Repl.CmdLogin devname) ->
    Repl.profiles (fst (Repl.step cfg h s c)) = Repl.profiles s.
Proof.
  intros cfg h s c Hl Hrec Hlog.
  pose proof (locked_like_not_persona _ Hl) as Hp.
  destruct c; simpl; try reflexivity.
  - exfalso. apply (Hrec who). reflexivity.
  - exfalso. apply (Hlog devname). reflexivity.
  - destruct (locked_like_cases _ Hl) as [E|E]; rewrite E; reflexivity.
  - destruct (_ || _); [|reflexivity]. rewrite Hp. reflexivity.
  - destruct idx; [rewrite Hp|]; reflexivity.
  - destruct rate_val; [rewrite Hp|]; reflexivity.
  - destruct (String.eqb arg "on"); [destruct (negb _)|destruct (String.eqb arg "off")];
      reflexivity.
  - unfold Repl.set_calendar_permission.
    destruct (locked_like_cases _ Hl) as [E|E]; rewrite E; reflexivity.
  - unfold Repl.set_calendar_permission.
    destruct (locked_like_cases _ Hl) as [E|E]; rewrite E; reflexivity.
  - rewrite Hl. reflexivity.
  - destruct (step_locked cfg h s (Repl.CmdOther u) Hl) as [_ Hs].
    simpl in Hs. rewrite Hs; reflexivity.
Qed.

Lemma locked_session_keeps_store_witness :
  Repl.locked_like
    (Repl.identity (ExampleSession.locked_start ExampleSession.granting_store)) = true
  /\ Repl.profiles
       (fst (Repl.step Config.defaults ExampleSession.host
               (ExampleSession.locked_start ExampleSession.granting_store)
               (Repl.CmdTts "off")))
     = Repl.profiles (ExampleSession.locked_start ExampleSession.granting_store).
Proof.
  split; [reflexivity|].
  apply (locked_session_keeps_store Config.defaults ExampleSession.host
           (ExampleSession.locked_start ExampleSession.granting_store)
           (Repl.CmdTts "off")); [reflexivity | discriminate | discriminate].
Defined.

(** X6. A command changes no entry of the profiles other than the entry of
    the identity that types it, of the identity it leads to, or of the
    target of a [/grant_calendar] or [/revoke_calendar]. *)
Theorem step_touches_own_record :
  forall (cfg : Config.config) (h : Repl.host) (s : Repl.session) (c : Repl.command)
         (name : string),
    name <> Repl.identity s ->
    name <> Repl.identity (fst (Repl.step cfg h s c)) ->
    c <> Repl.CmdGrantCalendar name ->
    c <> Repl.CmdRevokeCalendar name ->
    Profiles.records (Repl.profiles (fst (Repl.step cfg h s c))) !! name
    = Profiles.records (Repl.profiles s) !! name.
Proof.
  intros cfg h s c name Hself Hnew Hgrant Hrevoke.
  assert (forall target value,
            target <> name ->
            Profiles.records
              (Repl.profiles (fst (Repl.set_calendar_permission s target value)))
            !! name = Profiles.records (Repl.profiles s) !! name) as Hset.
  { intros target value Hne. unfold Repl.set_calendar_permission.
    destruct (negb _); [reflexivity|]. destruct (negb _); [reflexivity|].
    cbn [fst Repl.profiles Repl.with_profiles].
    rewrite records_set_calendar_other, records_ensure_other by exact Hne.
    reflexivity. }
  destruct c; simpl in *; try reflexivity.
  - destruct (negb (Repl.has_cv2 h)); [reflexivity|].
    destruct who as [who|]; [|reflexivity].
    destruct (negb (truthy (Some who))); [reflexivity|].
    destruct (negb (Personas.is_persona who)); [reflexivity|]. simpl in *.
    apply lookup_insert_ne. congruence.
  - destruct (_ && _); [|reflexivity]. simpl in *.
    apply lookup_insert_ne. congruence.
  - destruct (_ || _); simpl in *.
    + apply lookup_insert_ne. congruence.
    + destruct (String.eqb (Repl.identity s) "LOCKED"); [reflexivity|].
      destruct (String.eqb (Repl.identity s) "guest"); reflexivity.
  - destruct (_ || _); [|reflexivity].
    destruct (Personas.is_persona (Repl.identity s)); [|reflexivity].
    cbn [fst Repl.profiles Repl.with_profiles].
    rewrite records_set_tts_other, records_ensure_other by congruence. reflexivity.
  - destruct idx; [|reflexivity].
    destruct (Personas.is_persona (Repl.identity s)); [|reflexivity].
    cbn [fst Repl.profiles Repl.with_profiles].
    rewrite records_set_tts_other, records_ensure_other by congruence. reflexivity.
  - destruct rate_val; [|reflexivity].
    destruct (Personas.is_persona (Repl.identity s)); [|reflexivity].
    cbn [fst Repl.profiles Repl.with_profiles].
    rewrite records_set_tts_other, records_ensure_other by congruence. reflexivity.
  - destruct (String.eqb arg "on"); [destruct (negb _)|destruct (String.eqb arg "off")];
      reflexivity.
  - apply Hset. congruence.
  - apply Hset. congruence.
  - destruct (Repl.locked_like (Repl.identity s)); [reflexivity|].
    destruct (negb _); reflexivity.
  - clear Hnew.
    destruct (other_profiles cfg h s u) as [Ho|Ho]; simpl in Ho; rewrite Ho;
      [|reflexivity].
    destruct (late_profiles h s (Repl.shape u)) as [Hl|(_ & k & v & _ & Hl)];
      rewrite Hl; [reflexivity|].
    rewrite records_set_place_other, records_ensure_other by congruence. reflexivity.
Qed.

Lemma step_touches_own_record_witness :
  "guest"%string <> Repl.identity ExampleSession.aldridge_session
  /\ Profiles.records
       (Repl.profiles
          (fst (Repl.step Config.defaults ExampleSession.host
                  ExampleSession.aldridge_session ExampleSession.save_home)))
     !! "guest"%string
     = Profiles.records (Repl.profiles ExampleSession.aldridge_session) !! "guest"%string.
Proof.
  split; [discriminate|].
  apply (step_touches_own_record Config.defaults ExampleSession.host
           ExampleSession.aldridge_session ExampleSession.save_home "guest");
    discriminate.
Defined.

(** X7. The identity of every session the program reaches is one of
    "LOCKED", "guest", "Aldridge", "Professor" and "Guest". *)
Theorem reachable_identities :
  forall (cfg : Config.config) (h : Repl.host) (s : Repl.session),
    Repl.reachable cfg h s ->
    Repl.identity s = "LOCKED"%string
    \/ Repl.identity s = "guest"%string
    \/ Repl.identity s = "Aldridge"%string
    \/ Repl.identity s = "Professor"%string
    \/ Repl.identity s = "Guest"%string.
Proof.
  intros cfg h s Hs.
  destruct (reachable_identity cfg h s Hs) as [Hl|Hp].
  - destruct (locked_like_cases _ Hl); auto.
  - destruct (persona_cases _ Hp) as [H|[H|H]]; auto.
Qed.

Lemma reachable_identities_witness :
  Repl.reachable Config.defaults ExampleSession.host ExampleSession.aldridge_session
  /\ (Repl.identity ExampleSession.aldridge_session = "LOCKED"%string
      \/ Repl.identity ExampleSession.aldridge_session = "guest"%string
      \/ Repl.identity ExampleSession.aldridge_session = "Aldridge"%string
      \/ Repl.identity ExampleSession.aldridge_session = "Professor"%string
      \/ Repl.identity ExampleSession.aldridge_session = "Guest"%string).
Proof.
  assert (Repl.reachable Config.defaults ExampleSession.host
            ExampleSession.aldridge_session) as Hr.
  { apply Repl.reachable_step. apply Repl.reachable_start. }
  split; [exact Hr|].
  apply (reachable_identities Config.defaults ExampleSession.host _ Hr).
Defined.

Section LastIdentityFacts.

Import Repl.

Variable cfg : Config.config.
Variable h : host.

Lemma late_last_identity s f :
  Profiles.last_identity (profiles (fst (late h s f)))
  = Profiles.last_identity (profiles s).
Proof.
  destruct (late_profiles h s f) as [H|(_ & k & v & _ & H)]; rewrite H; [reflexivity|].
  unfold Profiles.set_place. reflexivity.
Qed.

(** A command either keeps the last identity, and then the identity stays or
    becomes locked-like, or writes the new identity, a key of [PERSONAS]. *)
Lemma step_last_identity s c :
  (Profiles.last_identity (profiles (fst (step cfg h s c)))
   = Profiles.last_identity (profiles s)
   /\ (identity (fst (step cfg h s c)) = identity s
       \/ locked_like (identity (fst (step cfg h s c))) = true))
  \/ (Profiles.last_identity (profiles (fst (step cfg h s c)))
      = Some (identity (fst (step cfg h s c)))
      /\ Personas.is_persona (identity (fst (step cfg h s c))) = true).
Proof.
  destruct c; simpl; try (left; split; [reflexivity | left; reflexivity]).
  - destruct (negb (has_cv2 h)); [left; auto|].
    destruct who as [who|]; [|left; auto].
    destruct (negb (truthy (Some who))); [left; auto|].
    destruct (Personas.is_persona who) eqn:Hp; simpl; [|left; auto].
    right. auto.
  - left. split; [reflexivity | right; reflexivity].
  - destruct (Personas.is_persona devname) eqn:Hp; simpl; [|left; auto].
    destruct (negb _); simpl; [|left; auto]. right. auto.
  - destruct (String.eqb (identity s) "Aldridge") eqn:Ha; simpl.
    { right. auto. }
    destruct (String.eqb (identity s) "Professor") eqn:Hpr; simpl.
    { right. auto. }
    destruct (String.eqb (identity s) "LOCKED"); simpl.
    { left. split; [reflexivity | right; reflexivity]. }
    destruct (String.eqb (identity s) "guest"); left; auto.
  - left. destruct (_ || _); [|auto].
    destruct (Personas.is_persona (identity s)); [|auto]. simpl.
    unfold Profiles.set_tts. simpl. auto.
  - left. destruct idx; [|auto].
    destruct (Personas.is_persona (identity s)); [|auto].
    unfold Profiles.set_tts. simpl. auto.
  - left. destruct rate_val; [|auto].
    destruct (Personas.is_persona (identity s)); [|auto].
    unfold Profiles.set_tts. simpl. auto.
  - left. destruct (String.eqb arg "on"); [destruct (negb _)|destruct (String.eqb arg "off")];
      auto.
  - left. unfold set_calendar_permission.
    destruct (negb _); [auto|]. destruct (negb _); [auto|].
    unfold Profiles.set_calendar. simpl. auto.
  - left. unfold set_calendar_permission.
    destruct (negb _); [auto|]. destruct (negb _); [auto|].
    unfold Profiles.set_calendar. simpl. auto.
  - left. destruct (locked_like (identity s)); [auto|]. destruct (negb _); auto.
  - left. pose proof (late_last_identity s (shape u)) as Hlast.
    pose proof (late_identity h s (shape u)) as Hid.
    destruct (calendar_gate s) as [allowed reads].
    destruct (late h s (shape u)) as [s' evs]. simpl in *.
    destruct allowed; [destruct (cal_handled u)|destruct (has_cal_word u)]; simpl;
      auto.
Qed.

End LastIdentityFacts.

(** X8. The last identity stored in the profiles follows the logins: a
    command that leads to another, authenticated identity writes it as last
    identity, and a command writes nothing else there ([/lock] and the guest
    switch leave it). In non-strict mode a start without a recognized
    persona resumes the stored last identity when it is a key of
    [PERSONAS]. *)
Theorem last_identity_follows_login :
  forall (cfg : Config.config) (h : Repl.host) (s : Repl.session) (c : Repl.command),
    (Profiles.last_identity (Repl.profiles (fst (Repl.step cfg h s c)))
     = Profiles.last_identity (Repl.profiles s)
     \/ Profiles.last_identity (Repl.profiles (fst (Repl.step cfg h s c)))
        = Some (Repl.identity (fst (Repl.step cfg h s c))))
    /\ (Repl.identity (fst (Repl.step cfg h s c)) <> Repl.identity s ->
        Repl.locked_like (Repl.identity (fst (Repl.step cfg h s c))) = false ->
        Profiles.last_identity (Repl.profiles (fst (Repl.step cfg h s c)))
        = Some (Repl.identity (fst (Repl.step cfg h s c))))
    /\ (forall who name,
          Config.STRICT_AUTH cfg = false ->
          Repl.persona_of who = None ->
          Profiles.last_identity (Repl.profiles (fst (Repl.step cfg h s c))) = Some name ->
          Personas.is_persona name = true ->
          Repl.startup_choice cfg who (Repl.profiles (fst (Repl.step cfg h s c)))
          = (name, true)).
Proof.
  intros cfg h s c. split; [|split].
  - destruct (step_last_identity cfg h s c) as [[H _]|[H _]]; auto.
  - intros Hne Hl. destruct (step_last_identity cfg h s c) as [[_ [H|H]]|[H _]];
      [contradiction | congruence | exact H].
  - intros who name Hs Hw Hlast Hp. unfold Repl.startup_choice.
    rewrite Hs, Hw, Hlast, Hp. reflexivity.
Qed.

Lemma last_identity_follows_login_witness :
  Repl.identity
    (fst (Repl.step Config.defaults ExampleSession.host
            ExampleSession.aldridge_session Repl.CmdSwitch))
  <> Repl.identity ExampleSession.aldridge_session
  /\ Repl.locked_like
       (Repl.identity
          (fst (Repl.step Config.defaults ExampleSession.host
                  ExampleSession.aldridge_session Repl.CmdSwitch))) = false
  /\ Profiles.last_identity
       (Repl.profiles
          (fst (Repl.step Config.defaults ExampleSession.host
                  ExampleSession.aldridge_session Repl.CmdSwitch)))
     = Some "Professor"%string.
Proof.
  split; [discriminate|]. split; [reflexivity|].
  destruct (last_identity_follows_login Config.defaults ExampleSession.host
              ExampleSession.aldridge_session Repl.CmdSwitch) as (_ & Hchange & _).
  apply Hchange; [discriminate | reflexivity].
Defined.




(** X10. The startup identity: the safety fallback of [run_repl] never
    changes what [attempt_auto_identity] chose; the session starts as
    "LOCKED" exactly when the choice is not authenticated, which happens in
    strict mode only; in non-strict mode the session always starts
    authenticated as a key of [PERSONAS]: the recognized persona, else the
    stored last identity when it is one, else "Aldridge". *)
Theorem startup_identity_cases :
  forall (cfg : Config.config) (h : Repl.host) (who : option string)
         (profiles0 : Profiles.profiles),
    Repl.identity (Repl.start cfg h profiles0 (Repl.startup_choice cfg who profiles0))
    = fst (Repl.startup_choice cfg who profiles0)
    /\ (snd (Repl.startup_choice cfg who profiles0) = false <->
        fst (Repl.startup_choice cfg who profiles0) = "LOCKED"%string)
    /\ (snd (Repl.startup_choice cfg who profiles0) = false ->
        Config.STRICT_AUTH cfg = true)
    /\ (snd (Repl.startup_choice cfg who profiles0) = true ->
        Personas.is_persona (fst (Repl.startup_choice cfg who profiles0)) = true)
    /\ (Config.STRICT_AUTH cfg = false ->
        Repl.persona_of who = None ->
        (forall last, Profiles.last_identity profiles0 = Some last ->
                      Personas.is_persona last = false) ->
        Repl.startup_choice cfg who profiles0 = ("Aldridge"%string, true)).
Proof.
  intros cfg h who profiles0.
  assert (forall name, Repl.persona_of who = Some name ->
                       Personas.is_persona name = true) as Hpersona.
  { unfold Repl.persona_of. destruct who as [w|]; [|discriminate].
    destruct (truthy (Some w)); simpl; [|discriminate].
    destruct (Personas.is_persona w) eqn:Hp; [|discriminate].
    intros name Hn. inversion Hn. subst. exact Hp. }
  assert (snd (Repl.startup_choice cfg who profiles0) = true ->
          Personas.is_persona (fst (Repl.startup_choice cfg who profiles0)) = true)
    as Hauth.
  { unfold Repl.startup_choice.
    destruct (Config.STRICT_AUTH cfg);
      destruct (Repl.persona_of who) as [name|] eqn:Hw; simpl;
      try (intros _; apply Hpersona; reflexivity); try discriminate.
    destruct (Profiles.last_identity profiles0) as [last|]; [|reflexivity].
    destruct (Personas.is_persona last) eqn:Hl; simpl; auto. }
  assert (snd (Repl.startup_choice cfg who profiles0) = false ->
          fst (Repl.startup_choice cfg who profiles0) = "LOCKED"%string
          /\ Config.STRICT_AUTH cfg = true) as Hlocked.
  { unfold Repl.startup_choice.
    destruct (Config.STRICT_AUTH cfg);
      destruct (Repl.persona_of who) as [name|]; simpl; try discriminate; auto.
    destruct (Profiles.last_identity profiles0) as [last|]; [|discriminate].
    destruct (Personas.is_persona last); discriminate. }
  split; [|split; [|split; [|split]]].
  - unfold Repl.start. simpl.
    destruct (snd (Repl.startup_choice cfg who profiles0)) eqn:Hsnd.
    + rewrite (Hauth eq_refl). reflexivity.
    + destruct (Hlocked eq_refl) as [-> _]. reflexivity.
  - split; [intros H; apply Hlocked, H|].
    intros Hl. destruct (snd (Repl.startup_choice cfg who profiles0)); [|reflexivity].
    specialize (Hauth eq_refl). rewrite Hl in Hauth. discriminate.
  - intros H. apply Hlocked, H.
  - exact Hauth.
  - intros Hs Hw Hlast. unfold Repl.startup_choice. rewrite Hs, Hw.
    destruct (Profiles.last_identity profiles0) as [last|]; [|reflexivity].
    rewrite (Hlast last eq_refl). reflexivity.
Qed.

Lemma startup_identity_cases_witness :
  Config.STRICT_AUTH relaxed = false
  /\ Repl.persona_of (Some "Visitor"%string) = None
  /\ Repl.startup_choice relaxed (Some "Visitor"%string) Profiles.no_profiles
     = ("Aldridge"%string, true).
Proof.
  split; [reflexivity|]. split; [reflexivity|].
  destruct (startup_identity_cases relaxed ExampleSession.host
              (Some "Visitor"%string) Profiles.no_profiles)
    as (_ & _ & _ & _ & Hdefault).
  apply Hdefault; [reflexivity | reflexivity | discriminate].
Defined.

(** ** File names and the layout of the bank *)

Section StringFacts.

Lemma substring_all s : substring 0 (String.length s) s = s.
Proof. induction s as [|c t IH]; simpl; [reflexivity | rewrite IH; reflexivity]. Qed.

Lemma substring_split s : forall n,
  (n <= String.length s)%nat ->
  (substring 0 n s ++ substring n (String.length s - n) s)%string = s.
Proof.
  induction s as [|c t IH]; intros n Hn; simpl in Hn.
  - assert (n = 0%nat) as -> by lia. reflexivity.
  - destruct n as [|n].
    + simpl. rewrite substring_all. reflexivity.
    + change (String c (substring 0 n t ++ substring n (String.length t - n) t)%string
              = String c t).
      f_equal. apply IH. lia.
Qed.

Lemma substring_prefix a b : substring 0 (String.length a) (a ++ b)%string = a.
Proof. induction a as [|c t IH]; simpl; [destruct b; reflexivity | rewrite IH; reflexivity]. Qed.

Lemma substring_suffix a b :
  substring (String.length a) (String.length b) (a ++ b)%string = b.
Proof. induction a as [|c t IH]; simpl; [apply substring_all | exact IH]. Qed.

Lemma string_length_app a b :
  String.length (a ++ b)%string = (String.length a + String.length b)%nat.
Proof. induction a as [|c t IH]; simpl; [reflexivity | rewrite IH; reflexivity]. Qed.

(** A name that ends in [suf] is what is before the suffix, then [suf]. *)
Lemma endswith_split suf s :
  Str.endswith suf s = true ->
  s = (Str.drop_last (String.length suf) s ++ suf)%string.
Proof.
  unfold Str.endswith, Str.drop_last. intros H.
  apply andb_true_iff in H as [Hlen Heq].
  apply Nat.leb_le in Hlen. apply String.eqb_eq in Heq.
  pose proof (substring_split s (String.length s - String.length suf)) as Hsplit.
  replace (String.length s - (String.length s - String.length suf))%nat
    with (String.length suf) in Hsplit by lia.
  rewrite Heq in Hsplit. symmetry. apply Hsplit. lia.
Qed.

(** The file written for [name] is read back under [name]. *)
Lemma npy_name_round_trip name :
  Str.endswith ".npy" (name ++ ".npy")%string = true
  /\ Str.drop_last 4 (name ++ ".npy")%string = name.
Proof.
  unfold Str.endswith, Str.drop_last. rewrite string_length_app. simpl String.length.
  replace (String.length name + 4 - 4)%nat with (String.length name) by lia.
  split.
  - apply andb_true_iff. split; [apply Nat.leb_le; lia|].
    apply String.eqb_eq. apply (substring_suffix name ".npy").
  - apply substring_prefix.
Qed.

End StringFacts.

Section BankLayoutFacts.

Variable vec : Type.

Lemma scan_file_usable st (file : string * FaceAuth.npy vec) :
  usable file = true ->
  FaceAuth.scan_file vec st file
  = {| FaceAuth.feats := FaceAuth.feats vec st ++ [FaceAuth.npy_rows vec (snd file)];
       FaceAuth.labels :=
         FaceAuth.labels vec st
         ++ [map (fun _ => FaceAuth.cid vec st) (FaceAuth.npy_rows vec (snd file))];
       FaceAuth.names := <[ FaceAuth.cid vec st := stem file ]> (FaceAuth.names vec st);
       FaceAuth.cid := FaceAuth.cid vec st + 1 |}.
Proof.
  destruct file as [fn X]. unfold usable, FaceAuth.scan_file, stem. simpl.
  intros H. apply andb_true_iff in H as [-> ->]. reflexivity.
Qed.

(** The loop of [_load_face_bank] from any state of its variables. *)
Lemma scan_files files : forall st,
  FaceAuth.feats vec (fold_left (FaceAuth.scan_file vec) files st)
  = FaceAuth.feats vec st
    ++ map (fun f => FaceAuth.npy_rows vec (snd f)) (List.filter usable files)
  /\ FaceAuth.labels vec (fold_left (FaceAuth.scan_file vec) files st)
     = FaceAuth.labels vec st ++ label_blocks (FaceAuth.cid vec st) (List.filter usable files)
  /\ forall z,
       FaceAuth.names vec (fold_left (FaceAuth.scan_file vec) files st) !! z
       = if (FaceAuth.cid vec st <=? z)
            && (z <? FaceAuth.cid vec st + Z.of_nat (length (List.filter usable files)))
         then stem <$> List.filter usable files !! Z.to_nat (z - FaceAuth.cid vec st)
         else FaceAuth.names vec st !! z.
Proof.
  induction files as [|file t IH]; intros st; simpl.
  - rewrite !app_nil_r. split; [reflexivity|]. split; [reflexivity|].
    intros z. destruct (_ && _) eqn:E; [|reflexivity].
    apply andb_true_iff in E as [E1 E2].
    apply Z.leb_le in E1. apply Z.ltb_lt in E2. simpl in E2. lia.
  - destruct (usable file) eqn:Hu; simpl.
    + rewrite (scan_file_usable st file Hu).
      destruct (IH {| FaceAuth.feats := FaceAuth.feats vec st ++ [FaceAuth.npy_rows vec (snd file)];
                      FaceAuth.labels :=
                        FaceAuth.labels vec st
                        ++ [map (fun _ => FaceAuth.cid vec st)
                              (FaceAuth.npy_rows vec (snd file))];
                      FaceAuth.names :=
                        <[ FaceAuth.cid vec st := stem file ]> (FaceAuth.names vec st);
                      FaceAuth.cid := FaceAuth.cid vec st + 1 |})
        as (Hf & Hl & Hn).
      simpl in Hf, Hl, Hn. rewrite Hf, Hl.
      split; [rewrite <- app_assoc; reflexivity|].
      split; [rewrite <- app_assoc; reflexivity|].
      intros z. rewrite Hn.
      set (c := FaceAuth.cid vec st). set (n := length (List.filter usable t)).
      destruct (Z.eq_dec z c) as [->|Hzc].
      * replace ((c + 1 <=? c) && (c <? c + 1 + Z.of_nat n)) with false
          by (symmetry; apply andb_false_iff; left; apply Z.leb_gt; lia).
        replace ((c <=? c) && (c <? c + Z.of_nat (S n))) with true
          by (symmetry; apply andb_true_iff; split;
              [apply Z.leb_le | apply Z.ltb_lt]; lia).
        rewrite lookup_insert_eq, Z.sub_diag. reflexivity.
      * destruct ((c + 1 <=? z) && (z <? c + 1 + Z.of_nat n)) eqn:E.
        -- apply andb_true_iff in E as [E1 E2].
           apply Z.leb_le in E1. apply Z.ltb_lt in E2.
           replace ((c <=? z) && (z <? c + Z.of_nat (S n))) with true
             by (symmetry; apply andb_true_iff; split;
                 [apply Z.leb_le | apply Z.ltb_lt]; lia).
           replace (Z.to_nat (z - c)) with (S (Z.to_nat (z - (c + 1)))) by lia.
           reflexivity.
        -- replace ((c <=? z) && (z <? c + Z.of_nat (S n))) with false.
           { apply lookup_insert_ne. congruence. }
           symmetry. apply andb_false_iff. apply andb_false_iff in E as [E|E].
           ++ left. apply Z.leb_gt in E. apply Z.leb_gt. lia.
           ++ right. apply Z.ltb_ge in E. apply Z.ltb_ge. lia.
    + rewrite scan_file_unusable by exact Hu. apply IH.
Qed.

Lemma combine_blocks (us : list (string * FaceAuth.npy vec)) : forall cid,
  combine (concat (map (fun f => FaceAuth.npy_rows vec (snd f)) us))
    (concat (label_blocks cid us))
  = bank_rows cid us.
Proof.
  assert (forall (l : list vec) (c : Z) l2 l2',
            combine (l ++ l2) (map (fun _ => c) l ++ l2')
            = map (fun v => (v, c)) l ++ combine l2 l2') as Hblock.
  { induction l as [|x l IH]; intros c l2 l2'; simpl; [reflexivity|].
    rewrite IH. reflexivity. }
  induction us as [|f t IH]; intros cid; simpl; [reflexivity|].
  rewrite Hblock, IH. reflexivity.
Qed.

(** The bank built from a listing: the rows of the usable files with class
    ids counted from 0 in the order of the listing, and the names of those
    ids. *)
Lemma load_face_bank_spec files :
  FaceAuth._load_face_bank true (Some files)
  = match List.filter usable files with
    | [] => None
    | _ :: _ =>
        Some (bank_rows 0 (List.filter usable files),
              FaceAuth.names vec
                (fold_left (FaceAuth.scan_file vec) files
                   {| FaceAuth.feats := []; FaceAuth.labels := [];
                      FaceAuth.names := ∅; FaceAuth.cid := 0 |}))
    end
  /\ forall z,
       FaceAuth.names vec
         (fold_left (FaceAuth.scan_file vec) files
            {| FaceAuth.feats := []; FaceAuth.labels := [];
               FaceAuth.names := ∅; FaceAuth.cid := 0 |}) !! z
       = if 0 <=? z then stem <$> List.filter usable files !! Z.to_nat z else None.
Proof.
  destruct (scan_files files {| FaceAuth.feats := []; FaceAuth.labels := [];
                                FaceAuth.names := ∅; FaceAuth.cid := 0 |})
    as (Hf & Hl & Hn).
  simpl in Hf, Hl, Hn. split.
  - unfold FaceAuth._load_face_bank. rewrite Hf, Hl, combine_blocks.
    destruct (List.filter usable files) as [|f us]; reflexivity.
  - intros z. rewrite Hn, lookup_empty, Z.sub_0_r, Z.add_0_l.
    destruct (0 <=? z) eqn:E1; simpl; [|reflexivity].
    destruct (z <? Z.of_nat (length (List.filter usable files))) eqn:E2; [reflexivity|].
    apply Z.leb_le in E1. apply Z.ltb_ge in E2.
    rewrite lookup_ge_None_2 by lia. reflexivity.
Qed.

End BankLayoutFacts.

Lemma bank_rows_In {vec : Type} (us : list (string * FaceAuth.npy vec)) : forall cid v lbl,
  In (v, lbl) (bank_rows cid us) ->
  exists i file,
    us !! i = Some file /\ lbl = cid + Z.of_nat i
    /\ In v (FaceAuth.npy_rows vec (snd file)).
Proof.
  induction us as [|f t IH]; intros cid v lbl Hin; simpl in Hin; [destruct Hin|].
  apply in_app_or in Hin as [Hin|Hin].
  - apply in_map_iff in Hin as (x & Hx & Hin). inversion Hx; subst.
    exists 0%nat, f. split; [reflexivity|]. split; [lia | exact Hin].
  - destruct (IH _ _ _ Hin) as (i & file & Hi & Hl & Hv).
    exists (S i), file. split; [exact Hi|]. split; [lia | exact Hv].
Qed.

Lemma load_face_bank_rows {vec : Type} (files : list (string * FaceAuth.npy vec))
    train names v lbl :
  FaceAuth._load_face_bank true (Some files) = Some (train, names) ->
  In (v, lbl) train ->
  exists file,
    In file files /\ usable file = true
    /\ In v (FaceAuth.npy_rows vec (snd file))
    /\ names !! lbl = Some (stem file).
Proof.
  destruct (load_face_bank_spec vec files) as [Hload Hnames].
  intros Hbank Hin. rewrite Hload in Hbank.
  destruct (List.filter usable files) as [|f us] eqn:Hus; [discriminate|].
  inversion Hbank; subst train names. clear Hbank.
  destruct (bank_rows_In (f :: us) 0 v lbl Hin) as (i & file & Hi & Hl & Hv).
  rewrite <- Hus in *.
  assert (In file (List.filter usable files)) as Hfile.
  { apply list_elem_of_In. eapply list_elem_of_lookup_2. exact Hi. }
  apply filter_In in Hfile as [Hfile Hu].
  exists file. repeat split; try assumption.
  rewrite Hnames. subst lbl.
  replace (Z.to_nat (0 + Z.of_nat i)) with i by lia.
  destruct (0 <=? 0 + Z.of_nat i) eqn:E; [|apply Z.leb_gt in E; lia].
  rewrite Hi. reflexivity.
Qed.



(** ** Where a recognized name comes from *)

Section ProvenanceFacts.

Variable vec : Type.
Variable _euclid_dist : vec -> vec -> Q.

Lemma majority_In top v : FaceAuth.majority top = Return v -> In v top.
Proof.
  intros H. destruct top as [|x t]; [discriminate|].
  destruct (majority_spec (x :: t)) as (v' & Hv' & Hpos & _); [discriminate|].
  rewrite Hv' in H. inversion H; subst.
  apply (count_occ_In Z.eq_dec). exact Hpos.
Qed.

Lemma knn_label train test_vec k threshold lbl :
  FaceAuth._knn _euclid_dist train test_vec k threshold = Return lbl ->
  lbl = -1 \/ exists r, In r train /\ snd r = lbl.
Proof.
  unfold FaceAuth._knn. intros H.
  destruct (FaceAuth.sort_by_dist (FaceAuth.distances _euclid_dist train test_vec))
    as [|[d0 l0] t] eqn:Hs; [discriminate|].
  destruct (negb (Qle_bool d0 threshold)); [left; inversion H; reflexivity|].
  right. apply majority_In in H. apply in_map_iff in H as ([d l] & Hl & Hin).
  simpl in Hl. subst l.
  apply slice_to_incl in Hin. rewrite <- Hs in Hin.
  apply sort_by_dist_In, in_map_iff in Hin as (r & Hr & Hin).
  exists r. inversion Hr. auto.
Qed.

Lemma classify_name train names test_vec k threshold name :
  FaceAuth.classify _euclid_dist train names test_vec k threshold = Return (Some name) ->
  name <> ""%string /\ exists r, In r train /\ names !! snd r = Some name.
Proof.
  unfold FaceAuth.classify. intros H.
  destruct (FaceAuth._knn _euclid_dist train test_vec k threshold) as [lbl|e] eqn:Hk;
    [|discriminate].
  cbn [mbind result_bind] in H.
  destruct (lbl =? -1) eqn:E; [discriminate|].
  destruct (names !! lbl) as [n|] eqn:Hn; simpl in H; [|discriminate].
  destruct (String.eqb n "") eqn:En; simpl in H; [discriminate|].
  inversion H; subst n. split; [apply String.eqb_neq; exact En|].
  destruct (knn_label _ _ _ _ _ Hk) as [->|(r & Hr & Hl)]; [discriminate|].
  exists r. subst lbl. auto.
Qed.

Lemma face_vote_name cfg train names k f name :
  FaceAuth.face_vote _euclid_dist cfg train names k f = Return (Some name) ->
  name <> ""%string /\ exists r, In r train /\ names !! snd r = Some name.
Proof.
  unfold FaceAuth.face_vote. intros H.
  repeat match type of H with
         | (if ?c then _ else _) = _ => destruct c; [discriminate|]
         end.
  eapply classify_name. exact H.
Qed.

Lemma faces_loop_name cfg train names need k faces : forall m m' name,
  FaceAuth.faces_loop _euclid_dist cfg train names need k m faces
  = Return (m', Some name) ->
  name <> ""%string /\ exists r, In r train /\ names !! snd r = Some name.
Proof.
  induction faces as [|f rest IH]; intros m m' name H; [discriminate|].
  simpl in H.
  destruct (FaceAuth.face_vote _euclid_dist cfg train names k f) as [[a|]|e] eqn:Hv;
    cbn [mbind result_bind] in H; [| |discriminate].
  - destruct (need <=? default 0%nat (FaceAuth.add_vote m a !! a))%nat.
    + inversion H; subst. eapply face_vote_name. exact Hv.
    + eapply IH. exact H.
  - eapply IH. exact H.
Qed.

Lemma frames_loop_name cfg train names need k cam : forall remaining m frames a name,
  FaceAuth.frames_loop _euclid_dist cfg train names need k cam remaining m frames
  = Return a ->
  FaceAuth.outcome a = Some name ->
  (1 <= remaining)%nat
  /\ name <> ""%string /\ exists r, In r train /\ names !! snd r = Some name.
Proof.
  induction remaining as [|remaining IH]; intros m frames a name H Hout.
  - inversion H; subst. discriminate.
  - split; [lia|]. simpl in H.
    destruct (cam frames) as [faces|].
    + destruct (FaceAuth.faces_loop _euclid_dist cfg train names need k m faces)
        as [[m' [x|]]|e] eqn:Hloop; cbn [mbind result_bind] in H; [| |discriminate].
      * inversion H; subst. simpl in Hout. inversion Hout; subst.
        eapply faces_loop_name. exact Hloop.
      * eapply IH; eassumption.
    + eapply IH; eassumption.
Qed.

(** On a bank without rows a face that is classified raises, a face that is
    filtered out does not. *)
Lemma face_vote_no_rows cfg names k (f : FaceAuth.face vec) :
  FaceAuth.face_vote _euclid_dist cfg [] names k f
  = if passes_filters cfg f then Raise IndexError else Return None.
Proof.
  unfold FaceAuth.face_vote, passes_filters.
  destruct ((FaceAuth.face_w vec f <? Config.FACE_MIN_SIZE cfg)
            || (FaceAuth.face_h vec f <? Config.FACE_MIN_SIZE cfg)); [reflexivity|].
  destruct (FaceAuth.roi_nonempty vec f); [|reflexivity].
  destruct (Qle_bool (Config.FACE_BLUR_THRESH cfg) (FaceAuth.sharpness vec f)
            && Qle_bool (FaceAuth.sharpness vec f) (Config.FACE_MAX_BLUR cfg));
    reflexivity.
Qed.

Lemma faces_loop_no_rows cfg names need k (faces : list (FaceAuth.face vec)) m :
  FaceAuth.faces_loop _euclid_dist cfg [] names need k m faces
  = if forallb (fun f => negb (passes_filters cfg f)) faces
    then Return (m, None) else Raise IndexError.
Proof.
  induction faces as [|f rest IH]; [reflexivity|].
  simpl. rewrite face_vote_no_rows.
  destruct (passes_filters cfg f); [reflexivity|].
  cbn [mbind result_bind negb andb]. exact IH.
Qed.

Lemma quiet_forallb cfg (faces : list (FaceAuth.face vec)) :
  forallb (fun f => negb (passes_filters cfg f)) faces = true
  <-> quiet cfg (Some faces).
Proof.
  unfold quiet. rewrite forallb_forall, List.Forall_forall.
  split; intros H f Hf; specialize (H f Hf);
    destruct (passes_filters cfg f); simpl in *; congruence.
Qed.

Lemma frames_loop_no_rows cfg names need k cam : forall remaining m frames,
  (forall i, (frames <= i < frames + remaining)%nat -> quiet cfg (cam i)) ->
  FaceAuth.frames_loop _euclid_dist cfg [] names need k cam remaining m frames
  = Return {| FaceAuth.votes := m;
              FaceAuth.frames := (frames + remaining)%nat;
              FaceAuth.outcome := None |}.
Proof.
  induction remaining as [|remaining IH]; intros m frames Hq.
  - simpl. rewrite Nat.add_0_r. reflexivity.
  - simpl. pose proof (Hq frames ltac:(lia)) as Hnow.
    assert (FaceAuth.frames_loop _euclid_dist cfg [] names need k cam remaining m
              (S frames)
            = Return {| FaceAuth.votes := m;
                        FaceAuth.frames := (frames + S remaining)%nat;
                        FaceAuth.outcome := None |}) as Hrest.
    { rewrite IH by (intros i Hi; apply Hq; lia).
      replace (S frames + remaining)%nat with (frames + S remaining)%nat by lia.
      reflexivity. }
    destruct (cam frames) as [faces|]; [|exact Hrest].
    rewrite faces_loop_no_rows.
    apply quiet_forallb in Hnow. rewrite Hnow.
    cbn [mbind result_bind]. exact Hrest.
Qed.

Lemma frames_loop_no_rows_raises cfg names need k cam faces :
  forall n remaining m frames,
  (n < remaining)%nat ->
  (forall i, (frames <= i < frames + n)%nat -> quiet cfg (cam i)) ->
  cam (frames + n)%nat = Some faces ->
  ~ quiet cfg (Some faces) ->
  FaceAuth.frames_loop _euclid_dist cfg [] names need k cam remaining m frames
  = Raise IndexError.
Proof.
  induction n as [|n IH]; intros remaining m frames Hn Hq Hcam Hloud;
    (destruct remaining as [|remaining]; [lia|]); simpl.
  - rewrite Nat.add_0_r in Hcam. rewrite Hcam, faces_loop_no_rows.
    destruct (forallb (fun f => negb (passes_filters cfg f)) faces) eqn:E;
      [|reflexivity].
    apply quiet_forallb in E. contradiction.
  - pose proof (Hq frames ltac:(lia)) as Hnow.
    assert (FaceAuth.frames_loop _euclid_dist cfg [] names need k cam remaining m
              (S frames) = Raise IndexError) as Hrest.
    { apply (IH remaining m (S frames)); [lia | intros i Hi; apply Hq; lia | |exact Hloud].
      replace (S frames + n)%nat with (frames + S n)%nat by lia. exact Hcam. }
    destruct (cam frames) as [fs|]; [|exact Hrest].
    rewrite faces_loop_no_rows.
    apply quiet_forallb in Hnow. rewrite Hnow.
    cbn [mbind result_bind]. exact Hrest.
Qed.

End ProvenanceFacts.

(** A recognized name is the name the bank gives to the label of one of its
    rows. *)
Lemma recognized_row (vec : Type) (_euclid_dist : vec -> vec -> Q)
    (cfg : Config.config) (w : FaceAuth.world vec) (timeout_frames need_votes : nat)
    (k : Z) (name : string) :
  FaceAuth.recognize_quick _euclid_dist cfg w timeout_frames need_votes k
  = Return (Some name) ->
  name <> ""%string
  /\ FaceAuth.HAS_CV2 vec w = true
  /\ (1 <= timeout_frames)%nat
  /\ exists files train names v lbl,
       FaceAuth.face_dataset vec w = Some files
       /\ FaceAuth._load_face_bank true (Some files) = Some (train, names)
       /\ In (v, lbl) train
       /\ names !! lbl = Some name.
Proof.
  intros H.
  unfold FaceAuth.recognize_quick, FaceAuth.recognize_attempt,
    FaceAuth.recognize_setup in H.
  destruct (FaceAuth.HAS_CV2 vec w) eqn:Hcv; simpl in H; [|discriminate].
  destruct (FaceAuth.face_dataset vec w) as [files|] eqn:Hds; [|discriminate].
  destruct (FaceAuth._load_face_bank true (Some files)) as [[train names]|] eqn:Hbank;
    [|discriminate].
  destruct (FaceAuth.camera vec w) as [cam|]; [|discriminate].
  destruct (negb (FaceAuth.cascade_found vec w)); [discriminate|].
  destruct (negb (FaceAuth.cascade_loads vec w)); [discriminate|].
  destruct (FaceAuth.frames_loop _euclid_dist cfg train names need_votes k cam
              timeout_frames ∅ 0) as [a|e] eqn:Hloop;
    cbn [mbind result_bind] in H; [|discriminate].
  inversion H as [Hout]. clear H.
  destruct (frames_loop_name vec _euclid_dist cfg train names need_votes k cam
              _ _ _ _ _ Hloop Hout) as (Hframes & Hname & [v lbl] & Hr & Hlbl).
  simpl in Hlbl.
  split; [exact Hname|]. split; [reflexivity|]. split; [exact Hframes|].
  exists files, train, names, v, lbl.
  split; [reflexivity|]. split; [exact Hbank|]. split; [exact Hr|].
  rewrite ?Hout. exact Hlbl.
Qed.

(** X12. A name returned by [recognize_quick] is never empty and is the name
    of a file of [face_dataset]: the dataset holds a file [<name>.npy] with a
    matrix that has at least one row. The function returns a name only with
    OpenCV present and after reading at least one frame. *)
Theorem recognize_quick_returns_enrolled_name :
  forall (vec : Type) (_euclid_dist : vec -> vec -> Q) (cfg : Config.config)
         (w : FaceAuth.world vec) (timeout_frames need_votes : nat) (k : Z)
         (name : string),
    FaceAuth.recognize_quick _euclid_dist cfg w timeout_frames need_votes k
    = Return (Some name) ->
    name <> ""%string
    /\ FaceAuth.HAS_CV2 vec w = true
    /\ (1 <= timeout_frames)%nat
    /\ exists files X,
         FaceAuth.face_dataset vec w = Some files
         /\ In ((name ++ ".npy")%string, X) files
         /\ FaceAuth.ndim vec X = 2%nat
         /\ FaceAuth.npy_rows vec X <> [].
Proof.
  intros vec d cfg w timeout_frames need_votes k name H.
  destruct (recognized_row vec d cfg w timeout_frames need_votes k name H)
    as (Hname & Hcv & Hframes & files & train & names & v & lbl
        & Hds & Hbank & Hr & Hlbl).
  destruct (load_face_bank_rows files train names v lbl Hbank Hr)
    as ([fn X] & Hfile & Hu & Hv & Hstem).
  rewrite Hlbl in Hstem. injection Hstem as Hn. unfold stem in Hn. simpl in Hn.
  unfold usable in Hu. simpl in Hu. apply andb_true_iff in Hu as [Hend Hdim].
  apply Nat.eqb_eq in Hdim.
  pose proof (endswith_split ".npy" fn Hend) as Hfn. simpl String.length in Hfn.
  rewrite <- Hn in Hfn.
  split; [exact Hname|]. split; [exact Hcv|]. split; [exact Hframes|].
  exists files, X. split; [exact Hds|]. rewrite <- Hfn.
  split; [exact Hfile|]. split; [exact Hdim|].
  simpl in Hv. intros Hnil. rewrite Hnil in Hv. destruct Hv.
Qed.

Lemma recognize_quick_returns_enrolled_name_witness :
  FaceAuth.recognize_quick Example1D.dist Config.defaults
    (Example1D.machine Example1D.aldridge_bank Example1D.one_face) 250 5 5
  = Return (Some "Aldridge"%string)
  /\ exists files X,
       Some Example1D.aldridge_bank = Some files
       /\ In ("Aldridge.npy"%string, X) files
       /\ FaceAuth.ndim Z X = 2%nat.
Proof.
  assert (FaceAuth.recognize_quick Example1D.dist Config.defaults
            (Example1D.machine Example1D.aldridge_bank Example1D.one_face) 250 5 5
          = Return (Some "Aldridge"%string)) as Hrun by (vm_compute; reflexivity).
  split; [exact Hrun|].
  destruct (recognize_quick_returns_enrolled_name Z Example1D.dist Config.defaults
              (Example1D.machine Example1D.aldridge_bank Example1D.one_face)
              250 5 5 "Aldridge"%string Hrun)
    as (_ & _ & _ & files & X & Hds & Hin & Hdim & _).
  exists files, X. repeat split; assumption.
Defined.

(** X13. When [recognize_quick] reaches its loop on a bank with rows, with
    [k >= 1] and [need_votes >= 1], the loop ends with the dictionary
    [votes] in one of two shapes: if a name is returned, that name holds
    exactly [need_votes] votes and every other name fewer; if [None] is
    returned, every name holds fewer than [need_votes] votes. *)
Theorem winner_has_exactly_need_votes :
  forall (vec : Type) (_euclid_dist : vec -> vec -> Q) (cfg : Config.config)
         (w : FaceAuth.world vec) (train : list (FaceAuth.row vec))
         (names : gmap Z string) (cam : nat -> FaceAuth.frame vec)
         (timeout_frames need_votes : nat) (k : Z),
    FaceAuth.recognize_setup w = Some (train, names, cam) ->
    train <> [] ->
    1 <= k ->
    (1 <= need_votes)%nat ->
    exists a,
      FaceAuth.recognize_attempt _euclid_dist cfg w timeout_frames need_votes k
      = Some (Return a)
      /\ (forall x,
            FaceAuth.outcome a = Some x ->
            default 0%nat (FaceAuth.votes a !! x) = need_votes
            /\ forall b, b <> x ->
                 (default 0%nat (FaceAuth.votes a !! b) < need_votes)%nat)
      /\ (FaceAuth.outcome a = None ->
          forall b, (default 0%nat (FaceAuth.votes a !! b) < need_votes)%nat).
Proof.
  intros vec d cfg w train names cam timeout_frames need k Hsetup Htrain Hk Hneed.
  rewrite (recognize_attempt_loop d cfg w timeout_frames need k train names cam Hsetup).
  destruct (attempt_spec vec d cfg train names need k Htrain Hk cam timeout_frames Hneed)
    as (a & Ha & Hspec).
  exists a. split; [rewrite Ha; reflexivity|].
  destruct (FaceAuth.outcome a) as [x|].
  - destruct Hspec as (n & pre1 & post1 & _ & _ & _ & Hlt & Hge & [Ht _]).
    split; [|discriminate].
    intros x' Hx'. inversion Hx'; subst x'.
    split.
    + rewrite Ht, app_assoc, tally_app, tally_one, String.eqb_refl.
      specialize (Hlt x). lia.
    + intros b Hb. rewrite Ht, app_assoc, tally_app, tally_one.
      destruct (String.eqb x b) eqn:E; [apply String.eqb_eq in E; congruence|].
      specialize (Hlt b). lia.
  - destruct Hspec as (_ & [Ht _] & Hlt).
    split; [discriminate|].
    intros _ b. rewrite Ht. apply Hlt.
Qed.

Lemma winner_has_exactly_need_votes_witness :
  FaceAuth.recognize_setup
    (Example1D.machine Example1D.ab_bank Example1D.a_then_b)
  = Some ([(0, 0); (1000, 1)],
          <[1 := "B"%string]> (<[0 := "A"%string]> ∅), Example1D.a_then_b)
  /\ exists a,
       FaceAuth.recognize_attempt Example1D.dist Config.defaults
         (Example1D.machine Example1D.ab_bank Example1D.a_then_b) 250 3 1
       = Some (Return a)
       /\ (forall x,
             FaceAuth.outcome a = Some x ->
             default 0%nat (FaceAuth.votes a !! x) = 3%nat
             /\ forall b, b <> x ->
                  (default 0%nat (FaceAuth.votes a !! b) < 3)%nat).
Proof.
  split; [reflexivity|].
  destruct (winner_has_exactly_need_votes Z Example1D.dist Config.defaults
              (Example1D.machine Example1D.ab_bank Example1D.a_then_b)
              [(0, 0); (1000, 1)] (<[1 := "B"%string]> (<[0 := "A"%string]> ∅))
              Example1D.a_then_b 250 3 1)
    as (a & Ha & Hsome & _);
    [reflexivity | discriminate | lia | lia |].
  exists a. split; [exact Ha | exact Hsome].
Defined.

(** X14. A dataset whose files hold matrices without rows is accepted by
    [_load_face_bank]: the bank has no row. On such a bank [recognize_quick]
    returns [None] when no face gets through the size, region and sharpness
    tests within [timeout_frames] frames, and raises [IndexError] (from
    [dists[0]] in [_knn]) at the first face that gets through them. *)
Theorem recognize_quick_on_bank_without_rows :
  forall (vec : Type) (_euclid_dist : vec -> vec -> Q) (cfg : Config.config)
         (w : FaceAuth.world vec) (names : gmap Z string)
         (cam : nat -> FaceAuth.frame vec) (timeout_frames need_votes : nat) (k : Z),
    FaceAuth.recognize_setup w = Some ([], names, cam) ->
    ((forall i, (i < timeout_frames)%nat -> quiet cfg (cam i)) ->
     FaceAuth.recognize_quick _euclid_dist cfg w timeout_frames need_votes k
     = Return None)
    /\ (forall n,
          (n < timeout_frames)%nat ->
          (forall i, (i < n)%nat -> quiet cfg (cam i)) ->
          ~ quiet cfg (cam n) ->
          FaceAuth.recognize_quick _euclid_dist cfg w timeout_frames need_votes k
          = Raise IndexError).
Proof.
  intros vec d cfg w names cam timeout_frames need k Hsetup.
  unfold FaceAuth.recognize_quick.
  rewrite (recognize_attempt_loop d cfg w timeout_frames need k [] names cam Hsetup).
  split.
  - intros Hq. rewrite frames_loop_no_rows; [reflexivity|].
    intros i Hi. apply Hq. lia.
  - intros n Hn Hq Hloud.
    destruct (cam n) as [faces|] eqn:Hcam; [|exfalso; apply Hloud; exact I].
    rewrite (frames_loop_no_rows_raises vec d cfg names need k cam faces n);
      [reflexivity | exact Hn | intros i Hi; apply Hq; lia | exact Hcam | exact Hloud].
Qed.

Lemma recognize_quick_on_bank_without_rows_witness :
  FaceAuth.recognize_setup
    (Example1D.machine [Example1D.file "Empty.npy" []] Example1D.one_face)
  = Some ([], <[0 := "Empty"%string]> ∅, Example1D.one_face)
  /\ (0 < 250)%nat
  /\ ~ quiet Config.defaults (Example1D.one_face 0%nat)
  /\ FaceAuth.recognize_quick Example1D.dist Config.defaults
       (Example1D.machine [Example1D.file "Empty.npy" []] Example1D.one_face) 250 5 5
     = Raise IndexError.
Proof.
  assert (~ quiet Config.defaults (Example1D.one_face 0%nat)) as Hloud.
  { intros Hq. simpl in Hq. inversion Hq as [|f l Hf _]. vm_compute in Hf. discriminate. }
  split; [reflexivity|]. split; [lia|]. split; [exact Hloud|].
  destruct (recognize_quick_on_bank_without_rows Z Example1D.dist Config.defaults
              (Example1D.machine [Example1D.file "Empty.npy" []] Example1D.one_face)
              (<[0 := "Empty"%string]> ∅) Example1D.one_face 250 5 5)
    as [_ Hraise]; [reflexivity|].
  apply (Hraise 0%nat); [lia | intros i Hi; lia | exact Hloud].
Defined.

(** ** The identity chooser of face_auth.py *)

(** X15. What [choose_identity_from_faces_or_fallback] can return. An
    authenticated identity is never empty and always a key of [profiles].
    With [STRICT_AUTH] it is the name the recognition returned, the camera
    was allowed, and it is not "guest" in any capitalisation; without a
    match the result is "LOCKED". Without [STRICT_AUTH] the result that is
    not authenticated is "Guest". *)
Theorem chooser_outcomes :
  forall (vec : Type) (_euclid_dist : vec -> vec -> Q) (cfg : Config.config)
         (w : FaceAuth.world vec) (profiles : Profiles.profiles)
         (try_camera : bool) (identity : string) (authed : bool),
    FaceAuth.choose_identity_from_faces_or_fallback _euclid_dist cfg w profiles
      try_camera = Return (identity, authed) ->
    (authed = true ->
     identity <> ""%string /\ Profiles.contains profiles identity = true)
    /\ (authed = false ->
        identity = if Config.STRICT_AUTH cfg then "LOCKED"%string else "Guest"%string)
    /\ (Config.STRICT_AUTH cfg = true -> authed = true ->
        Str.lower identity <> "guest"%string
        /\ try_camera = true
        /\ Config.AUTO_RECOG_ON_START cfg = true
        /\ FaceAuth.recognize_quick _euclid_dist cfg w 250 5 5
           = Return (Some identity)).
Proof.
  intros vec d cfg w profiles try_camera identity authed H.
  unfold FaceAuth.choose_identity_from_faces_or_fallback in H.
  assert (forall who name,
            FaceAuth.known_in profiles who = Some name ->
            who = Some name /\ name <> ""%string
            /\ Profiles.contains profiles name = true) as Hknown.
  { intros who name Hk. unfold FaceAuth.known_in in Hk.
    destruct who as [n|]; [|discriminate].
    destruct (truthy (Some n) && Profiles.contains profiles n) eqn:E; [|discriminate].
    inversion Hk; subst n. apply andb_true_iff in E as [Ht Hc].
    split; [reflexivity|]. split; [|exact Hc].
    simpl in Ht. intros ->. discriminate. }
  destruct (try_camera && Config.AUTO_RECOG_ON_START cfg) eqn:Htry.
  - destruct (FaceAuth.recognize_quick d cfg w 250 5 5) as [who|e] eqn:Hrec;
      cbn [mbind result_bind] in H; [|discriminate].
    apply andb_true_iff in Htry as [-> Hauto].
    destruct (Config.STRICT_AUTH cfg).
    + destruct (FaceAuth.known_in profiles who) as [name|] eqn:Hk.
      * destruct (Hknown _ _ Hk) as (-> & Hne & Hc).
        destruct (String.eqb (Str.lower name) "guest") eqn:Hg; simpl in H;
          inversion H; subst.
        -- split; [discriminate|]. split; [reflexivity|]. discriminate.
        -- split; [auto|]. split; [discriminate|].
           intros _ _. split; [apply String.eqb_neq; exact Hg | auto].
      * inversion H; subst.
        split; [discriminate|]. split; [reflexivity|]. discriminate.
    + destruct (FaceAuth.known_in profiles who) as [name|] eqn:Hk.
      * destruct (Hknown _ _ Hk) as (_ & Hne & Hc). inversion H; subst.
        split; [auto|]. split; discriminate.
      * destruct (FaceAuth.known_in profiles (Profiles.last_identity profiles))
          as [last|] eqn:Hl; inversion H; subst.
        -- destruct (Hknown _ _ Hl) as (_ & Hne & Hc).
           split; [auto|]. split; discriminate.
        -- split; [discriminate|]. split; [reflexivity | discriminate].
  - cbn [mbind result_bind] in H.
    destruct (Config.STRICT_AUTH cfg).
    + simpl in H. inversion H; subst.
      split; [discriminate|]. split; [reflexivity|]. discriminate.
    + simpl FaceAuth.known_in in H at 1.
      destruct (FaceAuth.known_in profiles (Profiles.last_identity profiles))
        as [last|] eqn:Hl; inversion H; subst.
      * destruct (Hknown _ _ Hl) as (_ & Hne & Hc).
        split; [auto|]. split; discriminate.
      * split; [discriminate|]. split; [reflexivity | discriminate].
Qed.

Lemma chooser_outcomes_witness :
  FaceAuth.choose_identity_from_faces_or_fallback Example1D.dist Config.defaults
    (Example1D.machine Example1D.aldridge_bank Example1D.one_face)
    (Profiles.ensure_identity_struct Profiles.no_profiles "Aldridge") true
  = Return ("Aldridge"%string, true)
  /\ Str.lower "Aldridge" <> "guest"%string
  /\ Profiles.contains
       (Profiles.ensure_identity_struct Profiles.no_profiles "Aldridge") "Aldridge"
     = true.
Proof.
  assert (FaceAuth.choose_identity_from_faces_or_fallback Example1D.dist
            Config.defaults
            (Example1D.machine Example1D.aldridge_bank Example1D.one_face)
            (Profiles.ensure_identity_struct Profiles.no_profiles "Aldridge") true
          = Return ("Aldridge"%string, true)) as Hrun by (vm_compute; reflexivity).
  split; [exact Hrun|].
  destruct (chooser_outcomes Z Example1D.dist Config.defaults
              (Example1D.machine Example1D.aldridge_bank Example1D.one_face)
              (Profiles.ensure_identity_struct Profiles.no_profiles "Aldridge")
              true "Aldridge"%string true Hrun)
    as (Hauthed & _ & Hstrict).
  destruct (Hauthed eq_refl) as [_ Hc].
  destruct (Hstrict eq_refl eq_refl) as (Hg & _).
  split; [exact Hg | exact Hc].
Defined.

(** ** A bank with at most [k] rows *)

Section SmallBankFacts.

Variable vec : Type.
Variable _euclid_dist : vec -> vec -> Q.

Lemma insert_by_dist_count x l v :
  count_occ Z.eq_dec (map snd (FaceAuth.insert_by_dist x l)) v
  = count_occ Z.eq_dec (map snd (x :: l)) v.
Proof.
  induction l as [|y t IH]; [reflexivity|].
  cbn [FaceAuth.insert_by_dist].
  destruct (Qle_bool (fst x) (fst y)); [reflexivity|].
  cbn [map count_occ] in *. rewrite IH.
  destruct (Z.eq_dec (snd y) v), (Z.eq_dec (snd x) v); reflexivity.
Qed.

Lemma sort_by_dist_count l v :
  count_occ Z.eq_dec (map snd (FaceAuth.sort_by_dist l)) v
  = count_occ Z.eq_dec (map snd l) v.
Proof.
  induction l as [|x t IH]; [reflexivity|].
  cbn [FaceAuth.sort_by_dist]. rewrite insert_by_dist_count.
  cbn [map count_occ]. rewrite IH. reflexivity.
Qed.

Lemma distances_labels (train : list (FaceAuth.row vec)) test_vec :
  map snd (FaceAuth.distances _euclid_dist train test_vec) = map snd train.
Proof. unfold FaceAuth.distances. rewrite map_map. reflexivity. Qed.

Lemma slice_to_all {A : Type} (k : Z) (l : list A) :
  Z.of_nat (length l) <= k -> Np.slice_to k l = l.
Proof.
  intros Hk. unfold Np.slice_to.
  destruct (k <? 0) eqn:E; [apply Z.ltb_lt in E; lia|].
  apply firstn_all2. lia.
Qed.

(** With [k] at least the number of rows, the vote is taken over all the
    labels of the bank. *)
Lemma knn_small_bank train test_vec k threshold lbl :
  Z.of_nat (length train) <= k ->
  FaceAuth._knn _euclid_dist train test_vec k threshold = Return lbl ->
  lbl <> -1 ->
  (0 < bank_count train lbl)%nat
  /\ (forall l', (bank_count train l' <= bank_count train lbl)%nat)
  /\ (forall l', bank_count train l' = bank_count train lbl -> lbl <= l').
Proof.
  intros Hk H Hlbl. unfold FaceAuth._knn in H.
  set (sorted := FaceAuth.sort_by_dist
                   (FaceAuth.distances _euclid_dist train test_vec)) in *.
  assert (length sorted = length train) as Hlen.
  { unfold sorted, FaceAuth.distances.
    rewrite sort_by_dist_length, length_map. reflexivity. }
  assert (forall v, count_occ Z.eq_dec (map snd sorted) v = bank_count train v)
    as Hcount.
  { intros v. unfold sorted, bank_count.
    rewrite sort_by_dist_count, distances_labels. reflexivity. }
  rewrite slice_to_all in H by lia.
  destruct sorted as [|[d0 l0] t] eqn:Hs; [discriminate|].
  destruct (negb (Qle_bool d0 threshold)); [inversion H; congruence|].
  destruct (majority_spec (map snd ((d0, l0) :: t))) as (v & Hv & Hpos & Hmax & Hmin);
    [discriminate|].
  rewrite Hv in H. inversion H; subst v.
  rewrite Hcount in Hpos. split; [exact Hpos|]. split.
  - intros l'. rewrite <- !Hcount. apply Hmax.
  - intros l' Heq. apply Hmin. rewrite !Hcount. exact Heq.
Qed.

End SmallBankFacts.

(** X16. With [k] at least the number of rows of the bank (the program uses
    [k = 5]), [_knn] ignores the sample apart from the rejection test: a
    result other than -1 is the most frequent label of the whole bank, the
    smallest one when several are most frequent, so two samples that are not
    rejected get the same label whatever their distances to the rows. *)
Theorem knn_small_bank_ignores_sample :
  forall (vec : Type) (_euclid_dist : vec -> vec -> Q)
         (train : list (FaceAuth.row vec)) (k : Z) (threshold : Q)
         (test_vec : vec) (lbl : Z),
    Z.of_nat (length train) <= k ->
    FaceAuth._knn _euclid_dist train test_vec k threshold = Return lbl ->
    lbl <> -1 ->
    (0 < bank_count train lbl)%nat
    /\ (forall l', (bank_count train l' <= bank_count train lbl)%nat)
    /\ (forall l', bank_count train l' = bank_count train lbl -> lbl <= l')
    /\ (forall test_vec' lbl',
          FaceAuth._knn _euclid_dist train test_vec' k threshold = Return lbl' ->
          lbl' <> -1 ->
          lbl' = lbl).
Proof.
  intros vec d train k threshold test_vec lbl Hk H Hlbl.
  destruct (knn_small_bank vec d train test_vec k threshold lbl Hk H Hlbl)
    as (Hpos & Hmax & Hmin).
  split; [exact Hpos|]. split; [exact Hmax|]. split; [exact Hmin|].
  intros test_vec' lbl' H' Hlbl'.
  destruct (knn_small_bank vec d train test_vec' k threshold lbl' Hk H' Hlbl')
    as (_ & Hmax' & Hmin').
  pose proof (Hmax lbl'). pose proof (Hmax' lbl).
  pose proof (Hmin lbl' ltac:(lia)). pose proof (Hmin' lbl ltac:(lia)). lia.
Qed.

Lemma knn_small_bank_ignores_sample_witness :
  Z.of_nat (length [(0, 0); (10, 0); (1000, 1)]) <= 5
  /\ FaceAuth._knn Example1D.dist [(0, 0); (10, 0); (1000, 1)] 5 5 2600 = Return 0
  /\ FaceAuth._knn Example1D.dist [(0, 0); (10, 0); (1000, 1)] 1000 5 2600 = Return 0
  /\ FaceAuth._knn Example1D.dist [(0, 0); (10, 0); (1000, 1)] 1000 1 2600 = Return 1.
Proof.
  assert (FaceAuth._knn Example1D.dist [(0, 0); (10, 0); (1000, 1)] 5 5 2600 = Return 0)
    as Hnear by (vm_compute; reflexivity).
  assert (FaceAuth._knn Example1D.dist [(0, 0); (10, 0); (1000, 1)] 1000 5 2600
          = Return 0) as Hfar by (vm_compute; reflexivity).
  split; [simpl; lia|]. split; [exact Hnear|]. split; [exact Hfar|].
  destruct (knn_small_bank_ignores_sample Z Example1D.dist
              [(0, 0); (10, 0); (1000, 1)] 5 2600 5 0)
    as (_ & _ & _ & Hsame); [simpl; lia | exact Hnear | lia |].
  pose proof (Hsame 1000 0 Hfar ltac:(lia)) as _.
  vm_compute. reflexivity.
Defined.

(** ** Voice mode *)

Section VoiceFacts.

Import Repl.

Variable cfg : Config.config.
Variable h : host.

Lemma late_voice_mode s f : voice_mode (fst (late h s f)) = voice_mode s.
Proof.
  destruct f as [key|kv| |heard|nav]; simpl.
  - rewrite navigate_session. reflexivity.
  - destruct (locked_like (identity s)); [reflexivity|].
    destruct kv as [[k v]|]; reflexivity.
  - destruct (locked_like (identity s)); reflexivity.
  - destruct (negb (stt_available h)); [reflexivity|].
    destruct heard as [sp|]; [|reflexivity].
    pose proof (nav_or_chat_session s (spoken_nav_place sp)) as Hn.
    destruct (calendar_gate s) as [allowed reads].
    destruct (nav_or_chat s (spoken_nav_place sp)) as [s' evs]. simpl in Hn. subst s'.
    destruct allowed; [destruct (spoken_cal_handled sp)|]; reflexivity.
  - rewrite nav_or_chat_session. reflexivity.
Qed.

(** A command leaves voice mode as it is, turns it off, or turns it on with
    speech recognition available. *)
Lemma step_voice_mode s c :
  voice_mode (fst (step cfg h s c)) = true ->
  voice_mode s = true \/ stt_available h = true.
Proof.
  destruct c; simpl; auto.
  - destruct (negb (has_cv2 h)); [auto|].
    destruct who as [name|]; [|auto].
    destruct (negb (truthy (Some name))); [auto|].
    destruct (negb (Personas.is_persona name)); [auto|]. simpl.
    destruct (stt_available h); simpl; auto.
  - discriminate.
  - destruct (Personas.is_persona devname && _); [|auto]. simpl.
    destruct (stt_available h); simpl; auto.
  - destruct (String.eqb (identity s) "Aldridge" || String.eqb (identity s) "Professor");
      [auto|].
    destruct (String.eqb (identity s) "LOCKED"); simpl.
    { destruct (stt_available h); simpl; auto. }
    destruct (String.eqb (identity s) "guest"); auto.
  - destruct (_ || _); [|auto]. destruct (Personas.is_persona (identity s)); auto.
  - destruct idx; [|auto]. destruct (Personas.is_persona (identity s)); auto.
  - destruct rate_val; [|auto]. destruct (Personas.is_persona (identity s)); auto.
  - destruct (String.eqb arg "on").
    + destruct (stt_available h); simpl; auto.
    + destruct (String.eqb arg "off"); simpl; [discriminate | auto].
  - unfold set_calendar_permission.
    destruct (negb _); [auto|]. destruct (negb _); auto.
  - unfold set_calendar_permission.
    destruct (negb _); [auto|]. destruct (negb _); auto.
  - destruct (locked_like (identity s)); [auto|]. destruct (negb _); auto.
  - pose proof (late_voice_mode s (shape u)) as Hlate.
    destruct (calendar_gate s) as [allowed reads].
    destruct (late h s (shape u)) as [s' evs]. simpl in Hlate.
    destruct allowed; [destruct (cal_handled u)|destruct (has_cal_word u)]; simpl;
      rewrite ?Hlate; auto.
Qed.

End VoiceFacts.

(** X17. In every session the program can reach, voice mode is on only on a
    machine where speech recognition is available; [/lock] always turns it
    off, and a session that starts locked starts with voice mode off. *)
Theorem voice_mode_needs_stt :
  forall (cfg : Config.config) (h : Repl.host) (s : Repl.session),
    Repl.reachable cfg h s ->
    (Repl.voice_mode s = true -> Repl.stt_available h = true)
    /\ Repl.voice_mode (fst (Repl.step cfg h s Repl.CmdLock)) = false
    /\ (forall profiles0 who,
          Repl.identity (Repl.run_repl cfg h profiles0 who []).1 = "LOCKED"%string ->
          Repl.voice_mode (Repl.run_repl cfg h profiles0 who []).1 = false).
Proof.
  intros cfg h s Hreach. split; [|split].
  - induction Hreach as [profiles0 who|s c Hreach IH].
    + simpl. intros Hv.
      apply andb_true_iff in Hv as [Hv _]. apply andb_true_iff in Hv as [_ Hv].
      exact Hv.
    + intros Hv. destruct (step_voice_mode cfg h s c Hv) as [Hs|Hs]; auto.
  - reflexivity.
  - intros profiles0 who Hid. unfold Repl.run_repl in *. simpl in *.
    apply String.eqb_eq in Hid. rewrite Hid. simpl. apply andb_false_r.
Qed.

Lemma voice_mode_needs_stt_witness :
  Repl.reachable Config.defaults ExampleVoice.host ExampleVoice.aldridge_start
  /\ Repl.voice_mode ExampleVoice.aldridge_start = true
  /\ Repl.stt_available ExampleVoice.host = true.
Proof.
  assert (Repl.reachable Config.defaults ExampleVoice.host
            ExampleVoice.aldridge_start) as Hreach
    by apply Repl.reachable_start.
  assert (Repl.voice_mode ExampleVoice.aldridge_start = true) as Hon
    by reflexivity.
  split; [exact Hreach|]. split; [exact Hon|].
  destruct (voice_mode_needs_stt Config.defaults ExampleVoice.host
              ExampleVoice.aldridge_start Hreach) as (Hv & _ & _).
  exact (Hv Hon).
Defined.

(** ** Enrollment *)

Section EnrollArith.

Lemma div_succ ke s :
  1 <= ke -> 0 <= s ->
  ((s + 1) mod ke = 0 -> s + 1 = (s / ke + 1) * ke /\ (s + 1) / ke = s / ke + 1)
  /\ ((s + 1) mod ke <> 0 ->
      s / ke * ke < s + 1 < (s / ke + 1) * ke /\ (s + 1) / ke = s / ke).
Proof.
  intros Hke Hs.
  pose proof (Z.div_mod s ke ltac:(lia)) as Hd.
  pose proof (Z.mod_pos_bound s ke ltac:(lia)) as Hr.
  pose proof (Z.div_mod (s + 1) ke ltac:(lia)) as Hd'.
  pose proof (Z.mod_pos_bound (s + 1) ke ltac:(lia)) as Hr'.
  set (q := s / ke) in *. set (r := s mod ke) in *.
  set (q' := (s + 1) / ke) in *. set (r' := (s + 1) mod ke) in *.
  assert (q' = q \/ q' = q + 1) as Hq by nia.
  split; intros Hm.
  - assert (q' = q + 1) by nia. nia.
  - assert (q' = q) by nia. nia.
Qed.

Lemma kept_length {A : Type} ke (l : list A) : forall s,
  1 <= ke -> 0 <= s ->
  Z.of_nat (length (kept ke s l)) = (s + Z.of_nat (length l)) / ke - s / ke.
Proof.
  induction l as [|x t IH]; intros s Hke Hs.
  - simpl. rewrite Z.add_0_r. lia.
  - cbn [kept length]. destruct (div_succ ke s Hke Hs) as [Hz Hnz].
    replace (s + Z.of_nat (S (length t))) with (s + 1 + Z.of_nat (length t)) by lia.
    destruct ((s + 1) mod ke =? 0) eqn:E.
    + apply Z.eqb_eq in E. destruct (Hz E) as [_ Hq].
      cbn [length]. rewrite Nat2Z.inj_succ, IH by lia. lia.
    + apply Z.eqb_neq in E. destruct (Hnz E) as [_ Hq].
      rewrite IH by lia. lia.
Qed.

Lemma kept_lookup {A : Type} ke (l : list A) : forall s j x,
  1 <= ke -> 0 <= s ->
  kept ke s l !! j = Some x ->
  l !! Z.to_nat ((s / ke + Z.of_nat j + 1) * ke - s - 1) = Some x.
Proof.
  induction l as [|a t IH]; intros s j x Hke Hs Hj; [discriminate|].
  cbn [kept] in Hj. destruct (div_succ ke s Hke Hs) as [Hz Hnz].
  destruct ((s + 1) mod ke =? 0) eqn:E.
  - apply Z.eqb_eq in E. destruct (Hz E) as [Hmul Hq].
    destruct j as [|j].
    + simpl in Hj. inversion Hj; subst.
      replace ((s / ke + Z.of_nat 0 + 1) * ke - s - 1) with 0 by lia. reflexivity.
    + simpl in Hj. apply IH in Hj; [|lia|lia]. rewrite Hq in Hj.
      replace (Z.to_nat ((s / ke + Z.of_nat (S j) + 1) * ke - s - 1))
        with (S (Z.to_nat ((s / ke + 1 + Z.of_nat j + 1) * ke - (s + 1) - 1)))
        by nia.
      exact Hj.
  - apply Z.eqb_neq in E. destruct (Hnz E) as [Hbound Hq].
    apply IH in Hj; [|lia|lia]. rewrite Hq in Hj.
    replace (Z.to_nat ((s / ke + Z.of_nat j + 1) * ke - s - 1))
      with (S (Z.to_nat ((s / ke + Z.of_nat j + 1) * ke - (s + 1) - 1)))
      by nia.
    exact Hj.
Qed.

Lemma kept_app {A : Type} ke (l : list A) x : forall s,
  kept ke s (l ++ [x])
  = kept ke s l
    ++ (if (s + Z.of_nat (length l) + 1) mod ke =? 0 then [x] else []).
Proof.
  induction l as [|a t IH]; intros s.
  - simpl. rewrite Z.add_0_r. destruct ((s + 1) mod ke =? 0); reflexivity.
  - cbn [kept app length]. rewrite IH.
    replace (s + 1 + Z.of_nat (length t) + 1)
      with (s + Z.of_nat (S (length t)) + 1) by lia.
    destruct ((s + 1) mod ke =? 0); reflexivity.
Qed.

End EnrollArith.

Section EnrollFacts.

Variable vec : Type.
Variable cfg : Config.config.

Lemma insert_by_area_head x (l : list (FaceAuth.face vec)) :
  head (Enroll.insert_by_area x l)
  = match head l with
    | None => Some x
    | Some y => if Enroll.area y <=? Enroll.area x then Some x else Some y
    end.
Proof.
  destruct l as [|y t]; [reflexivity|]. simpl.
  destruct (Enroll.area y <=? Enroll.area x); reflexivity.
Qed.

Lemma largest_cons x (t : list (FaceAuth.face vec)) :
  Enroll.largest (x :: t)
  = match Enroll.largest t with
    | None => Some x
    | Some y => if Enroll.area y <=? Enroll.area x then Some x else Some y
    end.
Proof. unfold Enroll.largest. simpl. apply insert_by_area_head. Qed.

Lemma largest_none (faces : list (FaceAuth.face vec)) :
  Enroll.largest faces = None -> faces = [].
Proof.
  destruct faces as [|x t]; [reflexivity|]. rewrite largest_cons.
  destruct (Enroll.largest t) as [y|]; [|discriminate].
  destruct (Enroll.area y <=? Enroll.area x); discriminate.
Qed.

(** The face taken is the first one of largest area. *)
Lemma largest_split (faces : list (FaceAuth.face vec)) : forall f,
  Enroll.largest faces = Some f ->
  exists pre post,
    faces = pre ++ f :: post
    /\ Forall (fun g => Enroll.area g < Enroll.area f) pre
    /\ Forall (fun g => Enroll.area g <= Enroll.area f) post.
Proof.
  induction faces as [|x t IH]; intros f H; [discriminate|].
  rewrite largest_cons in H.
  destruct (Enroll.largest t) as [y|] eqn:Hy.
  - destruct (IH y eq_refl) as (pre & post & Ht & Hpre & Hpost).
    destruct (Enroll.area y <=? Enroll.area x) eqn:E; inversion H; subst f.
    + apply Z.leb_le in E. exists [], t. split; [reflexivity|].
      split; [constructor|]. rewrite Ht. apply Forall_app. split.
      * eapply Forall_impl; [exact Hpre|]. simpl. intros g Hg. lia.
      * constructor; [exact E|].
        eapply Forall_impl; [exact Hpost|]. simpl. intros g Hg. lia.
    + apply Z.leb_gt in E. exists (x :: pre), post. rewrite Ht.
      split; [reflexivity|]. split; [|exact Hpost].
      constructor; assumption.
  - inversion H; subst f. apply largest_none in Hy. subst t.
    exists [], []. repeat split; constructor.
Qed.

Lemma largest_first_maximum pre (f : FaceAuth.face vec) post :
  Forall (fun g => Enroll.area g < Enroll.area f) pre ->
  Forall (fun g => Enroll.area g <= Enroll.area f) post ->
  Enroll.largest (pre ++ f :: post) = Some f.
Proof.
  intros Hpre Hpost. induction pre as [|g pre IH].
  - simpl. rewrite largest_cons.
    destruct (Enroll.largest post) as [y|] eqn:Hy; [|reflexivity].
    destruct (largest_split post y Hy) as (p1 & p2 & Hp & _ & _).
    rewrite Hp in Hpost. apply Forall_app in Hpost as [_ Hpost].
    inversion Hpost as [|? ? Hyf _]; subst.
    apply Z.leb_le in Hyf. rewrite Hyf. reflexivity.
  - inversion Hpre as [|? ? Hg Hpre']; subst.
    cbn [app]. rewrite largest_cons, (IH Hpre').
    destruct (Enroll.area f <=? Enroll.area g) eqn:E; [apply Z.leb_le in E; lia|].
    reflexivity.
Qed.

(** The crop of a frame is the crop of its largest face, taken under the
    tests that let a face vote in [recognize_quick]. *)
Lemma good_crop_largest (faces : list (FaceAuth.face vec)) f :
  Enroll.largest faces = Some f ->
  Enroll.good_crop cfg faces
  = if passes_filters cfg f then Some (FaceAuth.roi100 vec f) else None.
Proof.
  intros H. unfold Enroll.good_crop, passes_filters. rewrite H.
  rewrite !Z.leb_antisym.
  destruct (FaceAuth.face_w vec f <? Config.FACE_MIN_SIZE cfg),
    (FaceAuth.face_h vec f <? Config.FACE_MIN_SIZE cfg),
    (FaceAuth.roi_nonempty vec f),
    (Qle_bool (Config.FACE_BLUR_THRESH cfg) (FaceAuth.sharpness vec f)
     && Qle_bool (FaceAuth.sharpness vec f) (Config.FACE_MAX_BLUR cfg));
    reflexivity.
Qed.

Lemma area_exact (f : FaceAuth.face vec) :
  0 <= FaceAuth.face_w vec f <= 46340 ->
  0 <= FaceAuth.face_h vec f <= 46340 ->
  Enroll.area f = FaceAuth.face_w vec f * FaceAuth.face_h vec f.
Proof.
  intros Hw Hh. unfold Enroll.area, Enroll.wrap32.
  rewrite Z.mod_small by nia. lia.
Qed.

Variable keep_every max_frames : Z.
Variable cam : nat -> Enroll.turn vec.

Lemma good_crops_S n :
  good_crops cfg cam (S n)
  = good_crops cfg cam n
    ++ match Enroll.shot (cam n) with
       | None => []
       | Some faces =>
           match Enroll.good_crop cfg faces with
           | Some roi100 => [roi100]
           | None => []
           end
       end.
Proof.
  unfold good_crops. rewrite seq_S, omap_app. simpl.
  destruct (Enroll.shot (cam n)) as [faces|]; [|reflexivity].
  destruct (Enroll.good_crop cfg faces); reflexivity.
Qed.

(** The loop, started in the state it has after [i] turns, ends at the first
    turn from [i] on that breaks, with every [keep_every]-th counted crop as
    samples; it is still running after [fuel] turns when none of them
    breaks. *)
Lemma capture_loop_spec : forall fuel i,
  keep_every <> 0 ->
  Enroll.capture_loop cfg keep_every max_frames cam fuel i
    (kept keep_every 0 (good_crops cfg cam i))
    (Z.of_nat (length (good_crops cfg cam i)))
  = match List.find (breaks cfg max_frames cam) (seq i fuel) with
    | Some n =>
        Enroll.Broke (kept keep_every 0 (good_crops cfg cam (S n)))
          (Z.of_nat (length (good_crops cfg cam (S n))))
    | None => Enroll.StillRunning
    end.
Proof.
  induction fuel as [|fuel IH]; intros i Hke; [reflexivity|].
  cbn [Enroll.capture_loop seq List.find].
  pose proof (good_crops_S i) as HS. unfold breaks at 1.
  apply Z.eqb_neq in Hke as Hke'.
  destruct (Enroll.shot (cam i)) as [faces|].
  - destruct (Enroll.good_crop cfg faces) as [roi100|].
    + rewrite Hke'.
      assert (Z.of_nat (length (good_crops cfg cam i)) + 1
              = Z.of_nat (length (good_crops cfg cam (S i)))) as Hlen.
      { rewrite HS, length_app. simpl. lia. }
      assert ((if (Z.of_nat (length (good_crops cfg cam i)) + 1) mod keep_every =? 0
               then kept keep_every 0 (good_crops cfg cam i) ++ [roi100]
               else kept keep_every 0 (good_crops cfg cam i))
              = kept keep_every 0 (good_crops cfg cam (S i))) as Hkept.
      { rewrite HS, kept_app. rewrite Z.add_0_l.
        destruct ((Z.of_nat (length (good_crops cfg cam i)) + 1) mod keep_every =? 0);
          [reflexivity | rewrite app_nil_r; reflexivity]. }
      rewrite Hkept, Hlen.
      destruct (Enroll.quit_key (Enroll.key (cam i))
                || (max_frames <=? Z.of_nat (length (good_crops cfg cam (S i)))));
        [reflexivity | apply IH, Z.eqb_neq, Hke'].
    + rewrite app_nil_r in HS. rewrite <- HS.
      destruct (Enroll.quit_key (Enroll.key (cam i))
                || (max_frames <=? Z.of_nat (length (good_crops cfg cam (S i)))));
        [reflexivity|].
      apply IH, Z.eqb_neq, Hke'.
  - rewrite app_nil_r in HS. rewrite <- HS.
    destruct (Enroll.quit_key (Enroll.key (cam i))); [reflexivity|].
    apply IH, Z.eqb_neq, Hke'.
Qed.

Lemma find_first {A : Type} (p : A -> bool) (l : list A) n x :
  l !! n = Some x ->
  p x = true ->
  (forall j y, (j < n)%nat -> l !! j = Some y -> p y = false) ->
  List.find p l = Some x.
Proof.
  revert n. induction l as [|a t IH]; intros n Hx Hp Hbefore; [discriminate|].
  destruct n as [|n].
  - simpl in Hx. inversion Hx; subst. simpl. rewrite Hp. reflexivity.
  - simpl. rewrite (Hbefore 0%nat a ltac:(lia) eq_refl).
    apply (IH n); [exact Hx | exact Hp|].
    intros j y Hj Hy. apply (Hbefore (S j) y); [lia | exact Hy].
Qed.

Lemma find_none {A : Type} (p : A -> bool) (l : list A) :
  (forall x, In x l -> p x = false) -> List.find p l = None.
Proof.
  induction l as [|a t IH]; intros H; [reflexivity|].
  simpl. rewrite (H a) by (left; reflexivity).
  apply IH. intros x Hx. apply H. right. exact Hx.
Qed.

Lemma find_break n fuel :
  (n < fuel)%nat ->
  (forall i, (i < n)%nat -> breaks cfg max_frames cam i = false) ->
  breaks cfg max_frames cam n = true ->
  List.find (breaks cfg max_frames cam) (seq 0 fuel) = Some n.
Proof.
  intros Hn Hbefore Hbreak.
  apply (find_first _ _ n); [|exact Hbreak|].
  - rewrite lookup_seq_lt by lia. reflexivity.
  - intros j y Hj Hy. apply lookup_seq in Hy as [-> _]. apply Hbefore. lia.
Qed.

(** Before the loop breaks, fewer than [max_frames] crops are counted, or
    none. *)
Lemma crops_below_max n :
  (forall i, (i < n)%nat -> breaks cfg max_frames cam i = false) ->
  length (good_crops cfg cam n) = 0%nat
  \/ Z.of_nat (length (good_crops cfg cam n)) < max_frames.
Proof.
  induction n as [|n IH]; intros Hbefore; [left; reflexivity|].
  pose proof (Hbefore n ltac:(lia)) as Hn. unfold breaks in Hn.
  pose proof (good_crops_S n) as HS.
  destruct (Enroll.shot (cam n)) as [faces|].
  - apply orb_false_iff in Hn as [_ Hn]. apply Z.leb_gt in Hn. right. exact Hn.
  - rewrite app_nil_r in HS. rewrite HS. apply IH.
    intros i Hi. apply Hbefore. lia.
Qed.

Lemma crops_at_most_max n :
  (forall i, (i < n)%nat -> breaks cfg max_frames cam i = false) ->
  Z.of_nat (length (good_crops cfg cam (S n))) <= Z.max 1 max_frames.
Proof.
  intros Hbefore. pose proof (crops_below_max n Hbefore) as Hn.
  rewrite good_crops_S, length_app.
  assert (length match Enroll.shot (cam n) with
                 | None => []
                 | Some faces =>
                     match Enroll.good_crop cfg faces with
                     | Some roi100 => [roi100]
                     | None => []
                     end
                 end <= 1)%nat as Hone.
  { destruct (Enroll.shot (cam n)) as [faces|]; [|simpl; lia].
    destruct (Enroll.good_crop cfg faces); simpl; lia. }
  lia.
Qed.

End EnrollFacts.

(** X18. [capture_profile], once its loop is reached with [keep_every >= 1]:
    the loop ends at the first turn in which [q] is pressed or, the frame
    being read, [max_frames] crops are counted. The samples are the counted
    crops number [keep_every], [2 * keep_every], ...: their number is the
    number of counted crops divided by [keep_every], rounded down, and at
    most [max(1, max_frames)] crops are counted. With no sample the function
    returns [False] and writes no file; otherwise it returns [True] and the
    dataset holds [<name>.npy] with one row per sample. *)
Theorem capture_profile_samples :
  forall (vec : Type) (cfg : Config.config) (w : Enroll.studio vec) (name : string)
         (keep_every max_frames : Z) (fuel : nat) (cam : nat -> Enroll.turn vec)
         (n : nat),
    Enroll.HAS_CV2 vec w = true ->
    Enroll.camera vec w = Some cam ->
    Enroll.cascade_found vec w = true ->
    Enroll.cascade_loads vec w = true ->
    1 <= keep_every ->
    (forall i, (i < n)%nat -> breaks cfg max_frames cam i = false) ->
    breaks cfg max_frames cam n = true ->
    (n < fuel)%nat ->
    Enroll.capture_profile cfg w name keep_every max_frames fuel
    = match kept keep_every 0 (good_crops cfg cam (S n)) with
      | [] =>
          Enroll.Returned false (Some (default [] (Enroll.face_dataset vec w)))
      | x :: samples =>
          Enroll.Returned true
            (Some (Enroll.save (name ++ ".npy")
                     {| FaceAuth.ndim := 2; FaceAuth.npy_rows := x :: samples |}
                     (default [] (Enroll.face_dataset vec w))))
      end
    /\ Z.of_nat (length (kept keep_every 0 (good_crops cfg cam (S n))))
       = Z.of_nat (length (good_crops cfg cam (S n))) / keep_every
    /\ Z.of_nat (length (good_crops cfg cam (S n))) <= Z.max 1 max_frames
    /\ forall j x,
         kept keep_every 0 (good_crops cfg cam (S n)) !! j = Some x ->
         good_crops cfg cam (S n) !! Z.to_nat ((Z.of_nat j + 1) * keep_every - 1)
         = Some x.
Proof.
  intros vec cfg w name ke mf fuel cam n Hcv Hcam Hfound Hloads Hke Hbefore Hbreak Hn.
  split; [|split; [|split]].
  - unfold Enroll.capture_profile. rewrite Hcv, Hcam, Hfound, Hloads. simpl.
    pose proof (capture_loop_spec vec cfg ke mf cam fuel 0 ltac:(lia)) as Hloop.
    change (Enroll.capture_loop cfg ke mf cam fuel 0 [] 0
            = match List.find (breaks cfg mf cam) (seq 0 fuel) with
              | Some n =>
                  Enroll.Broke (kept ke 0 (good_crops cfg cam (S n)))
                    (Z.of_nat (length (good_crops cfg cam (S n))))
              | None => Enroll.StillRunning
              end) in Hloop.
    rewrite Hloop.
    rewrite (find_break vec cfg mf cam n fuel Hn Hbefore Hbreak).
    destruct (kept ke 0 (good_crops cfg cam (S n))); reflexivity.
  - rewrite kept_length by lia. rewrite Z.add_0_l, Z.div_0_l by lia. lia.
  - apply crops_at_most_max. exact Hbefore.
  - intros j x Hj. apply kept_lookup in Hj; [|lia|lia].
    rewrite Z.div_0_l in Hj by lia.
    replace ((Z.of_nat j + 1) * ke - 1) with ((0 + Z.of_nat j + 1) * ke - 0 - 1) by lia.
    exact Hj.
Qed.

Lemma capture_profile_samples_witness :
  (forall i, (i < 24)%nat ->
     breaks Config.defaults 1000 (ExampleEnroll.counting 24) i = false)
  /\ breaks Config.defaults 1000 (ExampleEnroll.counting 24) 24 = true
  /\ Enroll.capture_profile Config.defaults (ExampleEnroll.studio 24 None) "Ann"
       10 1000 100
     = Enroll.Returned true
         (Some [("Ann.npy"%string,
                 {| FaceAuth.ndim := 2; FaceAuth.npy_rows := [9; 19] |})]).
Proof.
  assert (forall i, (i < 24)%nat ->
            breaks Config.defaults 1000 (ExampleEnroll.counting 24) i = false)
    as Hbefore.
  { intros i Hi.
    do 24 (destruct i as [|i]; [vm_compute; reflexivity|]). lia. }
  assert (breaks Config.defaults 1000 (ExampleEnroll.counting 24) 24 = true)
    as Hbreak by (vm_compute; reflexivity).
  split; [exact Hbefore|]. split; [exact Hbreak|].
  destruct (capture_profile_samples Z Config.defaults (ExampleEnroll.studio 24 None)
              "Ann" 10 1000 100 (ExampleEnroll.counting 24) 24
              eq_refl eq_refl eq_refl eq_refl ltac:(lia) Hbefore Hbreak ltac:(lia))
    as (Hrun & _).
  rewrite Hrun. vm_compute. reflexivity.
Defined.

(** X19. In a frame with faces [capture_profile] looks at one face only: the
    first one, in the order of detection, whose area is the largest. The
    crop of that face is counted exactly when the face passes the tests that
    let a face vote in [recognize_quick]; when it fails them nothing is
    taken from the frame, whatever the other faces are. For boxes up to
    46340 pixels wide and high the area is the product of width and
    height. *)
Theorem enrollment_takes_largest_face :
  forall (vec : Type) (cfg : Config.config) (faces : list (FaceAuth.face vec)),
    (forall f,
       Enroll.largest faces = Some f <->
       exists pre post,
         faces = pre ++ f :: post
         /\ Forall (fun g => Enroll.area g < Enroll.area f) pre
         /\ Forall (fun g => Enroll.area g <= Enroll.area f) post)
    /\ (faces <> [] ->
        exists f,
          Enroll.largest faces = Some f
          /\ Enroll.good_crop cfg faces
             = if passes_filters cfg f then Some (FaceAuth.roi100 vec f) else None)
    /\ (faces = [] -> Enroll.good_crop cfg faces = None)
    /\ (forall f,
          0 <= FaceAuth.face_w vec f <= 46340 ->
          0 <= FaceAuth.face_h vec f <= 46340 ->
          Enroll.area f = FaceAuth.face_w vec f * FaceAuth.face_h vec f).
Proof.
  intros vec cfg faces. split; [|split; [|split]].
  - intros f. split.
    + apply largest_split.
    + intros (pre & post & -> & Hpre & Hpost).
      apply largest_first_maximum; assumption.
  - intros Hne. destruct (Enroll.largest faces) as [f|] eqn:Hl.
    + exists f. split; [reflexivity|]. apply good_crop_largest. exact Hl.
    + apply largest_none in Hl. contradiction.
  - intros ->. reflexivity.
  - intros f. apply area_exact.
Qed.

Lemma enrollment_takes_largest_face_witness :
  [Example1D.clear_face 5; ExampleEnroll.blurred_large] <> []
  /\ Enroll.largest [Example1D.clear_face 5; ExampleEnroll.blurred_large]
     = Some ExampleEnroll.blurred_large
  /\ passes_filters Config.defaults (Example1D.clear_face 5) = true
  /\ Enroll.good_crop Config.defaults
       [Example1D.clear_face 5; ExampleEnroll.blurred_large] = None
  /\ Enroll.area ExampleEnroll.blurred_large = 40000.
Proof.
  destruct (enrollment_takes_largest_face Z Config.defaults
              [Example1D.clear_face 5; ExampleEnroll.blurred_large])
    as (Hfirst & Hcrop & _ & Harea).
  assert (Enroll.largest [Example1D.clear_face 5; ExampleEnroll.blurred_large]
          = Some ExampleEnroll.blurred_large) as Hl.
  { apply Hfirst. exists [Example1D.clear_face 5], []. split; [reflexivity|].
    split; [|constructor].
    constructor; [vm_compute; reflexivity | constructor]. }
  split; [discriminate|]. split; [exact Hl|]. split; [vm_compute; reflexivity|].
  split.
  - destruct (Hcrop ltac:(discriminate)) as (f & Hf & Hgood).
    rewrite Hl in Hf. inversion Hf; subst f. rewrite Hgood. vm_compute. reflexivity.
  - rewrite (Harea ExampleEnroll.blurred_large); [reflexivity | simpl; lia | simpl; lia].
Defined.

Section EnrollLoadFacts.

Variable vec : Type.




Lemma capture_loop_zero cfg max_frames (cam : nat -> Enroll.turn vec) : forall fuel i,
  Enroll.capture_loop cfg 0 max_frames cam fuel i [] 0 = Enroll.Broke [] 0
  \/ Enroll.capture_loop cfg 0 max_frames cam fuel i [] 0 = Enroll.ZeroDivisionError
  \/ Enroll.capture_loop cfg 0 max_frames cam fuel i [] 0 = Enroll.StillRunning.
Proof.
  induction fuel as [|fuel IH]; intros i; [right; right; reflexivity|].
  simpl. destruct (Enroll.shot (cam i)) as [faces|].
  - destruct (Enroll.good_crop cfg faces); [right; left; reflexivity|].
    destruct (Enroll.quit_key (Enroll.key (cam i)) || (max_frames <=? 0));
      [left; reflexivity | apply IH].
  - destruct (Enroll.quit_key (Enroll.key (cam i))); [left; reflexivity | apply IH].
Qed.

Lemma good_crops_empty_before cfg (cam : nat -> Enroll.turn vec) n i :
  good_crops cfg cam n = [] -> (i <= n)%nat -> good_crops cfg cam i = [].
Proof.
  intros Hn Hi. induction n as [|n IH].
  - assert (i = 0%nat) as -> by lia. reflexivity.
  - destruct (Nat.eq_dec i (S n)) as [->|Hne]; [exact Hn|].
    rewrite good_crops_S in Hn. apply app_eq_nil in Hn as [Hn _].
    apply IH; [exact Hn | lia].
Qed.

Lemma capture_loop_zero_raises cfg max_frames (cam : nat -> Enroll.turn vec) :
  forall m fuel i,
  (m < fuel)%nat ->
  good_crops cfg cam (i + m) = [] ->
  (forall j, (i <= j < i + m)%nat -> breaks cfg max_frames cam j = false) ->
  good_crops cfg cam (S (i + m)) <> [] ->
  Enroll.capture_loop cfg 0 max_frames cam fuel i [] 0 = Enroll.ZeroDivisionError.
Proof.
  induction m as [|m IH]; intros fuel i Hm Hnone Hbefore Hgood;
    (destruct fuel as [|fuel]; [lia|]); simpl.
  - rewrite Nat.add_0_r in *. rewrite good_crops_S, Hnone in Hgood.
    destruct (Enroll.shot (cam i)) as [faces|]; [|contradiction].
    destruct (Enroll.good_crop cfg faces); [reflexivity | contradiction].
  - pose proof (Hbefore i ltac:(lia)) as Hi. unfold breaks in Hi.
    assert (good_crops cfg cam (S i) = []) as HSi
      by (apply (good_crops_empty_before cfg cam (i + S m)); [exact Hnone | lia]).
    assert (Enroll.capture_loop cfg 0 max_frames cam fuel (S i) [] 0
            = Enroll.ZeroDivisionError) as Hrest.
    { apply (IH fuel (S i)); [lia | | |].
      - replace (S i + m)%nat with (i + S m)%nat by lia. exact Hnone.
      - intros j Hj. apply Hbefore. lia.
      - replace (S i + m)%nat with (i + S m)%nat by lia. exact Hgood. }
    rewrite good_crops_S in HSi. apply app_eq_nil in HSi as [_ HSi].
    rewrite (good_crops_empty_before cfg cam (i + S m) (S i) Hnone ltac:(lia)) in Hi.
    destruct (Enroll.shot (cam i)) as [faces|].
    + destruct (Enroll.good_crop cfg faces); [discriminate|].
      simpl in Hi. change (Z.of_nat 0) with 0 in Hi. rewrite Hi. exact Hrest.
    + rewrite Hi. exact Hrest.
Qed.

End EnrollLoadFacts.



(** X21. [capture_profile] called with [keep_every = 0] never enrolls: it
    returns [False], or it raises [ZeroDivisionError] (from
    [frame_counter % keep_every]) at the first frame whose crop is counted,
    when the loop has not ended before. *)
Theorem capture_profile_keep_every_zero :
  forall (vec : Type) (cfg : Config.config) (w : Enroll.studio vec) (name : string)
         (max_frames : Z) (fuel : nat),
    (forall ok dataset,
       Enroll.capture_profile cfg w name 0 max_frames fuel
       = Enroll.Returned ok dataset ->
       ok = false)
    /\ (forall cam n,
          Enroll.HAS_CV2 vec w = true ->
          Enroll.camera vec w = Some cam ->
          Enroll.cascade_found vec w = true ->
          Enroll.cascade_loads vec w = true ->
          (n < fuel)%nat ->
          good_crops cfg cam n = [] ->
          good_crops cfg cam (S n) <> [] ->
          (forall i, (i < n)%nat -> breaks cfg max_frames cam i = false) ->
          Enroll.capture_profile cfg w name 0 max_frames fuel
          = Enroll.Raised (Some (default [] (Enroll.face_dataset vec w)))).
Proof.
  intros vec cfg w name mf fuel. split.
  - intros ok dataset H. unfold Enroll.capture_profile in H.
    destruct (negb (Enroll.HAS_CV2 vec w)); [inversion H; reflexivity|].
    destruct (Enroll.camera vec w) as [cam|]; [|inversion H; reflexivity].
    destruct (negb (Enroll.cascade_found vec w)); [inversion H; reflexivity|].
    destruct (negb (Enroll.cascade_loads vec w)); [inversion H; reflexivity|].
    destruct (capture_loop_zero vec cfg mf cam fuel 0) as [Hl|[Hl|Hl]];
      rewrite Hl in H; inversion H; reflexivity.
  - intros cam n Hcv Hcam Hfound Hloads Hn Hnone Hgood Hbefore.
    unfold Enroll.capture_profile. rewrite Hcv, Hcam, Hfound, Hloads. simpl.
    rewrite (capture_loop_zero_raises vec cfg mf cam n fuel 0); [reflexivity | exact Hn | | |].
    + exact Hnone.
    + intros j Hj. apply Hbefore. lia.
    + exact Hgood.
Qed.

Lemma capture_profile_keep_every_zero_witness :
  good_crops Config.defaults (ExampleEnroll.counting 24) 0 = []
  /\ good_crops Config.defaults (ExampleEnroll.counting 24) 1 <> []
  /\ Enroll.capture_profile Config.defaults (ExampleEnroll.studio 24 None) "Ann"
       0 1000 100
     = Enroll.Raised (Some []).
Proof.
  split; [reflexivity|]. split; [vm_compute; discriminate|].
  destruct (capture_profile_keep_every_zero Z Config.defaults
              (ExampleEnroll.studio 24 None) "Ann" 1000 100) as [_ Hraise].
  assert (good_crops Config.defaults (ExampleEnroll.counting 24) 1 <> []) as Hgood
    by (vm_compute; discriminate).
  apply (Hraise (ExampleEnroll.counting 24) 0%nat eq_refl eq_refl eq_refl eq_refl
           ltac:(lia) eq_refl Hgood).
  intros i Hi. lia.
Defined.

(** ** From enrollment to recognition *)

Section ComposeFacts.

Variable vec : Type.
Variable _euclid_dist : vec -> vec -> Q.
Variable cfg : Config.config.

(** On a bank with one label, a sample within the threshold of a row gets
    that label. *)
Lemma knn_single_label (train : list (FaceAuth.row vec)) test_vec k threshold lbl0 r :
  1 <= k ->
  (forall r', In r' train -> snd r' = lbl0) ->
  In r train ->
  (_euclid_dist test_vec (fst r) <= threshold)%Q ->
  FaceAuth._knn _euclid_dist train test_vec k threshold = Return lbl0.
Proof.
  intros Hk Hall Hr Hnear.
  assert (train <> []) as Hne by (intros ->; destruct Hr).
  destruct (nearest_exists vec _euclid_dist train test_vec Hne) as (r0 & Hr0 & Hmin).
  rewrite (knn_near vec _euclid_dist train test_vec k threshold r0 Hr0 Hmin);
    [|eapply Qle_trans; [apply Hmin, Hr | exact Hnear]].
  destruct (majority_spec (map snd (k_nearest _euclid_dist train test_vec k)))
    as (v & Hv & Hpos & _).
  { apply k_nearest_nonempty; assumption. }
  rewrite Hv. f_equal.
  destruct (k_nearest_from_bank vec _euclid_dist train test_vec k v Hpos)
    as (r' & Hr' & Hl).
  rewrite <- Hl. apply Hall, Hr'.
Qed.

Lemma cast_vote_near train names k f lbl0 name r :
  passes_filters cfg f = true ->
  1 <= k ->
  (forall r', In r' train -> snd r' = lbl0) ->
  In r train ->
  (_euclid_dist (FaceAuth.roi100 vec f) (fst r) <= Config.FACE_DIST_THRESH cfg)%Q ->
  lbl0 <> -1 ->
  names !! lbl0 = Some name ->
  name <> ""%string ->
  cast_vote _euclid_dist cfg train names k f = Some name.
Proof.
  intros Hpass Hk Hall Hr Hnear Hlbl Hname Hne.
  unfold passes_filters in Hpass.
  apply andb_true_iff in Hpass as [Hpass Hsharp].
  apply andb_true_iff in Hpass as [Hsize Hroi].
  apply negb_true_iff in Hsize.
  unfold cast_vote, FaceAuth.face_vote. rewrite Hsize, Hroi, Hsharp. simpl.
  unfold FaceAuth.classify.
  rewrite (knn_single_label train _ k _ lbl0 r Hk Hall Hr Hnear).
  cbn [mbind result_bind].
  destruct (lbl0 =? -1) eqn:E; [apply Z.eqb_eq in E; contradiction|].
  rewrite Hname. simpl.
  destruct (String.eqb name "") eqn:En; [apply String.eqb_eq in En; contradiction|].
  reflexivity.
Qed.

Lemma frame_votes_shown samples names k faces name :
  1 <= k ->
  names !! 0 = Some name ->
  name <> ""%string ->
  Forall (fun f =>
            passes_filters cfg f = true
            /\ exists s, In s samples
                 /\ (_euclid_dist (FaceAuth.roi100 vec f) s
                     <= Config.FACE_DIST_THRESH cfg)%Q) faces ->
  frame_votes _euclid_dist cfg (map (fun v => (v, 0)) samples) names k (Some faces)
  = map (fun _ => name) faces.
Proof.
  intros Hk Hname Hne Hall. induction Hall as [|f rest [Hpass (s & Hs & Hnear)] _ IH];
    [reflexivity|].
  rewrite frame_votes_cons.
  rewrite (cast_vote_near (map (fun v => (v, 0)) samples) names k f 0 name (s, 0));
    try assumption.
  - rewrite IH. reflexivity.
  - intros r' Hr'. apply in_map_iff in Hr' as (v & <- & _). reflexivity.
  - apply in_map_iff. exists s. auto.
  - lia.
Qed.

Lemma tally_same name n : tally (repeat name n) name = n.
Proof.
  induction n as [|n IH]; [reflexivity|].
  change (repeat name (S n)) with ([name] ++ repeat name n).
  rewrite tally_app, tally_one, String.eqb_refl, IH. reflexivity.
Qed.

Lemma map_const_repeat {A B : Type} (b : B) (l : list A) :
  map (fun _ => b) l = repeat b (length l).
Proof. induction l as [|a t IH]; simpl; [reflexivity | rewrite IH; reflexivity]. Qed.

Lemma votes_from_shown samples names k cam name : forall n start,
  1 <= k ->
  names !! 0 = Some name ->
  name <> ""%string ->
  (forall i, (start <= i < start + n)%nat -> shows _euclid_dist cfg samples (cam i)) ->
  (n <= tally (votes_from _euclid_dist cfg (map (fun v => (v, 0%Z)) samples) names k
                 cam start n) name)%nat.
Proof.
  induction n as [|n IH]; intros start Hk Hname Hne Hshow; [simpl; lia|].
  rewrite votes_from_S, tally_app.
  specialize (IH (S start) Hk Hname Hne ltac:(intros i Hi; apply Hshow; lia)).
  pose proof (Hshow start ltac:(lia)) as Hnow. unfold shows in Hnow.
  destruct (cam start) as [faces|]; [|contradiction].
  destruct Hnow as [Hfaces Hall].
  rewrite (frame_votes_shown samples names k faces name Hk Hname Hne Hall).
  rewrite map_const_repeat, tally_same.
  destruct faces; [contradiction|]. simpl. lia.
Qed.

End ComposeFacts.

(** X22. From enrollment to recognition. After a first enrollment (no file
    in the dataset before) that returns [True], the dataset holds the one
    file [<name>.npy], and a recognition on that dataset can return no
    other name. With a non-empty name, [k >= 1] and
    [1 <= need_votes <= timeout_frames], it does return the name when every
    frame shows faces that all pass the tests and lie within
    [FACE_DIST_THRESH] of a sample. No identity is asked for at
    enrollment: if the name is a key of [PERSONAS], the following
    [/recognize] makes it the identity of the session, whatever the session
    was. *)
Theorem first_enrollment_unlocks :
  forall (vec : Type) (_euclid_dist : vec -> vec -> Q) (cfg : Config.config)
         (w : Enroll.studio vec) (name : string) (keep_every max_frames : Z)
         (fuel : nat) (files : list (string * FaceAuth.npy vec))
         (rw : FaceAuth.world vec) (timeout_frames need_votes : nat) (k : Z),
    Enroll.capture_profile cfg w name keep_every max_frames fuel
    = Enroll.Returned true (Some files) ->
    default [] (Enroll.face_dataset vec w) = [] ->
    FaceAuth.face_dataset vec rw = Some files ->
    exists samples,
      samples <> []
      /\ files = [((name ++ ".npy")%string,
                   {| FaceAuth.ndim := 2; FaceAuth.npy_rows := samples |})]
      /\ (forall x,
            FaceAuth.recognize_quick _euclid_dist cfg rw timeout_frames need_votes k
            = Return (Some x) ->
            x = name)
      /\ (forall cam,
            name <> ""%string ->
            1 <= k ->
            (1 <= need_votes <= timeout_frames)%nat ->
            FaceAuth.HAS_CV2 vec rw = true ->
            FaceAuth.camera vec rw = Some cam ->
            FaceAuth.cascade_found vec rw = true ->
            FaceAuth.cascade_loads vec rw = true ->
            (forall i, (i < timeout_frames)%nat ->
                       shows _euclid_dist cfg samples (cam i)) ->
            FaceAuth.recognize_quick _euclid_dist cfg rw timeout_frames need_votes k
            = Return (Some name)
            /\ forall (h : Repl.host) (s : Repl.session),
                 Repl.has_cv2 h = true ->
                 Personas.is_persona name = true ->
                 Repl.identity
                   (fst (Repl.step cfg h s (Repl.CmdRecognize (Some name))))
                 = name).
Proof.
  intros vec d cfg w name ke mf fuel files rw timeout need k Hcap Hfirst Hds.
  assert (exists samples,
            samples <> []
            /\ files = [((name ++ ".npy")%string,
                         {| FaceAuth.ndim := 2; FaceAuth.npy_rows := samples |})])
    as (samples & Hsamples & Hfiles).
  { unfold Enroll.capture_profile in Hcap.
    destruct (negb (Enroll.HAS_CV2 vec w)); [discriminate|].
    destruct (Enroll.camera vec w) as [cam|]; [|discriminate].
    destruct (negb (Enroll.cascade_found vec w)); [discriminate|].
    destruct (negb (Enroll.cascade_loads vec w)); [discriminate|].
    destruct (Enroll.capture_loop cfg ke mf cam fuel 0 [] 0) as [smp fc| |];
      [|discriminate|discriminate].
    destruct smp as [|x smp]; [discriminate|].
    rewrite Hfirst in Hcap. inversion Hcap. exists (x :: smp).
    split; [discriminate | reflexivity]. }
  destruct (npy_name_round_trip name) as [Hend Hstem].
  subst files.
  set (X := {| FaceAuth.ndim := 2; FaceAuth.npy_rows := samples |}) in *.
  assert (usable ((name ++ ".npy")%string, X) = true) as Husable
    by (unfold usable; simpl; rewrite Hend; reflexivity).
  destruct (load_face_bank_spec vec [((name ++ ".npy")%string, X)]) as [Hload Hnames].
  simpl List.filter in Hload, Hnames. rewrite Husable in Hload, Hnames.
  cbn [bank_rows snd FaceAuth.npy_rows X] in Hload. rewrite app_nil_r in Hload.
  exists samples. split; [exact Hsamples|]. split; [reflexivity|]. split.
  - intros x Hrec.
    destruct (recognized_row vec d cfg rw timeout need k x Hrec)
      as (_ & _ & _ & files' & train & names & v & lbl & Hds' & Hbank & Hr & Hlbl).
    rewrite Hds in Hds'. inversion Hds'; subst files'.
    destruct (load_face_bank_rows _ train names v lbl Hbank Hr)
      as (file & Hfile & _ & _ & Hfstem).
    destruct Hfile as [<-|[]]. rewrite Hlbl in Hfstem. injection Hfstem as ->.
    unfold stem. simpl. exact Hstem.
  - intros cam Hname Hk Hneed Hcv Hcam Hfound Hloads Hshow.
    split.
    + set (names := FaceAuth.names vec
                      (fold_left (FaceAuth.scan_file vec) [((name ++ ".npy")%string, X)]
                         {| FaceAuth.feats := []; FaceAuth.labels := [];
                            FaceAuth.names := ∅; FaceAuth.cid := 0 |})) in *.
      assert (names !! 0 = Some name) as Hname0.
      { rewrite Hnames. simpl. unfold stem. simpl. rewrite Hstem. reflexivity. }
      assert (FaceAuth.recognize_setup rw
              = Some (map (fun v => (v, 0)) samples, names, cam)) as Hsetup.
      { unfold FaceAuth.recognize_setup. rewrite Hcv, Hds, Hload, Hcam, Hfound, Hloads.
        reflexivity. }
      unfold FaceAuth.recognize_quick.
      rewrite (recognize_attempt_loop d cfg rw timeout need k _ _ _ Hsetup).
      assert (map (fun v : vec => (v, 0)) samples <> []) as Htrain.
      { destruct samples; [contradiction | discriminate]. }
      destruct (attempt_spec vec d cfg _ names need k Htrain Hk cam timeout
                  ltac:(lia)) as (a & Ha & Hspec).
      rewrite Ha. cbn [mbind result_bind]. f_equal.
      destruct (FaceAuth.outcome a) as [x|].
      * destruct Hspec as (n & pre1 & post1 & Hn & _ & Hfv & _).
        pose proof (Hshow n Hn) as Hnow. unfold shows in Hnow.
        destruct (cam n) as [faces|]; [|contradiction].
        destruct Hnow as [_ Hall].
        rewrite (frame_votes_shown vec d cfg samples names k faces name Hk Hname0
                   Hname Hall) in Hfv.
        assert (In x (map (fun _ => name) faces)) as Hx
          by (rewrite Hfv; apply in_or_app; right; left; reflexivity).
        apply in_map_iff in Hx as (f & Hf & _). rewrite Hf. reflexivity.
      * destruct Hspec as (_ & _ & Hlt). exfalso.
        pose proof (votes_from_shown vec d cfg samples names k cam name timeout 0
                      Hk Hname0 Hname ltac:(intros i Hi; apply Hshow; lia)) as Hge.
        specialize (Hlt name). lia.
    + intros h s Hh Hp. simpl. rewrite Hh. simpl.
      destruct (String.eqb name "") eqn:En;
        [apply String.eqb_eq in En; contradiction|].
      simpl. rewrite Hp. reflexivity.
Qed.

Lemma first_enrollment_unlocks_witness :
  Enroll.capture_profile Config.defaults (ExampleEnroll.studio 24 None) "Aldridge"
    10 1000 100
  = Enroll.Returned true (Some [Example1D.file "Aldridge.npy" [9; 19]])
  /\ (forall i, (i < 250)%nat ->
        shows Example1D.dist Config.defaults [9; 19] (Example1D.one_face i))
  /\ FaceAuth.recognize_quick Example1D.dist Config.defaults
       (Example1D.machine [Example1D.file "Aldridge.npy" [9; 19]] Example1D.one_face)
       250 5 5
     = Return (Some "Aldridge"%string)
  /\ Repl.identity
       (fst (Repl.step Config.defaults ExampleSession.host
               (ExampleSession.locked_start Profiles.no_profiles)
               (Repl.CmdRecognize (Some "Aldridge"%string))))
     = "Aldridge"%string.
Proof.
  assert (Enroll.capture_profile Config.defaults (ExampleEnroll.studio 24 None)
            "Aldridge" 10 1000 100
          = Enroll.Returned true (Some [Example1D.file "Aldridge.npy" [9; 19]]))
    as Hcap by (vm_compute; reflexivity).
  assert (forall i, (i < 250)%nat ->
            shows Example1D.dist Config.defaults [9; 19] (Example1D.one_face i))
    as Hshow.
  { intros i _. simpl. split; [discriminate|].
    constructor; [|constructor]. split; [vm_compute; reflexivity|].
    exists 9. split; [left; reflexivity|]. vm_compute. discriminate. }
  split; [exact Hcap|]. split; [exact Hshow|].
  destruct (first_enrollment_unlocks Z Example1D.dist Config.defaults
              (ExampleEnroll.studio 24 None) "Aldridge" 10 1000 100
              [Example1D.file "Aldridge.npy" [9; 19]]
              (Example1D.machine [Example1D.file "Aldridge.npy" [9; 19]]
                 Example1D.one_face)
              250 5 5 Hcap eq_refl eq_refl)
    as (samples & _ & Hfiles & _ & Hrec).
  assert (samples = [9; 19]) as -> by (inversion Hfiles; reflexivity).
  destruct (Hrec Example1D.one_face ltac:(discriminate) ltac:(lia) ltac:(lia)
              eq_refl eq_refl eq_refl eq_refl Hshow) as [Hq Hstep].
  split; [exact Hq|].
  apply Hstep; reflexivity.
Defined.

(** ** Listening in voice mode *)

Section TextFacts.

Lemma prefix_contains p s : String.prefix p s = true -> Text.contains p s = true.
Proof.
  destruct s as [|c t]; simpl; intros H; [exact H|]. rewrite H. reflexivity.
Qed.

Lemma contains_empty p : p <> ""%string -> Text.contains p "" = false.
Proof. destruct p; [congruence | reflexivity]. Qed.

Lemma contains_lstrip a p s :
  Text.is_space a = false ->
  Text.contains (String a p) s = true ->
  Text.contains (String a p) (Text.lstrip s) = true.
Proof.
  intros Ha. induction s as [|c t IH]; intros H; [exact H|].
  cbn [Text.lstrip]. destruct (Text.is_space c) eqn:Hc; [|exact H].
  apply IH. cbn [Text.contains String.prefix] in H.
  destruct (ascii_dec a c) as [->|Hne]; [congruence|]. exact H.
Qed.

Lemma prefix_rstrip p : forall t,
  no_space p = true ->
  String.prefix p t = true ->
  String.prefix p (Text.rstrip t) = true.
Proof.
  induction p as [|a p IH]; intros t Hp H; [destruct (Text.rstrip t); reflexivity|].
  destruct t as [|b t]; [discriminate|].
  cbn [String.prefix] in H. destruct (ascii_dec a b) as [<-|]; [|discriminate].
  cbn [no_space] in Hp. apply andb_true_iff in Hp as [Ha Hp].
  apply negb_true_iff in Ha.
  specialize (IH t Hp H). cbn [Text.rstrip].
  destruct (Text.rstrip t) as [|c' t'].
  - rewrite Ha. cbn [String.prefix].
    destruct (ascii_dec a a); [exact IH | congruence].
  - cbn [String.prefix]. destruct (ascii_dec a a); [exact IH | congruence].
Qed.

Lemma contains_rstrip p s :
  p <> ""%string ->
  no_space p = true ->
  Text.contains p s = true ->
  Text.contains p (Text.rstrip s) = true.
Proof.
  intros Hne Hp. induction s as [|c t IH]; intros H; [exact H|].
  cbn [Text.contains] in H. apply orb_true_iff in H as [H|H].
  - apply prefix_contains, prefix_rstrip; assumption.
  - specialize (IH H). cbn [Text.rstrip].
    destruct (Text.rstrip t) as [|c' t'].
    + rewrite contains_empty in IH by exact Hne. discriminate.
    + cbn [Text.contains] in *. rewrite IH. apply orb_true_r.
Qed.

(** A word without white space that occurs in [s] occurs in [s.strip()]. *)
Lemma contains_strip p s :
  p <> ""%string ->
  no_space p = true ->
  Text.contains p s = true ->
  Text.contains p (Text.strip s) = true.
Proof.
  intros Hne Hp H. unfold Text.strip.
  destruct p as [|a p]; [congruence|].
  apply contains_lstrip.
  - cbn [no_space] in Hp. apply andb_true_iff in Hp as [Ha _].
    apply negb_true_iff in Ha. exact Ha.
  - apply contains_rstrip; assumption.
Qed.

Lemma exit_phrases_words p :
  In p Voice.exit_phrases -> p <> ""%string /\ no_space p = true.
Proof.
  intros H. unfold Voice.exit_phrases in H. simpl in H.
  repeat (destruct H as [<-|H]; [split; [discriminate | reflexivity]|]).
  destruct H.
Qed.

End TextFacts.

(** X23. [do_voice_listen] never turns voice mode on. A text it returns is
    what was heard, unchanged and not empty, with the voice mode left as it
    was; in voice mode such a text holds none of the words "exit", "quit",
    "goodbye", "bye", "stop", "pause". In voice mode an utterance whose
    lower-case form holds one of these words anywhere, also inside another
    word, is dropped and voice mode is turned off. Voice mode changes in
    no other case. *)
Theorem do_voice_listen_outcomes :
  forall (stt_available : bool) (heard : option string) (voice_mode_active : bool)
         (text : option string) (voice_mode_after : bool),
    Voice.do_voice_listen stt_available heard voice_mode_active
    = (text, voice_mode_after) ->
    (voice_mode_after = true -> voice_mode_active = true)
    /\ (forall t,
          text = Some t ->
          heard = Some t /\ t <> ""%string /\ stt_available = true
          /\ voice_mode_after = voice_mode_active
          /\ (voice_mode_active = true ->
              forall p, In p Voice.exit_phrases ->
                        Text.contains p (Str.lower t) = false))
    /\ (forall spoken p,
          stt_available = true ->
          voice_mode_active = true ->
          heard = Some spoken ->
          In p Voice.exit_phrases ->
          Text.contains p (Str.lower spoken) = true ->
          text = None /\ voice_mode_after = false)
    /\ (voice_mode_after <> voice_mode_active ->
        exists spoken p,
          heard = Some spoken /\ In p Voice.exit_phrases
          /\ Text.contains p (Text.strip (Str.lower spoken)) = true).
Proof.
  intros stt heard vm text vm' H. unfold Voice.do_voice_listen in H.
  destruct stt; cbn [negb] in H.
  2: { inversion H; subst. split; [auto|]. split; [intros; congruence|].
       split; [intros; congruence | congruence]. }
  destruct heard as [spoken|].
  2: { assert (text = None /\ vm' = vm) as [-> ->]
         by (destruct vm; inversion H; auto).
       split; [auto|]. split; [intros; congruence|].
       split; [intros; congruence | congruence]. }
  cbn [truthy] in H.
  destruct (String.eqb spoken "") eqn:Hempty; cbn [negb] in H.
  { apply String.eqb_eq in Hempty. subst spoken.
    assert (text = None /\ vm' = vm) as [-> ->]
      by (destruct vm; inversion H; auto).
    split; [auto|]. split; [intros; congruence|]. split; [|congruence].
    intros spoken p _ _ Hs Hp Hc. inversion Hs; subst spoken.
    cbn [Str.lower] in Hc. destruct (exit_phrases_words p Hp) as [Hne _].
    rewrite contains_empty in Hc by exact Hne. discriminate. }
  apply String.eqb_neq in Hempty.
  destruct vm; cbn [andb] in H.
  - destruct (existsb (fun p => Text.contains p (Text.strip (Str.lower spoken)))
                Voice.exit_phrases) eqn:Hex; inversion H; subst.
    + split; [auto|]. split; [intros; congruence|]. split; [auto|].
      intros _. apply existsb_exists in Hex as (p & Hp & Hc).
      exists spoken, p. auto.
    + assert (forall p, In p Voice.exit_phrases ->
                Text.contains p (Str.lower spoken) = false) as Hnone.
      { intros p Hp.
        destruct (Text.contains p (Str.lower spoken)) eqn:Hc; [|reflexivity].
        destruct (exit_phrases_words p Hp) as [Hne Hns].
        pose proof (contains_strip p _ Hne Hns Hc) as Hstrip.
        assert (existsb (fun p => Text.contains p (Text.strip (Str.lower spoken)))
                  Voice.exit_phrases = true) as Hyes
          by (apply existsb_exists; exists p; auto).
        congruence. }
      split; [auto|]. split; [|split; [|congruence]].
      * intros t Ht. inversion Ht; subst t. auto.
      * intros spoken' p _ _ Hs Hp Hc. inversion Hs; subst spoken'.
        rewrite (Hnone p Hp) in Hc. discriminate.
  - inversion H; subst. split; [auto|].
    split; [|split; [intros; congruence | congruence]].
    intros t Ht. inversion Ht; subst t.
    split; [reflexivity|]. split; [exact Hempty|]. split; [reflexivity|].
    split; [reflexivity|]. intros; congruence.
Qed.

Lemma do_voice_listen_outcomes_witness :
  Voice.do_voice_listen true (Some "Where is the next bus STOP"%string) true
  = (None, false)
  /\ In "stop"%string Voice.exit_phrases
  /\ Text.contains "stop" (Str.lower "Where is the next bus STOP") = true.
Proof.
  assert (In "stop"%string Voice.exit_phrases) as Hin
    by (unfold Voice.exit_phrases; simpl; tauto).
  assert (Text.contains "stop" (Str.lower "Where is the next bus STOP") = true)
    as Hc by (vm_compute; reflexivity).
  destruct (Voice.do_voice_listen true (Some "Where is the next bus STOP"%string) true)
    as [text vm'] eqn:Hrun.
  destruct (do_voice_listen_outcomes true (Some "Where is the next bus STOP"%string)
              true text vm' Hrun) as (_ & _ & Hdrop & _).
  destruct (Hdrop _ "stop"%string eq_refl eq_refl eq_refl Hin Hc) as [-> ->].
  split; [reflexivity|]. split; [exact Hin | exact Hc].
Defined.

(** ** Day phrases of the calendar *)

(** X24. [_next_weekday] for a target weekday 0..6 returns a day with that
    weekday, from the given day up to six days later, and the first such
    day: the given day itself when it already has the weekday (asking for
    "monday" on a Monday gives today, not the Monday of next week). *)
Theorem next_weekday_is_first :
  forall (dt_local target_wd : Z),
    1 <= dt_local <= CalendarTools.max_ordinal - 6 ->
    0 <= target_wd < 7 ->
    CalendarTools.weekday (CalendarTools._next_weekday dt_local target_wd) = target_wd
    /\ dt_local <= CalendarTools._next_weekday dt_local target_wd < dt_local + 7
    /\ (CalendarTools.weekday dt_local = target_wd ->
        CalendarTools._next_weekday dt_local target_wd = dt_local)
    /\ (forall day,
          dt_local <= day ->
          CalendarTools.weekday day = target_wd ->
          CalendarTools._next_weekday dt_local target_wd <= day).
Proof.
  intros d t Hd Ht. unfold CalendarTools._next_weekday, CalendarTools.weekday.
  pose proof (Z.mod_pos_bound (d + 6) 7 ltac:(lia)) as Hw.
  pose proof (Z.mod_pos_bound (t - (d + 6) mod 7) 7 ltac:(lia)) as Ha.
  pose proof (Z.div_mod (d + 6) 7 ltac:(lia)) as Ed.
  pose proof (Z.div_mod (t - (d + 6) mod 7) 7 ltac:(lia)) as Ea.
  set (w := (d + 6) mod 7) in *. set (a := (t - w) mod 7) in *.
  assert ((d + a + 6) mod 7 = t) as Hres.
  { symmetry. apply (Z.mod_unique _ _ ((d + 6) / 7 - (t - w) / 7)); [left; lia | lia]. }
  split; [exact Hres|]. split; [lia|]. split.
  - intros Hsame. lia.
  - intros day Hday Hwd.
    pose proof (Z.div_mod (day + 6) 7 ltac:(lia)) as Eday.
    rewrite Hwd in Eday. lia.
Qed.

Lemma next_weekday_is_first_witness :
  1 <= 739558 <= CalendarTools.max_ordinal - 6
  /\ CalendarTools.weekday 739558 = 0
  /\ CalendarTools._next_weekday 739558 0 = 739558
  /\ CalendarTools._next_weekday 739558 4 = 739562.
Proof.
  assert (1 <= 739558 <= CalendarTools.max_ordinal - 6) as Hd
    by (unfold CalendarTools.max_ordinal; lia).
  split; [exact Hd|]. split; [reflexivity|].
  destruct (next_weekday_is_first 739558 0 Hd ltac:(lia)) as (_ & _ & Hsame & _).
  split; [apply Hsame; reflexivity | reflexivity].
Defined.

Section WordNumberFacts.

Import CalendarTools.

Lemma table_range (l : list (string * Z)) lo hi k v :
  Forall (fun e => lo <= snd e <= hi) l ->
  (list_to_map l : gmap string Z) !! k = Some v ->
  lo <= v <= hi.
Proof.
  intros Hall Hk. apply elem_of_list_to_map_2 in Hk.
  apply list_elem_of_In in Hk.
  rewrite List.Forall_forall in Hall. exact (Hall (k, v) Hk).
Qed.

Ltac table_bounds := repeat constructor; simpl; lia.

Lemma card_1_19_range k v : card_1_19 !! k = Some v -> 1 <= v <= 19.
Proof. apply table_range. table_bounds. Qed.

Lemma ord_1_19_range k v : ord_1_19 !! k = Some v -> 1 <= v <= 19.
Proof. apply table_range. table_bounds. Qed.

Lemma tens_ord_range k v : tens_ord !! k = Some v -> v = 20 \/ v = 30.
Proof.
  intros H. apply elem_of_list_to_map_2, list_elem_of_In in H.
  destruct H as [H|[H|[]]]; inversion H; auto.
Qed.

Lemma tens_card_range k v : tens_card !! k = Some v -> v = 20 \/ v = 30.
Proof.
  intros H. apply elem_of_list_to_map_2, list_elem_of_In in H.
  destruct H as [H|[H|[]]]; inversion H; auto.
Qed.

Lemma unit_card_range k v : unit_card !! k = Some v -> 1 <= v <= 9.
Proof. apply table_range. table_bounds. Qed.

Lemma unit_ord_range k v : unit_ord !! k = Some v -> 1 <= v <= 9.
Proof. apply table_range. table_bounds. Qed.

End WordNumberFacts.

(** X25. [_wordnum_to_int] returns only numbers from 1 to 39. The compounds
    of "twenty" or
    "thirty" with a unit word, cardinal or ordinal, joined by a hyphen or a
    space, give the sum. The cardinals "twenty" and "thirty" on their own
    are not numbers for it, in any capitalisation and with white space
    around, while "twentieth" and "thirtieth" are. *)
Theorem wordnum_to_int_range :
  forall (s : string),
    (forall v, CalendarTools._wordnum_to_int s = Some v -> 1 <= v <= 39)
    /\ (CalendarTools.normalized s = "twenty"%string
        \/ CalendarTools.normalized s = "thirty"%string ->
        CalendarTools._wordnum_to_int s = None)
    /\ (CalendarTools.normalized s = "twentieth"%string ->
        CalendarTools._wordnum_to_int s = Some 20)
    /\ (CalendarTools.normalized s = "thirtieth"%string ->
        CalendarTools._wordnum_to_int s = Some 30)
    /\ (forall tens_word tens unit_word unit,
          CalendarTools.tens_card !! tens_word = Some tens ->
          CalendarTools.unit_card !! unit_word = Some unit
          \/ CalendarTools.unit_ord !! unit_word = Some unit ->
          s = (tens_word ++ "-" ++ unit_word)%string
          \/ s = (tens_word ++ " " ++ unit_word)%string ->
          CalendarTools._wordnum_to_int s = Some (tens + unit)).
Proof.
  intros s. split; [|split; [|split; [|split]]].
  - intros v H. unfold CalendarTools._wordnum_to_int in H.
    destruct (CalendarTools.card_1_19 !! CalendarTools.normalized s) as [v1|] eqn:H1.
    { inversion H; subst. apply card_1_19_range in H1. lia. }
    destruct (CalendarTools.ord_1_19 !! CalendarTools.normalized s) as [v2|] eqn:H2.
    { inversion H; subst. apply ord_1_19_range in H2. lia. }
    destruct (CalendarTools.tens_ord !! CalendarTools.normalized s) as [v3|] eqn:H3.
    { inversion H; subst. apply tens_ord_range in H3. lia. }
    destruct (Text.split (CalendarTools.normalized s)) as [|p0 [|p1 [|p2 rest]]];
      try discriminate.
    destruct (CalendarTools.tens_card !! p0) as [tens|] eqn:Ht; [|discriminate].
    apply tens_card_range in Ht.
    destruct (CalendarTools.unit_card !! p1) as [u|] eqn:Hu.
    { inversion H; subst. apply unit_card_range in Hu. lia. }
    destruct (CalendarTools.unit_ord !! p1) as [u|] eqn:Hu'; [|discriminate].
    inversion H; subst. apply unit_ord_range in Hu'. lia.
  - intros [H|H]; unfold CalendarTools._wordnum_to_int; rewrite H;
      vm_compute; reflexivity.
  - intros H. unfold CalendarTools._wordnum_to_int. rewrite H. vm_compute. reflexivity.
  - intros H. unfold CalendarTools._wordnum_to_int. rewrite H. vm_compute. reflexivity.
  - intros tens_word tens unit_word unit Ht Hu Hs.
    apply elem_of_list_to_map_2, list_elem_of_In in Ht.
    assert (In (unit_word, unit)
              (List.app
                 [("one", 1); ("two", 2); ("three", 3); ("four", 4); ("five", 5);
                  ("six", 6); ("seven", 7); ("eight", 8); ("nine", 9)]%string
                 [("first", 1); ("second", 2); ("third", 3); ("fourth", 4);
                  ("fifth", 5); ("sixth", 6); ("seventh", 7); ("eighth", 8);
                  ("ninth", 9)]%string)) as Hunit.
    { destruct Hu as [Hu|Hu]; apply elem_of_list_to_map_2, list_elem_of_In in Hu;
        apply in_or_app; [left | right]; exact Hu. }
    clear Hu.
    destruct Ht as [Ht|[Ht|[]]]; inversion Ht; subst tens_word tens; clear Ht;
      simpl in Hunit;
      repeat (destruct Hunit as [Hunit|Hunit];
              [inversion Hunit; subst unit_word unit;
               destruct Hs as [->| ->]; vm_compute; reflexivity|]);
      destruct Hunit.
Qed.

Lemma wordnum_to_int_range_witness :
  CalendarTools.normalized " Twenty " = "twenty"%string
  /\ CalendarTools._wordnum_to_int " Twenty " = None
  /\ CalendarTools._wordnum_to_int "Twenty-First" = Some 21
  /\ CalendarTools._wordnum_to_int "thirty nine" = Some 39.
Proof.
  assert (CalendarTools.normalized " Twenty " = "twenty"%string) as Hn
    by (vm_compute; reflexivity).
  destruct (wordnum_to_int_range " Twenty ") as (_ & Hnone & _).
  split; [exact Hn|]. split; [apply Hnone; left; exact Hn|].
  split; [vm_compute; reflexivity|].
  destruct (wordnum_to_int_range "thirty nine") as (_ & _ & _ & _ & Hsum).
  apply (Hsum "thirty"%string 30 "nine"%string 9);
    [vm_compute; reflexivity | left; vm_compute; reflexivity | right; reflexivity].
Defined.

(** ** Saved places *)

Section PlacesFacts.

Import Repl.

Variable cfg : Config.config.
Variable h : host.

Lemma places_of_ensure name i p :
  Profiles.places_of (Profiles.ensure_identity_struct p i) name
  = Profiles.places_of p name.
Proof.
  unfold Profiles.places_of, Profiles.ensure_identity_struct. simpl.
  destruct (decide (i = name)) as [->|Hne].
  - rewrite lookup_insert_eq. simpl.
    destruct (Profiles.records p !! name) as [r|]; simpl; [|reflexivity].
    destruct (Profiles.places r); reflexivity.
  - rewrite lookup_insert_ne by exact Hne. reflexivity.
Qed.

Lemma places_of_set_tts name i f p :
  Profiles.places_of (Profiles.set_tts p i f) name = Profiles.places_of p name.
Proof.
  unfold Profiles.places_of, Profiles.set_tts. simpl.
  destruct (Profiles.records p !! i) as [r|] eqn:Hr; [|reflexivity].
  destruct (decide (i = name)) as [->|Hne].
  - rewrite lookup_insert_eq, Hr. reflexivity.
  - rewrite lookup_insert_ne by exact Hne. reflexivity.
Qed.

Lemma places_of_set_calendar name i value p :
  Profiles.places_of (Profiles.set_calendar p i value) name = Profiles.places_of p name.
Proof.
  unfold Profiles.places_of, Profiles.set_calendar. simpl.
  destruct (Profiles.records p !! i) as [r|] eqn:Hr; [|reflexivity].
  destruct (decide (i = name)) as [->|Hne].
  - rewrite lookup_insert_eq, Hr. reflexivity.
  - rewrite lookup_insert_ne by exact Hne. reflexivity.
Qed.

Lemma places_of_set_place_other name i k v p :
  i <> name ->
  Profiles.places_of (Profiles.set_place p i k v) name = Profiles.places_of p name.
Proof.
  intros Hne. unfold Profiles.places_of.
  rewrite records_set_place_other by exact Hne. reflexivity.
Qed.

(** The places after a command that is not a free input: unchanged. *)
Lemma step_places_command s c name :
  (forall u, c <> CmdOther u) ->
  Profiles.places_of (profiles (fst (step cfg h s c))) name
  = Profiles.places_of (profiles s) name.
Proof.
  intros Hc.
  assert (forall target value,
            Profiles.places_of
              (profiles (fst (set_calendar_permission s target value))) name
            = Profiles.places_of (profiles s) name) as Hset.
  { intros target value. unfold set_calendar_permission.
    destruct (negb _); [reflexivity|]. destruct (negb _); [reflexivity|]. simpl.
    rewrite places_of_set_calendar. apply places_of_ensure. }
  destruct c; simpl; try reflexivity.
  - destruct (negb (has_cv2 h)); [reflexivity|].
    destruct who as [who|]; [|reflexivity].
    destruct (negb (truthy (Some who))); [reflexivity|].
    destruct (negb (Personas.is_persona who)); [reflexivity|]. simpl.
    rewrite places_of_ensure. reflexivity.
  - destruct (_ && _); [|reflexivity]. simpl.
    rewrite places_of_ensure. reflexivity.
  - destruct (_ || _); simpl.
    + apply (places_of_ensure name _ (profiles s)).
    + destruct (String.eqb (identity s) "LOCKED"); [reflexivity|].
      destruct (String.eqb (identity s) "guest"); reflexivity.
  - destruct (_ || _); [|reflexivity].
    destruct (Personas.is_persona (identity s)); [|reflexivity]. simpl.
    rewrite places_of_set_tts. apply places_of_ensure.
  - destruct idx; [|reflexivity].
    destruct (Personas.is_persona (identity s)); [|reflexivity]. simpl.
    rewrite places_of_set_tts. apply places_of_ensure.
  - destruct rate_val; [|reflexivity].
    destruct (Personas.is_persona (identity s)); [|reflexivity]. simpl.
    rewrite places_of_set_tts. apply places_of_ensure.
  - destruct (String.eqb arg "on"); [destruct (negb _)|destruct (String.eqb arg "off")];
      reflexivity.
  - apply Hset.
  - apply Hset.
  - destruct (locked_like (identity s)); [reflexivity|].
    destruct (negb _); reflexivity.
  - exfalso. apply (Hc u). reflexivity.
Qed.

End PlacesFacts.

(** X26. The saved places of an identity change by one command only: a
    [/setplace key = value] typed under that identity while it is not
    locked-like, which stores the value under the key and leaves the other
    places. Logins, speech settings, permission changes and every other
    input leave the places of every identity as they are. *)
Theorem places_change_only_by_setplace :
  forall (cfg : Config.config) (h : Repl.host) (s : Repl.session) (c : Repl.command)
         (name : string),
    Profiles.places_of (Repl.profiles (fst (Repl.step cfg h s c))) name
    = Profiles.places_of (Repl.profiles s) name
    \/ (Repl.locked_like (Repl.identity s) = false
        /\ name = Repl.identity s
        /\ exists u k v,
             c = Repl.CmdOther u
             /\ Repl.shape u = Repl.FSetPlace (Some (k, v))
             /\ Profiles.places_of (Repl.profiles (fst (Repl.step cfg h s c))) name
                = <[ k := v ]> (Profiles.places_of (Repl.profiles s) name)).
Proof.
  intros cfg h s c name.
  destruct c; try (left; apply step_places_command; intros u' Hu; discriminate Hu).
  destruct (other_profiles cfg h s u) as [Hsame|Hsame]; rewrite Hsame;
    [|left; reflexivity].
  destruct (late_profiles h s (Repl.shape u)) as [Hlate|(Hl & k & v & Hshape & Hlate)];
    rewrite Hlate; [left; reflexivity|].
  destruct (decide (Repl.identity s = name)) as [<-|Hne].
  - right. split; [exact Hl|]. split; [reflexivity|].
    exists u, k, v. split; [reflexivity|]. split; [exact Hshape|].
    apply places_after_set_place.
  - left. rewrite places_of_set_place_other by exact Hne. apply places_of_ensure.
Qed.
